(** * Attribute-based access control: the decision core

    A shallow embedding of the two evaluators of the repository:

    - [src/policy-engine.js]: the resource-level engine ([evaluate],
      [checkAccess], [evaluateConditions] and the [operators] table);
    - the cell/field-level engine ([evaluateCondition],
      [evaluatePolicyConditions], [evaluateFieldAccess], [applyMask],
      [filterSingleRow]).

    Conventions of the model:

    - a JavaScript string is a [string], one character per code unit: the
      character of code [n] is the code unit [n], so that the strings of
      the model are those of code units below 256 (ISO 8859-1), on which
      [toLowerCase] and [trim] are the ones of the language;
    - a plain JS object used as a map (an attribute bag, a row, a field
      map) is the [gmap] of its own properties; reading [obj[k]] also
      finds the members inherited from [Object.prototype], and writing
      [obj['__proto__']] creates no property ([Js.get], [Js.assign]);
    - a SQL table is the list of its rows in storage order.  A query
      without [ORDER BY] returns the selected rows in that order; the rows
      an [ORDER BY] query returns are an argument of the function that
      runs it, constrained in [Query] by what the clause guarantees;
    - an exception is a [Throws] outcome;
    - the regular-expression engine and the numeric conversion belong to
      the runtime, [JsRuntime]. *)

From Stdlib Require Import ZArith Ascii String List Bool Lia Sorting.Sorted.
From stdpp Require Import base option list gmap strings fin_maps pretty.

Local Open Scope string_scope.
Local Open Scope Z_scope.

(** ** Exceptions *)

(** A JavaScript computation either returns a value or throws.  The
    exceptions the modelled code can raise are the [SyntaxError] of the
    [RegExp] constructor and the refusal of the database wrapper to bind
    [undefined] to a parameter of a query. *)
Inductive outcome (A : Type) : Type :=
  | Returns (a : A)
  | Throws (e : string).
Arguments Returns {A} a.
Arguments Throws {A} e.

Definition SyntaxError : string := "SyntaxError".

Definition bind {A B : Type} (m : outcome A) (k : A -> outcome B) : outcome B :=
  match m with
  | Returns a => k a
  | Throws e => Throws e
  end.

Notation "x <- m ;; k" := (bind m (fun x => k))
  (at level 100, m at next level, right associativity).

(** [try { m } catch { return d }] *)
Definition try_catch {A : Type} (m : outcome A) (d : A) : A :=
  match m with
  | Returns a => a
  | Throws _ => d
  end.

(** [Array.prototype.every] with a callback that may throw: the callback
    runs on the elements from left to right, and the first [false] (or the
    first exception) ends the iteration. *)
Fixpoint every {A : Type} (f : A -> outcome bool) (l : list A) : outcome bool :=
  match l with
  | [] => Returns true
  | x :: l' => b <- f x ;; if b then every f l' else Returns false
  end.

(** A [for] loop over [l] whose body updates a state and may throw. *)
Fixpoint for_each {A S : Type} (body : S -> A -> outcome S) (st : S) (l : list A)
    : outcome S :=
  match l with
  | [] => Returns st
  | x :: l' => st' <- body st x ;; for_each body st' l'
  end.

(** ** The JavaScript runtime *)

(** What the engines take from the language runtime and is not written in
    the repository: the regular-expression engine and the numeric
    conversion of strings.

    - [RegExp_i p] is [new RegExp(p, 'i')]: [None] when [p] is not a
      pattern (the constructor throws [SyntaxError]), otherwise the [test]
      method of the compiled expression;
    - [Number_lt a b] is [Number(a) < Number(b)] ([false] as soon as one
      side converts to [NaN]). *)
Class JsRuntime : Type := {
  RegExp_i : string -> option (string -> bool);
  Number_lt : string -> string -> bool
}.

(** ** Strings *)

Module Js.

(** The code units below 256 that [toLowerCase] changes: [A]-[Z], and
    U+00C0-U+00DE but the multiplication sign U+00D7.  Each becomes the
    code unit 32 above it. *)
Definition is_upper (c : ascii) : bool :=
  let n := nat_of_ascii c in
  ((65 <=? n)%nat && (n <=? 90)%nat)
  || ((192 <=? n)%nat && (n <=? 222)%nat && negb (n =? 215)%nat).

Definition lower_char (c : ascii) : ascii :=
  if is_upper c then ascii_of_nat (nat_of_ascii c + 32) else c.

(** [s.toLowerCase()] *)
Fixpoint toLowerCase (s : string) : string :=
  match s with
  | EmptyString => EmptyString
  | String c s' => String (lower_char c) (toLowerCase s')
  end.

(** [s.includes(sub)] *)
Fixpoint includes (s sub : string) : bool :=
  String.prefix sub s ||
  match s with
  | EmptyString => false
  | String _ s' => includes s' sub
  end.

(** [s.split(sep)] for a one-character separator: never the empty list. *)
Fixpoint split (sep : ascii) (s : string) : list string :=
  match s with
  | EmptyString => [EmptyString]
  | String c s' =>
      if Ascii.eqb c sep then EmptyString :: split sep s'
      else match split sep s' with
           | [] => [String c EmptyString]
           | w :: ws => String c w :: ws
           end
  end.

(** The white space and line terminators below 256, which [trim]
    removes: tab, line feed, vertical tab, form feed, carriage return,
    space and the no-break space U+00A0. *)
Definition is_space (c : ascii) : bool :=
  let n := nat_of_ascii c in
  ((9 <=? n)%nat && (n <=? 13)%nat) || (n =? 32)%nat || (n =? 160)%nat.

Fixpoint trimStart (s : string) : string :=
  match s with
  | EmptyString => EmptyString
  | String c s' => if is_space c then trimStart s' else s
  end.

Fixpoint trimEnd (s : string) : string :=
  match s with
  | EmptyString => EmptyString
  | String c s' =>
      match trimEnd s' with
      | EmptyString => if is_space c then EmptyString else String c EmptyString
      | t => String c t
      end
  end.

Definition trim (s : string) : string := trimEnd (trimStart s).

Definition length (s : string) : Z := Z.of_nat (String.length s).

Fixpoint drop (n : nat) (s : string) : string :=
  match n, s with
  | O, _ => s
  | S _, EmptyString => EmptyString
  | S n', String _ s' => drop n' s'
  end.

(** [s.slice(start)]: a negative [start] counts from the end. *)
Definition slice (s : string) (start : Z) : string :=
  let len := length s in
  let from := if start <? 0 then Z.max (len + start) 0 else Z.min start len in
  drop (Z.to_nat from) s.

(** [s.indexOf(c)] for a one-character needle: [-1] when absent. *)
Fixpoint indexOf (s : string) (c : ascii) : Z :=
  match s with
  | EmptyString => -1
  | String d s' =>
      if Ascii.eqb d c then 0
      else let i := indexOf s' c in if i <? 0 then -1 else i + 1
  end.

(** [c.repeat(n)] *)
Fixpoint repeat (c : ascii) (n : nat) : string :=
  match n with
  | O => EmptyString
  | S n' => String c (repeat c n')
  end.

(** [s[i]] as a string; [None] is [undefined]. *)
Definition at_ (s : string) (i : Z) : option string :=
  if i <? 0 then None
  else match String.get (Z.to_nat i) s with
       | Some c => Some (String c EmptyString)
       | None => None
       end.

(** Truthiness of a value that is a string, [null] or [undefined]. *)
Definition truthy (o : option string) : bool :=
  match o with
  | Some s => negb (String.eqb s "")
  | None => false
  end.

(** *** Plain objects *)

(** The members every plain object inherits from [Object.prototype], as
    Node lists them; all are functions but [__proto__], the accessor of
    the prototype. *)
Definition prototype_functions : list string :=
  [ "constructor"; "__defineGetter__"; "__defineSetter__"; "hasOwnProperty";
    "__lookupGetter__"; "__lookupSetter__"; "isPrototypeOf"; "propertyIsEnumerable";
    "toString"; "valueOf"; "toLocaleString" ].

(** [String(f)] for a built-in function, as Node prints it;
    [constructor] is the function [Object]. *)
Definition native_code (name : string) : string :=
  "function " ++ (if String.eqb name "constructor" then "Object" else name)
  ++ "() { [native code] }".

(** What [obj[k]] finds above the own properties of a plain object: the
    inherited value, by the string it converts to.  (The engines use an
    attribute value through [String] or [Number] only, and [Number] of
    these strings is [NaN] as [Number] of the values is; every inherited
    value is truthy.) *)
Definition inherited (k : string) : option string :=
  if bool_decide (k ∈ prototype_functions) then Some (native_code k)
  else if String.eqb k "__proto__" then Some "[object Object]"
  else None.

(** [obj[k]] on a plain object whose own properties are strings:
    [None] is [undefined]. *)
Definition get (obj : gmap string string) (k : string) : option string :=
  match obj !! k with
  | Some v => Some v
  | None => inherited k
  end.

(** [obj[k] = v] on an object the code created ([{}] or a literal), for
    a value [v] that is a string or [null]: the name [__proto__] reaches
    the accessor of [Object.prototype], which creates no property (it
    ignores a string; [null] takes the inherited members away from an
    object that is not read by name afterwards). *)
Definition assign {V : Type} (k : string) (v : V) (obj : gmap string V) : gmap string V :=
  if String.eqb k "__proto__" then obj else <[k := v]> obj.

End Js.

(** ** Rows of the tables *)

(** [policies]: [effect] is constrained to ['allow'] or ['deny'] by the
    schema; the engine only compares it to ['deny']. *)
Record policy := {
  p_id : string;
  p_name : string;
  p_effect : string;
  p_priority : Z;
  p_is_active : Z;
  p_created_at : string
}.

(** [policy_conditions] *)
Record condition := {
  c_policy_id : string;
  c_subject_type : string;
  c_attribute_name : string;
  c_operator : string;
  c_attribute_value : string
}.

(** Rows of [user_attributes], [resource_attributes] and
    [field_attributes]: owner id, name, value. *)
Record attribute := {
  a_owner : string;
  a_name : string;
  a_value : string
}.

Record user := {
  u_id : string;
  u_username : string;
  u_email : option string
}.

Record resource := {
  r_id : string;
  r_name : string;
  r_type : string
}.

(** [access_audit_log] *)
Record audit := {
  l_user_id : string;
  l_resource_id : string;
  l_action : string;
  l_decision : string;
  l_policy_id : option string;
  l_reason : string
}.

(** [resource_fields]: [field_type] may be NULL. *)
Record resource_field := {
  f_id : string;
  f_resource_id : string;
  f_field_name : string;
  f_field_type : option string
}.

(** One element of the [conditions] array that [getFieldPolicies] parses
    from the JSON the query builds: the column [attribute_value] is
    renamed [value]. *)
Record field_condition := {
  fc_subject_type : string;
  fc_attribute_name : string;
  fc_operator : string;
  fc_value : string
}.

(** [field_policy_conditions] *)
Record field_policy_condition := {
  fpc_policy_id : string;
  fpc_condition : field_condition
}.

(** [field_policies]: [resource_type], [field_pattern] and [mask_value]
    may be NULL. *)
Record field_policy_row := {
  fp_id : string;
  fp_name : string;
  fp_resource_type : option string;
  fp_field_pattern : option string;
  fp_effect : string;
  fp_mask_value : option string;
  fp_priority : Z;
  fp_is_active : Z;
  fp_created_at : string
}.

Record database := {
  users : list user;
  user_attributes : list attribute;
  resources : list resource;
  resource_attributes : list attribute;
  environment_attributes : list (string * string);
  policies : list policy;
  policy_conditions : list condition;
  access_audit_log : list audit;
  resource_fields : list resource_field;
  field_attributes : list attribute;
  field_policies : list field_policy_row;
  field_policy_conditions : list field_policy_condition
}.

(** [forEach(a => { result[a.attribute_name] = a.attribute_value })] *)
Definition assign_rows (rows : list attribute) (result : gmap string string)
  : gmap string string :=
  foldl (fun m a => Js.assign (a_name a) (a_value a) m) result rows.

Definition rows_of (owner : string) (rows : list attribute) : list attribute :=
  filter (fun a => a_owner a = owner) rows.

(** ** The resource-level engine ([policy-engine.js]) *)

Module PolicyEngine.
Section Engine.

Context {rt : JsRuntime}.

(** The [operators] table of the constructor, read at the operator of a
    stored condition, which the [CHECK] constraint of [policy_conditions]
    keeps among these seven names.  [matches] builds the regular
    expression with no [try]: an invalid pattern throws. *)
Definition operators (name : string) : option (string -> string -> outcome bool) :=
  if String.eqb name "equals" then
    Some (fun a b => Returns (String.eqb (Js.toLowerCase a) (Js.toLowerCase b)))
  else if String.eqb name "not_equals" then
    Some (fun a b => Returns (negb (String.eqb (Js.toLowerCase a) (Js.toLowerCase b))))
  else if String.eqb name "contains" then
    Some (fun a b => Returns (Js.includes (Js.toLowerCase a) (Js.toLowerCase b)))
  else if String.eqb name "in" then
    Some (fun a b =>
      let list := map (fun s => Js.toLowerCase (Js.trim s)) (Js.split "," b) in
      Returns (bool_decide (Js.toLowerCase a ∈ list)))
  else if String.eqb name "greater_than" then
    Some (fun a b => Returns (Number_lt b a))
  else if String.eqb name "less_than" then
    Some (fun a b => Returns (Number_lt a b))
  else if String.eqb name "matches" then
    Some (fun a b =>
      match RegExp_i b with
      | Some test => Returns (test a)
      | None => Throws SyntaxError
      end)
  else None.

(** The [switch] on [condition.subject_type]: [None] is the [default]
    branch, [Some None] an [undefined] (or [null]) actual value.  The bags
    are read as objects: a name that is no attribute may still find a
    member of [Object.prototype]. *)
Definition actualValue (c : condition) (userAttrs resourceAttrs envAttrs : gmap string string)
    (action : string) : option (option string) :=
  if String.eqb (c_subject_type c) "user" then Some (Js.get userAttrs (c_attribute_name c))
  else if String.eqb (c_subject_type c) "resource" then
    Some (Js.get resourceAttrs (c_attribute_name c))
  else if String.eqb (c_subject_type c) "environment" then
    Some (Js.get envAttrs (c_attribute_name c))
  else if String.eqb (c_subject_type c) "action" then Some (Some action)
  else None.

Definition evaluateConditions (conditions : list condition)
    (userAttrs resourceAttrs envAttrs : gmap string string) (action : string)
    : outcome bool :=
  if (Z.of_nat (List.length conditions) =? 0) then Returns false
  else
    every (fun c =>
      match actualValue c userAttrs resourceAttrs envAttrs action with
      | None => Returns false
      | Some None => Returns false
      | Some (Some a) =>
          match operators (c_operator c) with
          | None => Returns false
          | Some operator => operator a (c_attribute_value c)
          end
      end) conditions.

Definition getUserAttributes (db : database) (userId : string)
    : option (gmap string string) :=
  match find (fun u => String.eqb (u_id u) userId) (users db) with
  | None => None
  | Some u =>
      let result := <["id" := u_id u]> (<["username" := u_username u]> ∅) in
      let result := match u_email u with
                    | Some e => <["email" := e]> result
                    | None => result
                    end in
      Some (assign_rows (rows_of userId (user_attributes db)) result)
  end.

Definition getResourceAttributes (db : database) (resourceId : string)
    : option (gmap string string) :=
  match find (fun r => String.eqb (r_id r) resourceId) (resources db) with
  | None => None
  | Some r =>
      let result :=
        <["id" := r_id r]> (<["name" := r_name r]> (<["type" := r_type r]> ∅)) in
      Some (assign_rows (rows_of resourceId (resource_attributes db)) result)
  end.

(** The three entries computed from [new Date()] are an input, [clock];
    stored environment attributes overwrite them. *)
Definition getEnvironmentAttributes (db : database) (clock : gmap string string)
    : gmap string string :=
  foldl (fun m a => Js.assign a.1 a.2 m) clock (environment_attributes db).

(** [SELECT * FROM policy_conditions WHERE policy_id = ?], rows in
    storage order. *)
Definition conditions_of (db : database) (policyId : string) : list condition :=
  filter (fun c => c_policy_id c = policyId) (policy_conditions db).

(** What the conditions of a policy evaluate to in the request at hand:
    [this.evaluateConditions(conditions, userAttrs, resourceAttrs,
    envAttrs, action)] on the conditions fetched for [policy.id]. *)
Definition matches (db : database) (userAttrs resourceAttrs envAttrs : gmap string string)
    (action : string) (policy : policy) : outcome bool :=
  evaluateConditions (conditions_of db (p_id policy)) userAttrs resourceAttrs envAttrs action.

(** The value [evaluate] returns. *)
Record decision := {
  allowed : bool;
  reason : string;
  policyId : option string
}.

Definition logAndReturn (db : database) (userId resourceId action : string)
    (allowed : bool) (policyId : option string) (reason : string)
    : database * decision :=
  let row := {| l_user_id := userId; l_resource_id := resourceId; l_action := action;
                l_decision := if allowed then "allow" else "deny";
                l_policy_id := policyId; l_reason := reason |} in
  ({| users := users db; user_attributes := user_attributes db;
      resources := resources db; resource_attributes := resource_attributes db;
      environment_attributes := environment_attributes db;
      policies := policies db; policy_conditions := policy_conditions db;
      access_audit_log := access_audit_log db ++ [row];
      resource_fields := resource_fields db; field_attributes := field_attributes db;
      field_policies := field_policies db;
      field_policy_conditions := field_policy_conditions db |},
   {| allowed := allowed; reason := reason; policyId := policyId |}).

(** The [for] loop of [evaluate] over the rows the query returned, with
    the two [return] statements that follow it.  [allowingPolicy] is the
    loop variable. *)
Fixpoint evaluate_scan (db : database) (userId resourceId : string)
    (userAttrs resourceAttrs envAttrs : gmap string string)
    (action : string) (allowingPolicy : option policy) (rows : list policy)
    : outcome (database * decision) :=
  match rows with
  | [] =>
      match allowingPolicy with
      | Some allowing =>
          Returns (logAndReturn db userId resourceId action true (Some (p_id allowing))
                     ("Allowed by policy: " ++ p_name allowing))
      | None =>
          Returns (logAndReturn db userId resourceId action false None
                     "No applicable policy found - default deny")
      end
  | policy :: rest =>
      matches <- evaluateConditions (conditions_of db (p_id policy))
                   userAttrs resourceAttrs envAttrs action ;;
      if matches then
        if String.eqb (p_effect policy) "deny" then
          Returns (logAndReturn db userId resourceId action false (Some (p_id policy))
                     ("Denied by policy: " ++ p_name policy))
        else match allowingPolicy with
             | None => evaluate_scan db userId resourceId userAttrs resourceAttrs envAttrs
                         action (Some policy) rest
             | Some _ => evaluate_scan db userId resourceId userAttrs resourceAttrs envAttrs
                           action allowingPolicy rest
             end
      else evaluate_scan db userId resourceId userAttrs resourceAttrs envAttrs
             action allowingPolicy rest
  end.

(** [evaluate(userId, resourceId, action)].  [rows] is what
    [SELECT * FROM policies WHERE is_active = 1
     ORDER BY priority DESC, created_at ASC] returned.  An exception of
    the scan leaves the audit log as it was. *)
Definition evaluate (db : database) (clock : gmap string string) (rows : list policy)
    (userId resourceId action : string) : database * outcome decision :=
  match getUserAttributes db userId with
  | None =>
      let '(db', d) := logAndReturn db userId resourceId action false None "User not found" in
      (db', Returns d)
  | Some userAttrs =>
      match getResourceAttributes db resourceId with
      | None =>
          let '(db', d) :=
            logAndReturn db userId resourceId action false None "Resource not found" in
          (db', Returns d)
      | Some resourceAttrs =>
          let envAttrs := getEnvironmentAttributes db clock in
          match evaluate_scan db userId resourceId userAttrs resourceAttrs envAttrs
                  action None rows with
          | Returns (db', d) => (db', Returns d)
          | Throws e => (db, Throws e)
          end
      end
  end.

(** The value [checkAccess] returns: the policy row itself is attached,
    and the key is absent when no policy is cited. *)
Record access := {
  access_allowed : bool;
  access_reason : string;
  access_policy : option policy
}.

(** The [for] loop of [checkAccess]. *)
Fixpoint check_scan (db : database) (userAttrs resourceAttrs envAttrs : gmap string string)
    (action : string) (allowingPolicy : option policy) (rows : list policy)
    : outcome access :=
  match rows with
  | [] =>
      match allowingPolicy with
      | Some allowing =>
          Returns {| access_allowed := true;
                     access_reason := "Allowed by policy: " ++ p_name allowing;
                     access_policy := Some allowing |}
      | None =>
          Returns {| access_allowed := false;
                     access_reason := "No applicable policy - default deny";
                     access_policy := None |}
      end
  | policy :: rest =>
      matches <- evaluateConditions (conditions_of db (p_id policy))
                   userAttrs resourceAttrs envAttrs action ;;
      if matches then
        if String.eqb (p_effect policy) "deny" then
          Returns {| access_allowed := false;
                     access_reason := "Denied by policy: " ++ p_name policy;
                     access_policy := Some policy |}
        else match allowingPolicy with
             | None => check_scan db userAttrs resourceAttrs envAttrs action (Some policy) rest
             | Some _ => check_scan db userAttrs resourceAttrs envAttrs action allowingPolicy rest
             end
      else check_scan db userAttrs resourceAttrs envAttrs action allowingPolicy rest
  end.

(** [checkAccess(userId, resourceId, action)].  [rows] is what
    [SELECT * FROM policies WHERE is_active = 1 ORDER BY priority DESC]
    returned.  Nothing is written. *)
Definition checkAccess (db : database) (clock : gmap string string) (rows : list policy)
    (userId resourceId action : string) : outcome access :=
  match getUserAttributes db userId with
  | None => Returns {| access_allowed := false; access_reason := "User not found";
                       access_policy := None |}
  | Some userAttrs =>
      match getResourceAttributes db resourceId with
      | None => Returns {| access_allowed := false; access_reason := "Resource not found";
                           access_policy := None |}
      | Some resourceAttrs =>
          check_scan db userAttrs resourceAttrs (getEnvironmentAttributes db clock)
            action None rows
      end
  end.

End Engine.
End PolicyEngine.

(** ** The cell/field-level engine *)

(** A raw cell value: a string, [null] or [undefined].  (A number or a
    boolean enters every function below through [String(value)].) *)
Inductive js_value :=
  | JNull
  | JUndefined
  | JString (s : string).

Module CellPolicyEngine.
Section Engine.

Context {rt : JsRuntime}.

(** The [EFFECTS] table. *)
Definition ALLOW : string := "allow".
Definition DENY : string := "deny".
Definition MASK : string := "mask".
Definition REDACT : string := "redact".

(** A policy as [getFieldPolicies] returns it:
    [{ ...p, conditions: JSON.parse(p.conditions || '[]') }]. *)
Record field_policy := {
  row : field_policy_row;
  conditions : list field_condition
}.

(** The evaluation context; each bag is an object ([environment] is [{}]
    by default). *)
Record context := {
  ctx_user : gmap string string;
  ctx_resource : gmap string string;
  ctx_field : gmap string string;
  ctx_action : string;
  ctx_environment : gmap string string
}.

(** [None] is the [default] branch of the first [switch].  The bags of
    the context are read as objects, members of [Object.prototype]
    included. *)
Definition actualValue (c : field_condition) (ctx : context) : option (option string) :=
  if String.eqb (fc_subject_type c) "user" then
    Some (Js.get (ctx_user ctx) (fc_attribute_name c))
  else if String.eqb (fc_subject_type c) "resource" then
    Some (Js.get (ctx_resource ctx) (fc_attribute_name c))
  else if String.eqb (fc_subject_type c) "field" then
    Some (Js.get (ctx_field ctx) (fc_attribute_name c))
  else if String.eqb (fc_subject_type c) "environment" then
    Some (Js.get (ctx_environment ctx) (fc_attribute_name c))
  else if String.eqb (fc_subject_type c) "action" then Some (Some (ctx_action ctx))
  else None.

(** [new RegExp(pattern, 'i').test(subject)] *)
Definition regex_test (pattern subject : string) : outcome bool :=
  match RegExp_i pattern with
  | Some test => Returns (test subject)
  | None => Throws SyntaxError
  end.

Definition evaluateCondition (c : field_condition) (ctx : context) : bool :=
  match actualValue c ctx with
  | None => false
  | Some None => false
  | Some (Some a) =>
      let expectedValue := fc_value c in
      if String.eqb (fc_operator c) "equals" then
        String.eqb (Js.toLowerCase a) (Js.toLowerCase expectedValue)
      else if String.eqb (fc_operator c) "not_equals" then
        negb (String.eqb (Js.toLowerCase a) (Js.toLowerCase expectedValue))
      else if String.eqb (fc_operator c) "contains" then
        Js.includes (Js.toLowerCase a) (Js.toLowerCase expectedValue)
      else if String.eqb (fc_operator c) "in" then
        let allowedValues :=
          map (fun v => Js.toLowerCase (Js.trim v)) (Js.split "," expectedValue) in
        bool_decide (Js.toLowerCase a ∈ allowedValues)
      else if String.eqb (fc_operator c) "greater_than" then Number_lt expectedValue a
      else if String.eqb (fc_operator c) "less_than" then Number_lt a expectedValue
      else if String.eqb (fc_operator c) "matches" then
        try_catch (regex_test expectedValue a) false
      else false
  end.

(** [context.field.name || context.field.field_name], converted to a
    string by [test]. *)
Definition field_name_of (ctx : context) : string :=
  if Js.truthy (ctx_field ctx !! "name") then default "" (ctx_field ctx !! "name")
  else default "undefined" (ctx_field ctx !! "field_name").

(** The test on the empty condition list comes first: a policy without
    conditions matches before its [field_pattern] is looked at. *)
Definition evaluatePolicyConditions (policy : field_policy) (ctx : context) : bool :=
  if (Z.of_nat (List.length (conditions policy)) =? 0) then true
  else
    let pattern_ok :=
      if Js.truthy (fp_field_pattern (row policy)) then
        try_catch (regex_test (default "" (fp_field_pattern (row policy))) (field_name_of ctx))
                  false
      else true in
    if pattern_ok then forallb (fun c => evaluateCondition c ctx) (conditions policy)
    else false.

(** The value [evaluateFieldAccess] returns; [policy] and [maskValue]
    are absent from some of the results. *)
Record field_access := {
  effect : string;
  policy_of : option field_policy;
  maskValue : option string;
  reason_of : string
}.

(** The four object literals of the loop of [evaluateFieldAccess]. *)
Definition denied_by (policy : field_policy) : field_access :=
  {| effect := DENY; policy_of := Some policy; maskValue := None;
     reason_of := "Denied by policy: " ++ fp_name (row policy) |}.

Definition redacted_by (policy : field_policy) : field_access :=
  {| effect := REDACT; policy_of := Some policy;
     maskValue := Some (if Js.truthy (fp_mask_value (row policy))
                        then default "" (fp_mask_value (row policy))
                        else "***REDACTED***");
     reason_of := "Redacted by policy: " ++ fp_name (row policy) |}.

Definition masked_by (policy : field_policy) : field_access :=
  {| effect := MASK; policy_of := Some policy; maskValue := fp_mask_value (row policy);
     reason_of := "Masked by policy: " ++ fp_name (row policy) |}.

Definition allowed_by (policy : field_policy) : field_access :=
  {| effect := ALLOW; policy_of := Some policy; maskValue := None;
     reason_of := "Allowed by policy: " ++ fp_name (row policy) |}.

(** The [for] loop of [evaluateFieldAccess]; [result] is the loop
    variable.  The assignment under [MASK] has no guard; the one under
    [ALLOW] is guarded by [result.effect !== MASK]. *)
Fixpoint field_scan (ctx : context) (result : field_access) (policies : list field_policy)
    : field_access :=
  match policies with
  | [] => result
  | policy :: rest =>
      if evaluatePolicyConditions policy ctx then
        if String.eqb (fp_effect (row policy)) DENY then denied_by policy
        else if String.eqb (fp_effect (row policy)) REDACT then redacted_by policy
        else
          let result :=
            if String.eqb (fp_effect (row policy)) MASK then masked_by policy else result in
          let result :=
            if String.eqb (fp_effect (row policy)) ALLOW
               && negb (String.eqb (effect result) MASK)
            then allowed_by policy else result in
          field_scan ctx result rest
      else field_scan ctx result rest
  end.

(** The rows the query of [getFieldPolicies] ranges over. *)
Definition field_policy_candidates (db : database) (resourceType : option string)
    : list field_policy_row :=
  filter (fun p =>
            fp_is_active p = 1 ∧
            (Js.truthy resourceType = true →
             fp_resource_type p = None ∨ fp_resource_type p = resourceType))
         (field_policies db).

(** [getFieldPolicies(resourceType)], given the [rows] its query
    returned: the conditions of each policy are attached. *)
Definition getFieldPolicies (db : database) (rows : list field_policy_row)
    : list field_policy :=
  map (fun p =>
         {| row := p;
            conditions :=
              map fpc_condition
                  (filter (fun c => fpc_policy_id c = fp_id p) (field_policy_conditions db)) |})
      rows.

Definition no_match : field_access :=
  {| effect := DENY; policy_of := None; maskValue := None;
     reason_of := "No matching allow policy" |}.

(** The context [evaluateFieldAccess] builds once the resource and the
    field are found.  The user's bag holds the attribute rows only. *)
Definition field_context (db : database) (userId resourceId fieldId : string)
    (resource : resource) (field : resource_field) (action : string)
    (environment : gmap string string) : context :=
  let userAttrs := assign_rows (rows_of userId (user_attributes db)) ∅ in
  let resourceAttrs :=
    assign_rows (rows_of resourceId (resource_attributes db))
      (<["type" := r_type resource]> (<["name" := r_name resource]> ∅)) in
  let base := <["name" := f_field_name field]> ∅ in
  let base := match f_field_type field with
              | Some t => <["type" := t]> base
              | None => base
              end in
  let fieldAttrs := assign_rows (rows_of fieldId (field_attributes db)) base in
  {| ctx_user := userAttrs; ctx_resource := resourceAttrs; ctx_field := fieldAttrs;
     ctx_action := action; ctx_environment := environment |}.

(** [evaluateFieldAccess(userId, resourceId, fieldId, action, environment)];
    [rows] is what the query of [getFieldPolicies(resource.type)]
    returned. *)
Definition evaluateFieldAccess (db : database) (rows : list field_policy_row)
    (userId resourceId fieldId action : string) (environment : gmap string string)
    : field_access :=
  match find (fun r => String.eqb (r_id r) resourceId) (resources db) with
  | None => {| effect := DENY; policy_of := None; maskValue := None;
               reason_of := "Resource not found" |}
  | Some resource =>
      match find (fun f => String.eqb (f_id f) fieldId) (resource_fields db) with
      | None => {| effect := DENY; policy_of := None; maskValue := None;
                   reason_of := "Field not found" |}
      | Some field =>
          field_scan
            (field_context db userId resourceId fieldId resource field action environment)
            no_match (getFieldPolicies db rows)
      end
  end.

(** The exception of [Statement.bind] (sql.js, under the wrapper of
    [database.js]) on a parameter that is [undefined]. *)
Definition unbound_parameter : string :=
  "Wrong API use : tried to bind a value of an unknown type (undefined).".

(** [evaluateFieldAccess] as [filterSingleRow] calls it, with [field.id]
    for field id, which is [undefined] ([None]) when the value found in
    the field map has no [id].  The resource is looked up first; the query
    on [resource_fields] then binds the field id. *)
Definition evaluateFieldAccess_of (db : database) (rows : list field_policy_row)
    (userId resourceId : string) (fieldId : option string) (action : string)
    (environment : gmap string string) : outcome field_access :=
  match fieldId with
  | Some fieldId =>
      Returns (evaluateFieldAccess db rows userId resourceId fieldId action environment)
  | None =>
      match find (fun r => String.eqb (r_id r) resourceId) (resources db) with
      | None => Returns {| effect := DENY; policy_of := None; maskValue := None;
                           reason_of := "Resource not found" |}
      | Some _ => Throws unbound_parameter
      end
  end.

End Engine.
End CellPolicyEngine.

(** ** Masking *)

Module Mask.

Definition is_digit (c : ascii) : bool :=
  let n := nat_of_ascii c in (48 <=? n)%nat && (n <=? 57)%nat.

(** [s.replace(/[^0-9.-]/g, '')] *)
Fixpoint keep_numeric (s : string) : string :=
  match s with
  | EmptyString => EmptyString
  | String c s' =>
      if is_digit c || Ascii.eqb c "." || Ascii.eqb c "-"
      then String c (keep_numeric s') else keep_numeric s'
  end.

(** The leading digits of [s], and what follows them. *)
Fixpoint digits (s : string) : string * string :=
  match s with
  | String c s' =>
      if is_digit c then let '(d, rest) := digits s' in (String c d, rest)
      else (EmptyString, s)
  | EmptyString => (EmptyString, s)
  end.

(** What [parseFloat] reads of a string of digits, dots and minus signs:
    the longest prefix [-? digits* (. digits* )?] that has a digit; [None]
    when there is none (the result is [NaN]).  The number [parseFloat]
    returns is the one [Number] converts this prefix to. *)
Definition parseFloat_text (s : string) : option string :=
  let '(sign, s1) :=
    match s with
    | String "-" s' => ("-", s')
    | _ => ("", s)
    end in
  let '(int_part, s2) := digits s1 in
  let frac_part :=
    match s2 with
    | String "." s' => Some (digits s').1
    | _ => None
    end in
  if String.eqb int_part "" && String.eqb (default "" frac_part) "" then None
  else Some (sign ++ int_part ++ match frac_part with
                                 | Some f => "." ++ f
                                 | None => ""
                                 end).

Section Masking.

Context {rt : JsRuntime}.

(** [applyMask(value, fieldType, maskPattern)] *)
Definition applyMask (value : js_value) (fieldType maskPattern : option string) : js_value :=
  match value with
  | JNull => JNull
  | JUndefined => JUndefined
  | JString strValue =>
      if Js.truthy maskPattern then JString (default "" maskPattern)
      else
        let last4 (prefix constant : string) :=
          if Js.length strValue >=? 4
          then JString (prefix ++ Js.slice strValue (-4))
          else JString constant in
        match fieldType with
        | Some "ssn" => last4 "***-**-" "***-**-****"
        | Some "credit_card" => last4 "****-****-****-" "****-****-****-****"
        | Some "phone" => last4 "(***) ***-" "(***) ***-****"
        | Some "email" =>
            let atIndex := Js.indexOf strValue "@" in
            if atIndex >? 0 then JString ("****" ++ Js.slice strValue atIndex)
            else JString "****@****.***"
        | Some "salary" | Some "currency" =>
            match parseFloat_text (keep_numeric strValue) with
            | None => JString "$***,***"
            | Some num =>
                let range := if Number_lt num "50000" then "<50k"
                             else if Number_lt num "100000" then "50k-100k" else ">100k" in
                JString ("$***,*** (" ++ range ++ ")")
            end
        | _ =>
            if Js.length strValue <=? 2 then JString "***"
            else JString (default "" (Js.at_ strValue 0)
                          ++ Js.repeat "*" (Z.to_nat (Z.min (Js.length strValue - 2) 5))
                          ++ default "" (Js.at_ strValue (Js.length strValue - 1)))
        end
  end.

End Masking.
End Mask.

(** ** Row filtering *)

Module RowFilter.
Section Filter.

Context {rt : JsRuntime}.
Import CellPolicyEngine.

(** A property of the filtered object: a cell, or the access-control
    map stored under [_accessControl]. *)
Inductive property :=
  | Cell (v : js_value)
  | AccessControl (log : gmap string string).

(** The field map, a plain object: [fieldMap[field.field_name] = field]
    creates or replaces an own property, but for the name [__proto__],
    where the row of the field becomes the prototype of the map. *)
Record field_map := {
  fields_of : gmap string resource_field;
  prototype_of : option resource_field
}.

Definition no_fields : field_map := {| fields_of := ∅; prototype_of := None |}.

Definition add_field (fieldMap : field_map) (field : resource_field) : field_map :=
  if String.eqb (f_field_name field) "__proto__"
  then {| fields_of := fields_of fieldMap; prototype_of := Some field |}
  else {| fields_of := <[f_field_name field := field]> (fields_of fieldMap);
          prototype_of := prototype_of fieldMap |}.

(** The field map of [filterResourceData] and [getFilteredResourceData],
    over the rows [SELECT id, field_name, field_type FROM resource_fields
    WHERE resource_id = ?]. *)
Definition fieldMap_of (db : database) (resourceId : string) : field_map :=
  foldl add_field no_fields
        (filter (fun f => f_resource_id f = resourceId) (resource_fields db)).

(** What [fieldMap[fieldName]] is to [filterSingleRow]: falsy; a row of
    [resource_fields]; or another truthy value, which has neither [id] nor
    [field_type] (a member of [Object.prototype], or a string). *)
Inductive member :=
  | Falsy
  | Field (field : resource_field)
  | Foreign.

Definition string_member (s : option string) : member :=
  if Js.truthy s then Foreign else Falsy.

(** Own properties first, then the prototype chain: the row that was
    assigned to [__proto__], if any, with its three columns, then
    [Object.prototype]. *)
Definition lookup_field (fieldMap : field_map) (fieldName : string) : member :=
  match fields_of fieldMap !! fieldName with
  | Some field => Field field
  | None =>
      match prototype_of fieldMap with
      | Some row =>
          if String.eqb fieldName "__proto__" then Field row
          else if String.eqb fieldName "id" then string_member (Some (f_id row))
          else if String.eqb fieldName "field_name" then
            string_member (Some (f_field_name row))
          else if String.eqb fieldName "field_type" then string_member (f_field_type row)
          else string_member (Js.inherited fieldName)
      | None => string_member (Js.inherited fieldName)
      end
  end.

(** [field.id] and [field.field_type]; [None] is [undefined] (or a
    [NULL] type). *)
Definition member_id (m : member) : option string :=
  match m with
  | Field field => Some (f_id field)
  | _ => None
  end.

Definition member_type (m : member) : option string :=
  match m with
  | Field field => f_field_type field
  | _ => None
  end.

(** One turn of the loop of [filterSingleRow] on the entry
    [(fieldName, value)]; the state is [(filtered, accessLog)]. *)
Definition filter_entry (db : database) (rows : list field_policy_row)
    (userId resourceId action : string) (environment : gmap string string)
    (fieldMap : field_map)
    (st : gmap string property * gmap string string) (entry : string * js_value)
    : outcome (gmap string property * gmap string string) :=
  let '(filtered, accessLog) := st in
  let '(fieldName, value) := entry in
  match lookup_field fieldMap fieldName with
  | Falsy => Returns (Js.assign fieldName (Cell value) filtered, accessLog)
  | field =>
      access <- evaluateFieldAccess_of db rows userId resourceId (member_id field)
                  action environment ;;
      let accessLog := Js.assign fieldName (effect access) accessLog in
      if String.eqb (effect access) ALLOW then
        Returns (Js.assign fieldName (Cell value) filtered, accessLog)
      else if String.eqb (effect access) MASK then
        Returns (Js.assign fieldName
                   (Cell (Mask.applyMask value (member_type field) (maskValue access)))
                   filtered, accessLog)
      else if String.eqb (effect access) REDACT then
        Returns (Js.assign fieldName
                   (Cell (JString (if Js.truthy (maskValue access)
                                   then default "" (maskValue access)
                                   else "***REDACTED***"))) filtered, accessLog)
      else Returns (filtered, accessLog)
  end.

(** [filterSingleRow(userId, resourceId, row, fieldMap, action,
    environment)]; [row] is [Object.entries(row)] and [rows] what the
    field-policy query returns for this resource.  The access-control
    map is stored last, under [_accessControl]. *)
Definition filterSingleRow (db : database) (rows : list field_policy_row)
    (userId resourceId : string) (row : list (string * js_value))
    (fieldMap : field_map) (action : string)
    (environment : gmap string string) : outcome (gmap string property) :=
  st <- for_each (filter_entry db rows userId resourceId action environment fieldMap)
          (∅, ∅) row ;;
  Returns (<["_accessControl" := AccessControl st.2]> st.1).

End Filter.
End RowFilter.

(** ** The policy queries *)

(** What an [ORDER BY] query guarantees about the rows it returns: they
    are the selected rows, each once, and consecutive rows respect the
    ordering terms.  The order of rows that are equal on every term is
    left to the database engine. *)
Module Query.

Fixpoint ordered {A : Type} (before : A -> A -> bool) (l : list A) : bool :=
  match l with
  | x :: (y :: _) as l' => before x y && ordered before l'
  | _ => true
  end.

(** [ORDER BY priority DESC, created_at ASC] *)
Definition priority_desc_created_asc (p q : policy) : bool :=
  (p_priority q <? p_priority p)
  || ((p_priority p =? p_priority q) && String.leb (p_created_at p) (p_created_at q)).

(** [ORDER BY priority DESC] *)
Definition priority_desc (p q : policy) : bool := p_priority q <=? p_priority p.

Definition fp_priority_desc (p q : field_policy_row) : bool :=
  fp_priority q <=? fp_priority p.

Definition active_policies (db : database) : list policy :=
  filter (fun p => p_is_active p = 1) (policies db).

(** The query of [evaluate]. *)
Definition evaluate_rows (db : database) (rows : list policy) : Prop :=
  rows ≡ₚ active_policies db ∧ ordered priority_desc_created_asc rows = true.

(** The query of [checkAccess]. *)
Definition checkAccess_rows (db : database) (rows : list policy) : Prop :=
  rows ≡ₚ active_policies db ∧ ordered priority_desc rows = true.

(** The query of [getFieldPolicies(resourceType)]. *)
Definition getFieldPolicies_rows (db : database) (resourceType : option string)
    (rows : list field_policy_row) : Prop :=
  rows ≡ₚ CellPolicyEngine.field_policy_candidates db resourceType
  ∧ ordered fp_priority_desc rows = true.

End Query.

(** ** The rest of the cell/field-level engine *)

(** [resource_data]: one cell; [cell_value] may be NULL.  The table is
    passed beside the [database] record to the functions that read or
    write it. *)
Record resource_datum := {
  d_resource_id : string;
  d_field_id : string;
  d_row_id : string;
  d_cell_value : option string
}.

Module ResourceData.
Section Functions.

Context {rt : JsRuntime}.
Import CellPolicyEngine RowFilter.

(** [getFieldAttributes(fieldId)] *)
Definition getFieldAttributes (db : database) (fieldId : string) : gmap string string :=
  assign_rows (rows_of fieldId (field_attributes db)) ∅.

(** The [data] argument of [filterResourceData]: an array of rows or one
    row, each row by its entries. *)
Inductive data :=
  | Rows (l : list (list (string * js_value)))
  | Row (r : list (string * js_value)).

Inductive filtered_data :=
  | FilteredRows (l : list (gmap string property))
  | FilteredRow (r : gmap string property).

(** The loop [filteredRows.push(await filterSingleRow(...))] over rows. *)
Definition filter_rows (db : database) (rows : list field_policy_row)
    (userId resourceId : string) (fieldMap : field_map) (action : string)
    (environment : gmap string string) (l : list (list (string * js_value)))
    : outcome (list (gmap string property)) :=
  for_each (fun filteredRows row =>
              filteredRow <- filterSingleRow db rows userId resourceId row fieldMap
                               action environment ;;
              Returns (filteredRows ++ [filteredRow])%list)
           [] l.

(** [filterResourceData(userId, resourceId, data, action, environment)] *)
Definition filterResourceData (db : database) (rows : list field_policy_row)
    (userId resourceId : string) (d : data) (action : string)
    (environment : gmap string string) : outcome filtered_data :=
  let fieldMap := fieldMap_of db resourceId in
  match d with
  | Rows l =>
      filteredRows <- filter_rows db rows userId resourceId fieldMap action environment l ;;
      Returns (FilteredRows filteredRows)
  | Row r =>
      filtered <- filterSingleRow db rows userId resourceId r fieldMap action environment ;;
      Returns (FilteredRow filtered)
  end.

(** [cell ? cell.cell_value : null] for the cell of a field in a row. *)
Definition cell_of (cells : list resource_datum) (resourceId fieldId row_id : string)
    : js_value :=
  match find (fun d => String.eqb (d_resource_id d) resourceId
                       && String.eqb (d_field_id d) fieldId
                       && String.eqb (d_row_id d) row_id) cells with
  | Some d => match d_cell_value d with
              | Some s => JString s
              | None => JNull
              end
  | None => JNull
  end.

(** The row object [getFilteredResourceData] builds: [_row_id], then
    [row[field.field_name] = ...] for each field. *)
Definition build_row (cells : list resource_datum) (resourceId : string)
    (fields : list resource_field) (row_id : string) : gmap string js_value :=
  foldl (fun row field =>
           Js.assign (f_field_name field) (cell_of cells resourceId (f_id field) row_id) row)
        {["_row_id" := JString row_id]} fields.

(** The value [getFilteredResourceData] returns; [totalRows] and
    [message] are each absent from one of the two results. *)
Record filtered_resource := {
  fr_rows : list (gmap string property);
  fr_fields : list (string * option string);
  fr_totalRows : option nat;
  fr_message : option string
}.

(** [getFilteredResourceData(userId, resourceId, action, environment)].
    [rowIds] is what [SELECT DISTINCT row_id FROM resource_data
    WHERE resource_id = ? ORDER BY row_id] returned.  A built row is an
    object, hence a map; its entries are taken in the order of the map,
    and [filterSingleRow] does not depend on the order of entries with
    distinct keys. *)
Definition getFilteredResourceData (db : database) (cells : list resource_datum)
    (rows : list field_policy_row) (rowIds : list string)
    (userId resourceId action : string) (environment : gmap string string)
    : outcome filtered_resource :=
  let fields := filter (fun f => f_resource_id f = resourceId) (resource_fields db) in
  if (Z.of_nat (List.length fields) =? 0) then
    Returns {| fr_rows := []; fr_fields := []; fr_totalRows := None;
               fr_message := Some "No fields defined for this resource" |}
  else
    let built := map (build_row cells resourceId fields) rowIds in
    let fieldMap := foldl add_field no_fields fields in
    filteredRows <- filter_rows db rows userId resourceId fieldMap action environment
                      (map map_to_list built) ;;
    Returns {| fr_rows := filteredRows;
               fr_fields := map (fun f => (f_field_name f, f_field_type f)) fields;
               fr_totalRows := Some (List.length built);
               fr_message := None |}.

End Functions.
End ResourceData.

(** ** The routes that change what the field engine reads ([routes/cells.js]) *)

Module CellRoutes.

(** [String(value)] *)
Definition js_String (v : js_value) : string :=
  match v with
  | JNull => "null"
  | JUndefined => "undefined"
  | JString s => s
  end.

Definition with_field_attributes (db : database) (rows : list attribute) : database :=
  {| users := users db; user_attributes := user_attributes db;
     resources := resources db; resource_attributes := resource_attributes db;
     environment_attributes := environment_attributes db;
     policies := policies db; policy_conditions := policy_conditions db;
     access_audit_log := access_audit_log db;
     resource_fields := resource_fields db; field_attributes := rows;
     field_policies := field_policies db;
     field_policy_conditions := field_policy_conditions db |}.

Definition with_field_policies (db : database) (rows : list field_policy_row) : database :=
  {| users := users db; user_attributes := user_attributes db;
     resources := resources db; resource_attributes := resource_attributes db;
     environment_attributes := environment_attributes db;
     policies := policies db; policy_conditions := policy_conditions db;
     access_audit_log := access_audit_log db;
     resource_fields := resource_fields db; field_attributes := field_attributes db;
     field_policies := rows;
     field_policy_conditions := field_policy_conditions db |}.

Definition with_fields (db : database) (fields : list resource_field)
    (attributes : list attribute) : database :=
  {| users := users db; user_attributes := user_attributes db;
     resources := resources db; resource_attributes := resource_attributes db;
     environment_attributes := environment_attributes db;
     policies := policies db; policy_conditions := policy_conditions db;
     access_audit_log := access_audit_log db;
     resource_fields := fields; field_attributes := attributes;
     field_policies := field_policies db;
     field_policy_conditions := field_policy_conditions db |}.

(** [PUT /fields/:fieldId/attributes/:attrName]:
    [INSERT OR REPLACE INTO field_attributes (field_id, attribute_name,
    attribute_value) VALUES (?, ?, String(value))].  Under the uniqueness
    of [(field_id, attribute_name)] the row in conflict is deleted and the
    new row is added.  The connections the routes open do not switch
    foreign keys on (the pragma is run by [initializeDatabase] on its own
    connection), so the field is not looked up. *)
Definition put_field_attribute (db : database) (fieldId attrName : string)
    (value : js_value) : database :=
  with_field_attributes db
    (filter (fun a => ¬ (a_owner a = fieldId ∧ a_name a = attrName)) (field_attributes db)
     ++ [ {| a_owner := fieldId; a_name := attrName; a_value := js_String value |} ])%list.

Definition set_is_active (p : field_policy_row) (status : Z) : field_policy_row :=
  {| fp_id := fp_id p; fp_name := fp_name p; fp_resource_type := fp_resource_type p;
     fp_field_pattern := fp_field_pattern p; fp_effect := fp_effect p;
     fp_mask_value := fp_mask_value p; fp_priority := fp_priority p;
     fp_is_active := status; fp_created_at := fp_created_at p |}.

(** [PATCH /policies/:policyId/toggle]: [None] is the answer 404;
    [newStatus = policy.is_active ? 0 : 1]. *)
Definition toggle_field_policy (db : database) (policyId : string) : option database :=
  match find (fun p => String.eqb (fp_id p) policyId) (field_policies db) with
  | None => None
  | Some policy =>
      let newStatus := if fp_is_active policy =? 0 then 1 else 0 in
      Some (with_field_policies db
              (map (fun p => if String.eqb (fp_id p) policyId
                             then set_is_active p newStatus else p)
                   (field_policies db)))
  end.

(** [DELETE /fields/:fieldId]: the attributes, the cells and the
    definition of the field are deleted; the flag is
    [result.changes !== 0] (otherwise the answer is 404, the deletions
    stay). *)
Definition delete_field (db : database) (cells : list resource_datum) (fieldId : string)
    : database * list resource_datum * bool :=
  (with_fields db
     (filter (fun f => f_id f ≠ fieldId) (resource_fields db))
     (filter (fun a => a_owner a ≠ fieldId) (field_attributes db)),
   filter (fun d => d_field_id d ≠ fieldId) cells,
   bool_decide (Exists (fun f => f_id f = fieldId) (resource_fields db))).

End CellRoutes.

(** ** The search service ([search-service.js]) *)

Module SearchService.
Section Service.

Context {rt : JsRuntime}.
Import CellPolicyEngine.

(** A search hit: its properties that are strings or [null], by entries
    ([Object.entries(doc)]), and the object under [field_security], if
    any. *)
Record document := {
  doc_entries : list (string * js_value);
  doc_field_security : option (gmap string string)
}.

Definition doc_get (doc : document) (key : string) : option string :=
  match find (fun e => String.eqb e.1 key) (doc_entries doc) with
  | Some (_, JString s) => Some s
  | _ => None
  end.

(** [doc.field_security?.[key] || fallback] *)
Definition security_or (doc : document) (key fallback : string) : string :=
  match doc_field_security doc with
  | Some security =>
      if Js.truthy (security !! key) then default "" (security !! key) else fallback
  | None => fallback
  end.

(** [getFieldSensitivity(doc)] *)
Definition getFieldSensitivity (doc : document) : gmap string string :=
  <["title" := "low"]> (<["content" := "low"]> (<["summary" := "low"]>
  (<["author" := "low"]> (<["department" := "low"]> (<["tags" := "low"]>
  (<["type" := "low"]> (<["classification" := "low"]>
  (<["confidential_notes" := security_or doc "confidential_notes" "high"]>
  (<["internal_comments" := security_or doc "internal_comments" "medium"]>
  (<["financial_data" := security_or doc "financial_data" "high"]>
  (<["pii_data" := security_or doc "pii_data" "high"]> ∅))))))))))).

(** The condition callback of the service's own [evaluatePolicyConditions]:
    the operator [matches] is not among its cases. *)
Definition evaluateCondition (c : field_condition) (ctx : context) : bool :=
  match actualValue c ctx with
  | None => false
  | Some None => false
  | Some (Some a) =>
      let expectedValue := fc_value c in
      if String.eqb (fc_operator c) "equals" then
        String.eqb (Js.toLowerCase a) (Js.toLowerCase expectedValue)
      else if String.eqb (fc_operator c) "not_equals" then
        negb (String.eqb (Js.toLowerCase a) (Js.toLowerCase expectedValue))
      else if String.eqb (fc_operator c) "contains" then
        Js.includes (Js.toLowerCase a) (Js.toLowerCase expectedValue)
      else if String.eqb (fc_operator c) "in" then
        let allowedValues :=
          map (fun v => Js.toLowerCase (Js.trim v)) (Js.split "," expectedValue) in
        bool_decide (Js.toLowerCase a ∈ allowedValues)
      else if String.eqb (fc_operator c) "greater_than" then Number_lt expectedValue a
      else if String.eqb (fc_operator c) "less_than" then Number_lt a expectedValue
      else false
  end.

(** [evaluatePolicyConditions(policy, context)] of the service; the
    pattern is tested on [context.field.name]. *)
Definition evaluatePolicyConditions (policy : field_policy) (ctx : context) : bool :=
  if (Z.of_nat (List.length (conditions policy)) =? 0) then true
  else
    let pattern_ok :=
      if Js.truthy (fp_field_pattern (row policy)) then
        try_catch (regex_test (default "" (fp_field_pattern (row policy)))
                     (default "undefined" (ctx_field ctx !! "name")))
                  false
      else true in
    if pattern_ok then forallb (fun c => evaluateCondition c ctx) (conditions policy)
    else false.

(** The policy loop of [filterDocumentFields]; the state is
    [(effect, maskValue)]. *)
Fixpoint document_scan (ctx : context) (state : string * option string)
    (policies : list field_policy) : string * option string :=
  match policies with
  | [] => state
  | policy :: rest =>
      if evaluatePolicyConditions policy ctx then
        if String.eqb (fp_effect (row policy)) DENY then (DENY, state.2)
        else if String.eqb (fp_effect (row policy)) REDACT then
          (REDACT, Some (if Js.truthy (fp_mask_value (row policy))
                         then default "" (fp_mask_value (row policy))
                         else "***REDACTED***"))
        else
          let state :=
            if String.eqb (fp_effect (row policy)) MASK
            then (MASK, fp_mask_value (row policy)) else state in
          let state :=
            if String.eqb (fp_effect (row policy)) ALLOW && negb (String.eqb state.1 MASK)
            then (ALLOW, state.2) else state in
          document_scan ctx state rest
      else document_scan ctx state rest
  end.

(** [applyMaskToText(text, customMask)] *)
Definition applyMaskToText (text : js_value) (customMask : option string) : js_value :=
  match text with
  | JNull => JNull
  | JUndefined => JUndefined
  | JString str =>
      if String.eqb str "" then text
      else if Js.truthy customMask then JString (default "" customMask)
      else if Js.length str <=? 20 then JString (Js.repeat "*" (String.length str))
      else JString (String.substring 0 20 str ++ "... [MASKED - "
                    ++ pretty (String.length str - 20)%nat ++ " chars hidden]")
  end.

(** The context [filterDocumentFields] builds for one key of the
    document. *)
Definition document_context (userAttrs : gmap string string) (doc : document)
    (fieldName action : string) : context :=
  let sensitivity :=
    if Js.truthy (Js.get (getFieldSensitivity doc) fieldName)
    then default "" (Js.get (getFieldSensitivity doc) fieldName) else "low" in
  let resource :=
    <["type" := if Js.truthy (doc_get doc "type")
                then default "" (doc_get doc "type") else "document"]> ∅ in
  let resource := match doc_get doc "department" with
                  | Some d => <["department" := d]> resource
                  | None => resource
                  end in
  let resource := match doc_get doc "classification" with
                  | Some c => <["classification" := c]> resource
                  | None => resource
                  end in
  {| ctx_user := userAttrs;
     ctx_resource := resource;
     ctx_field := <["name" := fieldName]> (<["sensitivity" := sensitivity]>
                  (<["pii" := if String.eqb fieldName "pii_data" then "true" else "false"]> ∅));
     ctx_action := action;
     ctx_environment := ∅ |}.

Definition metadata : list string := ["_index"; "_id"; "_score"; "field_security"].

(** One turn of the loop of [filterDocumentFields] over the entries of
    the document; the state is [(filtered, accessControl)]. *)
Definition filter_document_entry (userAttrs : gmap string string)
    (policies : list field_policy) (doc : document) (action : string)
    (st : gmap string RowFilter.property * gmap string string)
    (entry : string * js_value) : gmap string RowFilter.property * gmap string string :=
  let '(filtered, accessControl) := st in
  let '(fieldName, value) := entry in
  if bool_decide (fieldName ∈ metadata) then st
  else
    let ctx := document_context userAttrs doc fieldName action in
    let '(effect, maskValue) := document_scan ctx (DENY, None) policies in
    if String.eqb effect ALLOW then
      (Js.assign fieldName (RowFilter.Cell value) filtered,
       Js.assign fieldName "allow" accessControl)
    else if String.eqb effect MASK then
      (Js.assign fieldName (RowFilter.Cell (applyMaskToText value maskValue)) filtered,
       Js.assign fieldName "mask" accessControl)
    else if String.eqb effect REDACT then
      (Js.assign fieldName
         (RowFilter.Cell (JString (if Js.truthy maskValue then default "" maskValue
                                   else "***REDACTED***"))) filtered,
       Js.assign fieldName "redact" accessControl)
    else (filtered, Js.assign fieldName "deny" accessControl).


End Service.
End SearchService.

(** ** Vocabulary of the statements *)

Module Spec.
Section Vocabulary.

Import PolicyEngine CellPolicyEngine.
Context {rt : JsRuntime}.

(** The scan both entry points perform, reduced to its verdict: the deny
    policy that ended it ([inl]), or the allow policy recorded when the
    rows are exhausted, if any ([inr]). *)
Fixpoint verdict (db : database) (userAttrs resourceAttrs envAttrs : gmap string string)
    (action : string) (allowingPolicy : option policy) (rows : list policy)
    : outcome (policy + option policy) :=
  match rows with
  | [] => Returns (inr allowingPolicy)
  | policy :: rest =>
      m <- matches db userAttrs resourceAttrs envAttrs action policy ;;
      if m then
        if String.eqb (p_effect policy) "deny" then Returns (inl policy)
        else match allowingPolicy with
             | None => verdict db userAttrs resourceAttrs envAttrs action (Some policy) rest
             | Some _ => verdict db userAttrs resourceAttrs envAttrs action allowingPolicy rest
             end
      else verdict db userAttrs resourceAttrs envAttrs action allowingPolicy rest
  end.

(** What [evaluate] answers (and logs) on a verdict. *)
Definition decision_of (db : database) (userId resourceId action : string)
    (r : policy + option policy) : database * decision :=
  match r with
  | inl p => logAndReturn db userId resourceId action false (Some (p_id p))
               ("Denied by policy: " ++ p_name p)
  | inr (Some p) => logAndReturn db userId resourceId action true (Some (p_id p))
                      ("Allowed by policy: " ++ p_name p)
  | inr None => logAndReturn db userId resourceId action false None
                  "No applicable policy found - default deny"
  end.

(** What [checkAccess] answers on a verdict. *)
Definition access_of (r : policy + option policy) : access :=
  match r with
  | inl p => {| access_allowed := false;
                access_reason := "Denied by policy: " ++ p_name p;
                access_policy := Some p |}
  | inr (Some p) => {| access_allowed := true;
                       access_reason := "Allowed by policy: " ++ p_name p;
                       access_policy := Some p |}
  | inr None => {| access_allowed := false;
                   access_reason := "No applicable policy - default deny";
                   access_policy := None |}
  end.

(** Two results say the same: same flag and same cited policy, or the
    same exception. *)
Definition agree (d : outcome decision) (a : outcome access) : Prop :=
  match d, a with
  | Returns d, Returns a =>
      allowed d = access_allowed a ∧ policyId d = p_id <$> access_policy a
  | Throws e, Throws e' => e = e'
  | _, _ => False
  end.

(** A matching policy that ends the loop. *)
Definition terminal (ctx : context) (p : field_policy) : Prop :=
  evaluatePolicyConditions p ctx = true
  ∧ (fp_effect (row p) = DENY ∨ fp_effect (row p) = REDACT).

(** A matching policy of the given effect. *)
Definition matching (ctx : context) (e : string) (p : field_policy) : Prop :=
  evaluatePolicyConditions p ctx = true ∧ fp_effect (row p) = e.

#[export] Instance matching_dec ctx e p : Decision (matching ctx e p).
Proof. unfold matching. apply _. Defined.

End Vocabulary.
End Spec.

(** ** A runtime for the examples *)

(** The examples below need one runtime to run on.  This one agrees with
    ECMAScript where the examples use it: a pattern made of letters and
    digits only is searched as a substring, ignoring case; the pattern
    ["("] is an unterminated group, which the [RegExp] constructor rejects
    with [SyntaxError]; and two strings of decimal digits compare as the
    numbers they denote.  Anything else is outside its fragment (rejected
    pattern, [NaN]). *)
Module Sample.

Definition is_alnum (c : ascii) : bool :=
  let n := nat_of_ascii c in
  Mask.is_digit c || Js.is_upper c || ((97 <=? n)%nat && (n <=? 122)%nat).

Fixpoint all_chars (f : ascii -> bool) (s : string) : bool :=
  match s with
  | EmptyString => true
  | String c s' => f c && all_chars f s'
  end.

Fixpoint number (acc : Z) (s : string) : Z :=
  match s with
  | EmptyString => acc
  | String c s' => number (10 * acc + Z.of_nat (nat_of_ascii c - 48)) s'
  end.

Definition decimal (s : string) : option Z :=
  if all_chars Mask.is_digit s && negb (String.eqb s "")
  then Some (number 0 s) else None.

Definition runtime : JsRuntime := {|
  RegExp_i p :=
    if all_chars is_alnum p
    then Some (fun s => Js.includes (Js.toLowerCase s) (Js.toLowerCase p))
    else None;
  Number_lt a b :=
    match decimal a, decimal b with
    | Some x, Some y => x <? y
    | _, _ => false
    end
|}.

End Sample.

(** ** Example data *)

Module Data.

Definition alice : user :=
  {| u_id := "u1"; u_username := "alice"; u_email := Some "alice@example.com" |}.

Definition report : resource :=
  {| r_id := "r1"; r_name := "report"; r_type := "document" |}.

Definition clock : gmap string string :=
  <["current_time" := "2024-01-01T10:00:00.000Z"]>
    (<["current_hour" := "10"]> (<["current_day" := "monday"]> ∅)).

(** Scenario B of the specification: an allow of priority 10 and a deny
    of priority 50 that both match. *)
Definition P1 : policy :=
  {| p_id := "P1"; p_name := "Readers"; p_effect := "allow"; p_priority := 10;
     p_is_active := 1; p_created_at := "2024-01-01 09:00:00" |}.
Definition P2 : policy :=
  {| p_id := "P2"; p_name := "Restricted"; p_effect := "deny"; p_priority := 50;
     p_is_active := 1; p_created_at := "2024-01-01 09:00:01" |}.
(** A policy whose only condition carries a pattern that is not a
    regular expression. *)
Definition PX : policy :=
  {| p_id := "PX"; p_name := "Broken pattern"; p_effect := "allow"; p_priority := 100;
     p_is_active := 1; p_created_at := "2024-01-01 09:00:02" |}.

Definition conditions_B : list condition :=
  [ {| c_policy_id := "P1"; c_subject_type := "user"; c_attribute_name := "department";
       c_operator := "equals"; c_attribute_value := "Engineering" |};
    {| c_policy_id := "P2"; c_subject_type := "resource";
       c_attribute_name := "classification"; c_operator := "equals";
       c_attribute_value := "restricted" |};
    {| c_policy_id := "P2"; c_subject_type := "user"; c_attribute_name := "clearance";
       c_operator := "less_than"; c_attribute_value := "4" |};
    {| c_policy_id := "PX"; c_subject_type := "action"; c_attribute_name := "";
       c_operator := "matches"; c_attribute_value := "(" |} ].

Definition store (ps : list policy) (cs : list condition) : database :=
  {| users := [alice];
     user_attributes :=
       [ {| a_owner := "u1"; a_name := "department"; a_value := "engineering" |};
         {| a_owner := "u1"; a_name := "clearance"; a_value := "3" |} ];
     resources := [report];
     resource_attributes :=
       [ {| a_owner := "r1"; a_name := "classification"; a_value := "restricted" |} ];
     environment_attributes := [];
     policies := ps;
     policy_conditions := cs;
     access_audit_log := [];
     resource_fields := [];
     field_attributes := [];
     field_policies := [];
     field_policy_conditions := [] |}.

(** Scenario B alone, and with the broken policy on top. *)
Definition db_B : database := store [P2; P1] conditions_B.
Definition db_X : database := store [PX; P2; P1] conditions_B.

(** Two allow policies of equal priority that both match; [T2] is
    stored first, [T1] was created first. *)
Definition T1 : policy :=
  {| p_id := "T1"; p_name := "First"; p_effect := "allow"; p_priority := 10;
     p_is_active := 1; p_created_at := "2024-01-01 09:00:00" |}.
Definition T2 : policy :=
  {| p_id := "T2"; p_name := "Second"; p_effect := "allow"; p_priority := 10;
     p_is_active := 1; p_created_at := "2024-01-01 09:00:05" |}.

Definition conditions_T : list condition :=
  [ {| c_policy_id := "T1"; c_subject_type := "action"; c_attribute_name := "";
       c_operator := "equals"; c_attribute_value := "read" |};
    {| c_policy_id := "T2"; c_subject_type := "action"; c_attribute_name := "";
       c_operator := "equals"; c_attribute_value := "read" |} ].

Definition db_T : database := store [T2; T1] conditions_T.

(** No policy at all, and one policy that does not match. *)
Definition db_0 : database := store [] [].

Definition N1 : policy :=
  {| p_id := "N1"; p_name := "Finance only"; p_effect := "allow"; p_priority := 10;
     p_is_active := 1; p_created_at := "2024-01-01 09:00:00" |}.

Definition db_N : database :=
  store [N1]
    [ {| c_policy_id := "N1"; c_subject_type := "user"; c_attribute_name := "department";
         c_operator := "equals"; c_attribute_value := "finance" |} ].

(** A store whose environment table fixes the hour. *)
Definition db_E : database :=
  {| users := [alice]; user_attributes := []; resources := [report];
     resource_attributes := [];
     environment_attributes := [("current_hour", "23")];
     policies := []; policy_conditions := []; access_audit_log := [];
     resource_fields := []; field_attributes := []; field_policies := [];
     field_policy_conditions := [] |}.

(** The attribute bags of the request of the examples: [alice] reads the
    [report]. *)
Definition alice_attrs : gmap string string :=
  default ∅ (PolicyEngine.getUserAttributes (store [] []) "u1").
Definition report_attrs : gmap string string :=
  default ∅ (PolicyEngine.getResourceAttributes (store [] []) "r1").

End Data.

(** ** Example data for the field-level engine *)

Module CellData.

Definition employees : resource :=
  {| r_id := "r2"; r_name := "employees"; r_type := "employee_records" |}.

Definition ssn_field : resource_field :=
  {| f_id := "f1"; f_resource_id := "r2"; f_field_name := "ssn"; f_field_type := Some "ssn" |}.

Definition mask_row (id : string) (priority : Z) (mask_value : option string)
    : field_policy_row :=
  {| fp_id := id; fp_name := id; fp_resource_type := None; fp_field_pattern := Some "ssn";
     fp_effect := "mask"; fp_mask_value := mask_value; fp_priority := priority;
     fp_is_active := 1; fp_created_at := "2024-01-01 09:00:00" |}.

(** Scenario C of the specification. *)
Definition M : field_policy_row := mask_row "M" 25 None.
(** Two mask policies of different priorities, two of equal priority. *)
Definition M1 : field_policy_row := mask_row "M1" 30 (Some "AAA").
Definition M2 : field_policy_row := mask_row "M2" 20 (Some "BBB").
Definition E1 : field_policy_row := mask_row "E1" 25 (Some "AAA").
Definition E2 : field_policy_row := mask_row "E2" 25 (Some "BBB").
(** An allow policy below them. *)
Definition A : field_policy_row :=
  {| fp_id := "A"; fp_name := "A"; fp_resource_type := None; fp_field_pattern := None;
     fp_effect := "allow"; fp_mask_value := None; fp_priority := 10;
     fp_is_active := 1; fp_created_at := "2024-01-01 09:00:00" |}.

Definition not_hr (id : string) : field_policy_condition :=
  {| fpc_policy_id := id;
     fpc_condition := {| fc_subject_type := "user"; fc_attribute_name := "department";
                         fc_operator := "not_equals"; fc_value := "hr" |} |}.

(** Scenario D: a redact policy for clearances below 3, and [bob], whose
    clearance is 2. *)
Definition R : field_policy_row :=
  {| fp_id := "R"; fp_name := "R"; fp_resource_type := None; fp_field_pattern := None;
     fp_effect := "redact"; fp_mask_value := Some "***CONFIDENTIAL***"; fp_priority := 30;
     fp_is_active := 1; fp_created_at := "2024-01-01 09:00:00" |}.

Definition low_clearance (id : string) : field_policy_condition :=
  {| fpc_policy_id := id;
     fpc_condition := {| fc_subject_type := "user"; fc_attribute_name := "clearance";
                         fc_operator := "less_than"; fc_value := "3" |} |}.

Definition bob : user :=
  {| u_id := "u2"; u_username := "bob"; u_email := None |}.

Definition store_with (fps : list field_policy_row) (fpcs : list field_policy_condition)
    : database :=
  {| users := [Data.alice; bob];
     user_attributes :=
       [ {| a_owner := "u1"; a_name := "department"; a_value := "engineering" |};
         {| a_owner := "u1"; a_name := "clearance"; a_value := "3" |};
         {| a_owner := "u2"; a_name := "department"; a_value := "engineering" |};
         {| a_owner := "u2"; a_name := "clearance"; a_value := "2" |} ];
     resources := [employees];
     resource_attributes := [];
     environment_attributes := [];
     policies := [];
     policy_conditions := [];
     access_audit_log := [];
     resource_fields := [ssn_field];
     field_attributes :=
       [ {| a_owner := "f1"; a_name := "sensitivity"; a_value := "high" |} ];
     field_policies := fps;
     field_policy_conditions := fpcs |}.

(** Every policy under the condition [user.department != hr]. *)
Definition store (fps : list field_policy_row) : database :=
  store_with fps (map (fun p => not_hr (fp_id p)) fps).

(** The request of the examples: [alice] reads the [ssn] field of
    [employees]. *)
Definition ssn_context (db : database) : CellPolicyEngine.context :=
  CellPolicyEngine.field_context db "u1" "r2" "f1" employees ssn_field "read" ∅.

End CellData.

(** * The scenarios of the specification *)

Section Scenarios.

Import Data CellData.

(** Scenario B: the allow policy [P1] and the deny policy [P2] both match;
    the result is Denied and cites [P2]. *)
Example scenario_B :
  @PolicyEngine.checkAccess Sample.runtime db_B clock [P2; P1] "u1" "r1" "read"
  = Returns {| PolicyEngine.access_allowed := false;
               PolicyEngine.access_reason := "Denied by policy: Restricted";
               PolicyEngine.access_policy := Some P2 |}
  ∧ (@PolicyEngine.evaluate Sample.runtime db_B clock [P2; P1] "u1" "r1" "read").2
    = Returns {| PolicyEngine.allowed := false;
                 PolicyEngine.reason := "Denied by policy: Restricted";
                 PolicyEngine.policyId := Some "P2" |}
  ∧ access_audit_log
      (@PolicyEngine.evaluate Sample.runtime db_B clock [P2; P1] "u1" "r1" "read").1
    = [ {| l_user_id := "u1"; l_resource_id := "r1"; l_action := "read";
           l_decision := "deny"; l_policy_id := Some "P2";
           l_reason := "Denied by policy: Restricted" |} ].
Proof. repeat split; vm_compute; reflexivity. Qed.

(** Scenario C: the mask policy [M] applies to the field [ssn], and the
    row filter turns ["123-45-6789"] into ["***-**-6789"]. *)
Example scenario_C :
  let db := store [M] in
  CellPolicyEngine.effect
    (@CellPolicyEngine.evaluateFieldAccess Sample.runtime db [M] "u1" "r2" "f1" "read" ∅)
  = "mask"
  ∧ ∃ filtered,
      @RowFilter.filterSingleRow Sample.runtime db [M] "u1" "r2"
        [("ssn", JString "123-45-6789")] (RowFilter.fieldMap_of db "r2") "read" ∅
      = Returns filtered
      ∧ filtered !! "ssn" = Some (RowFilter.Cell (JString "***-**-6789")).
Proof.
  split; [vm_compute; reflexivity|].
  eexists. split; [vm_compute; reflexivity|]. vm_compute. reflexivity.
Qed.

(** Scenario D: for [bob] the redact policy [R] of priority 30 is scanned
    before [M] and ends the scan; the value becomes the text of [R]. *)
Example scenario_D :
  let db := store_with [R; M] [low_clearance "R"; not_hr "M"] in
  Query.getFieldPolicies_rows db (Some "employee_records") [R; M]
  ∧ CellPolicyEngine.effect
      (@CellPolicyEngine.evaluateFieldAccess Sample.runtime db [R; M] "u2" "r2" "f1" "read" ∅)
    = "redact"
  ∧ ∃ filtered,
      @RowFilter.filterSingleRow Sample.runtime db [R; M] "u2" "r2"
        [("ssn", JString "123-45-6789")] (RowFilter.fieldMap_of db "r2") "read" ∅
      = Returns filtered
      ∧ filtered !! "ssn" = Some (RowFilter.Cell (JString "***CONFIDENTIAL***")).
Proof.
  split; [split; vm_compute; reflexivity|]. split; [vm_compute; reflexivity|].
  eexists. split; [vm_compute; reflexivity|]. vm_compute. reflexivity.
Qed.

End Scenarios.

(** * Properties of the resource-level engine *)

Module PolicyEngineFacts.
Import PolicyEngine Spec.

Section Facts.

Context {rt : JsRuntime}.
Variables (db : database) (userAttrs resourceAttrs envAttrs : gmap string string)
          (action : string).

(** The conditions of a policy in the request at hand. *)
Let m := matches db userAttrs resourceAttrs envAttrs action.

(** Both loops compute the verdict and answer on it. *)
Lemma check_scan_verdict (rows : list policy) (allowing : option policy) :
  check_scan db userAttrs resourceAttrs envAttrs action allowing rows
  = (r <- verdict db userAttrs resourceAttrs envAttrs action allowing rows ;;
     Returns (access_of r)).
Proof.
  revert allowing. induction rows as [|p rows IH]; intros allowing; simpl.
  - destruct allowing; reflexivity.
  - unfold matches.
    destruct (evaluateConditions _ _ _ _ _) as [[|]|e]; simpl; try reflexivity.
    + destruct (String.eqb (p_effect p) "deny"); [reflexivity|].
      destruct allowing; apply IH.
    + apply IH.
Qed.

Lemma evaluate_scan_verdict (userId resourceId : string) (rows : list policy)
    (allowing : option policy) :
  evaluate_scan db userId resourceId userAttrs resourceAttrs envAttrs action allowing rows
  = (r <- verdict db userAttrs resourceAttrs envAttrs action allowing rows ;;
     Returns (decision_of db userId resourceId action r)).
Proof.
  revert allowing. induction rows as [|p rows IH]; intros allowing; simpl.
  - destruct allowing; reflexivity.
  - unfold matches.
    destruct (evaluateConditions _ _ _ _ _) as [[|]|e]; simpl; try reflexivity.
    + destruct (String.eqb (p_effect p) "deny"); [reflexivity|].
      destruct allowing; apply IH.
    + apply IH.
Qed.

(** A scan during which no condition throws reaches a verdict. *)
Lemma verdict_returns (rows : list policy) (allowing : option policy) :
  Forall (fun p => ∃ b, m p = Returns b) rows →
  ∃ r, verdict db userAttrs resourceAttrs envAttrs action allowing rows = Returns r.
Proof.
  revert allowing. induction rows as [|p rows IH]; intros allowing Hall.
  - simpl. eauto.
  - apply Forall_cons in Hall as [[b Hb] Hall].
    cbn [verdict]. fold m. rewrite Hb. simpl.
    destruct b; [|auto].
    destruct (String.eqb (p_effect p) "deny"); [eauto|].
    destruct allowing; auto.
Qed.

(** When no listed policy matches, the loop variable comes back as it
    went in. *)
Lemma verdict_no_match (rows : list policy) (allowing : option policy) :
  Forall (fun p => m p = Returns false) rows →
  verdict db userAttrs resourceAttrs envAttrs action allowing rows
  = Returns (inr allowing).
Proof.
  induction rows as [|p rows IH]; intros Hall; [reflexivity|].
  apply Forall_cons in Hall as [Hp Hall].
  cbn [verdict]. fold m. rewrite Hp. simpl. auto.
Qed.

(** The loop ends on a deny policy exactly when it met a matching one:
    a verdict [inr] means that no scanned deny policy matched. *)
Lemma verdict_inr_no_deny (rows : list policy) (allowing result : option policy) :
  verdict db userAttrs resourceAttrs envAttrs action allowing rows = Returns (inr result) →
  Forall (fun p => m p = Returns true → p_effect p ≠ "deny") rows.
Proof.
  revert allowing. induction rows as [|p rows IH]; intros allowing; [constructor|].
  cbn [verdict]. fold m.
  destruct (m p) as [[|]|e] eqn:E; simpl; try discriminate.
  - destruct (String.eqb (p_effect p) "deny") eqn:Ed; [discriminate|].
    apply String.eqb_neq in Ed.
    intros H. constructor; [auto|].
    destruct allowing; eapply IH; exact H.
  - intros H. constructor; [|eapply IH; exact H].
    cbv beta. rewrite E. discriminate.
Qed.

(** Deny-overrides, as far as it holds: when no condition of the listed
    policies throws, one matching deny policy among them is enough for
    the loop to end on a (matching) deny policy, wherever the matching
    allow policies stand. *)
Lemma verdict_deny_overrides (rows : list policy) (allowing : option policy) (d : policy) :
  Forall (fun p => ∃ b, m p = Returns b) rows →
  d ∈ rows → p_effect d = "deny" → m d = Returns true →
  ∃ d', verdict db userAttrs resourceAttrs envAttrs action allowing rows = Returns (inl d')
        ∧ p_effect d' = "deny" ∧ m d' = Returns true.
Proof.
  revert allowing. induction rows as [|p rows IH]; intros allowing Hall Hin Hd Hm.
  - inversion Hin.
  - apply Forall_cons in Hall as [[b Hb] Hall].
    cbn [verdict]. fold m. rewrite Hb. simpl.
    destruct b.
    + destruct (String.eqb (p_effect p) "deny") eqn:Ed.
      * apply String.eqb_eq in Ed. eauto.
      * apply String.eqb_neq in Ed.
        apply elem_of_cons in Hin as [->|Hin]; [congruence|].
        destruct allowing; apply IH; auto.
    + apply elem_of_cons in Hin as [->|Hin]; [congruence|].
      apply IH; auto.
Qed.

End Facts.
End PolicyEngineFacts.

(** ** Decisions of [evaluate] and [checkAccess] *)

Section ResourceDecisions.

Import PolicyEngine Spec PolicyEngineFacts.
Context {rt : JsRuntime}.

(** Run on the same rows, [evaluate] and [checkAccess] agree. *)
Lemma evaluate_checkAccess_same_rows (db : database) (clock : gmap string string)
    (rows : list policy) (userId resourceId action : string) :
  agree (evaluate db clock rows userId resourceId action).2
        (checkAccess db clock rows userId resourceId action).
Proof.
  unfold evaluate, checkAccess.
  destruct (getUserAttributes db userId) as [ua|]; [|simpl; auto].
  destruct (getResourceAttributes db resourceId) as [ra|]; [|simpl; auto].
  rewrite check_scan_verdict, evaluate_scan_verdict.
  destruct (verdict _ _ _ _ _ _ _) as [[p|[p|]]|e]; simpl; auto.
Qed.

(** When no condition of the listed policies throws, a matching deny
    policy makes both entry points deny, whatever else matches. *)
Lemma checkAccess_deny_overrides (db : database) (clock : gmap string string)
    (rows : list policy) (userId resourceId action : string)
    (userAttrs resourceAttrs : gmap string string) (d : policy) :
  getUserAttributes db userId = Some userAttrs →
  getResourceAttributes db resourceId = Some resourceAttrs →
  let m := matches db userAttrs resourceAttrs (getEnvironmentAttributes db clock) action in
  Forall (fun p => ∃ b, m p = Returns b) rows →
  d ∈ rows → p_effect d = "deny" → m d = Returns true →
  (∃ a, checkAccess db clock rows userId resourceId action = Returns a
        ∧ access_allowed a = false)
  ∧ (∃ r, (evaluate db clock rows userId resourceId action).2 = Returns r
          ∧ allowed r = false).
Proof.
  intros Hu Hr m Hall Hin Hd Hm.
  destruct (verdict_deny_overrides db userAttrs resourceAttrs
              (getEnvironmentAttributes db clock) action rows None d Hall Hin Hd Hm)
    as (d' & Hscan & _).
  unfold checkAccess, evaluate.
  rewrite Hu, Hr, check_scan_verdict, evaluate_scan_verdict, Hscan. simpl.
  split; eexists; split; reflexivity.
Qed.

End ResourceDecisions.

Section ResourceClaims.

Import PolicyEngine Spec PolicyEngineFacts Data.

(** C1 (deny-overrides: a policy set with a matching deny and a matching
    allow is answered Denied by [evaluate] and [checkAccess]).  The code
    at the failing input: the active policies are [PX] (priority 100),
    [P2] (deny, priority 50) and [P1] (allow, priority 10); [P2] and [P1]
    match, yet neither entry point answers, because the condition of
    [PX], scanned first, carries the pattern ["("] and the [matches]
    operator throws. *)
Theorem deny_overrides_lost_to_invalid_pattern :
  let rows := [PX; P2; P1] in
  let m := @matches Sample.runtime db_X alice_attrs report_attrs
             (@getEnvironmentAttributes db_X clock) "read" in
  Query.evaluate_rows db_X rows ∧ Query.checkAccess_rows db_X rows
  ∧ (p_effect P2 = "deny" ∧ m P2 = Returns true)
  ∧ (p_effect P1 = "allow" ∧ m P1 = Returns true)
  ∧ @evaluate Sample.runtime db_X clock rows "u1" "r1" "read" = (db_X, Throws SyntaxError)
  ∧ @checkAccess Sample.runtime db_X clock rows "u1" "r1" "read" = Throws SyntaxError.
Proof.
  repeat split; try (vm_compute; reflexivity).
Qed.

(** C2, as stated (default deny with the reason text "no applicable
    policy"), fails on the store without policies: the reason
    [checkAccess] gives is another text. *)
Lemma default_deny_reason_differs :
  ¬ (∃ a, @checkAccess Sample.runtime db_0 clock [] "u1" "r1" "read" = Returns a
          ∧ access_allowed a = false ∧ access_policy a = None
          ∧ access_reason a = "no applicable policy").
Proof.
  intros (a & Ha & _ & _ & Hreason).
  vm_compute in Ha. injection Ha as <-. discriminate Hreason.
Qed.

(** C2, amended: for a known user and a known resource, when the
    conditions of every active policy evaluate to false, [checkAccess]
    returns allowed = false, no policy, and the reason
    "No applicable policy - default deny"; [evaluate] returns
    allowed = false, no policy id, and the reason
    "No applicable policy found - default deny". *)
Theorem default_deny {rt : JsRuntime} (db : database) (clock : gmap string string)
    (rows_e rows_c : list policy) (userId resourceId action : string)
    (userAttrs resourceAttrs : gmap string string) :
  getUserAttributes db userId = Some userAttrs →
  getResourceAttributes db resourceId = Some resourceAttrs →
  Query.evaluate_rows db rows_e →
  Query.checkAccess_rows db rows_c →
  Forall (fun p => matches db userAttrs resourceAttrs (getEnvironmentAttributes db clock)
                     action p = Returns false)
         (Query.active_policies db) →
  checkAccess db clock rows_c userId resourceId action
  = Returns {| access_allowed := false;
               access_reason := "No applicable policy - default deny";
               access_policy := None |}
  ∧ (evaluate db clock rows_e userId resourceId action).2
    = Returns {| allowed := false;
                 reason := "No applicable policy found - default deny";
                 policyId := None |}.
Proof.
  intros Hu Hr [Pe _] [Pc _] Hnone.
  unfold checkAccess, evaluate.
  rewrite Hu, Hr, check_scan_verdict, evaluate_scan_verdict.
  rewrite !verdict_no_match; [split; reflexivity| |].
  - rewrite Pe. exact Hnone.
  - rewrite Pc. exact Hnone.
Qed.

Lemma default_deny_witness :
  @checkAccess Sample.runtime db_N clock [N1] "u1" "r1" "read"
  = Returns {| access_allowed := false;
               access_reason := "No applicable policy - default deny";
               access_policy := None |}
  ∧ (@evaluate Sample.runtime db_N clock [N1] "u1" "r1" "read").2
    = Returns {| allowed := false;
                 reason := "No applicable policy found - default deny";
                 policyId := None |}.
Proof.
  apply (@default_deny Sample.runtime db_N clock [N1] [N1] "u1" "r1" "read"
           alice_attrs report_attrs).
  - vm_compute; reflexivity.
  - vm_compute; reflexivity.
  - split; [reflexivity | vm_compute; reflexivity].
  - split; [reflexivity | vm_compute; reflexivity].
  - repeat constructor.
Defined.

End ResourceClaims.

Section PatternClaims.

Import Data.

(** C3 (an invalid pattern under [matches] yields false and never an
    exception, in both evaluators).  The field-level evaluator does so;
    the resource-level one does not: as soon as the actual value is
    present, a [matches] condition whose expected value is not a regular
    expression makes [evaluateConditions] throw. *)
Theorem matches_invalid_pattern {rt : JsRuntime} (c : condition) (fc : field_condition)
    (userAttrs resourceAttrs envAttrs : gmap string string) (action a : string)
    (ctx : CellPolicyEngine.context) :
  c_operator c = "matches" → RegExp_i (c_attribute_value c) = None →
  PolicyEngine.actualValue c userAttrs resourceAttrs envAttrs action = Some (Some a) →
  fc_operator fc = "matches" → RegExp_i (fc_value fc) = None →
  PolicyEngine.evaluateConditions [c] userAttrs resourceAttrs envAttrs action
  = Throws SyntaxError
  ∧ CellPolicyEngine.evaluateCondition fc ctx = false.
Proof.
  intros Hop Hbad Ha Hfop Hfbad. split.
  - unfold PolicyEngine.evaluateConditions. simpl.
    rewrite Ha, Hop. simpl. rewrite Hbad. reflexivity.
  - unfold CellPolicyEngine.evaluateCondition.
    destruct (CellPolicyEngine.actualValue fc ctx) as [[v|]|]; try reflexivity.
    rewrite Hfop. simpl. unfold CellPolicyEngine.regex_test. rewrite Hfbad. reflexivity.
Qed.

Lemma matches_invalid_pattern_witness :
  @PolicyEngine.evaluateConditions Sample.runtime
    [ {| c_policy_id := "PX"; c_subject_type := "action"; c_attribute_name := "";
         c_operator := "matches"; c_attribute_value := "(" |} ] ∅ ∅ ∅ "read"
  = Throws SyntaxError
  ∧ @CellPolicyEngine.evaluateCondition Sample.runtime
      {| fc_subject_type := "action"; fc_attribute_name := ""; fc_operator := "matches";
         fc_value := "(" |}
      {| CellPolicyEngine.ctx_user := ∅; CellPolicyEngine.ctx_resource := ∅;
         CellPolicyEngine.ctx_field := ∅; CellPolicyEngine.ctx_action := "read";
         CellPolicyEngine.ctx_environment := ∅ |}
    = false.
Proof.
  apply (@matches_invalid_pattern Sample.runtime) with (a := "read"); reflexivity.
Defined.

End PatternClaims.

(** * The policy queries *)

Module QueryFacts.
Import Query.

Lemma ordered_weaken {A : Type} (before before' : A → A → bool) (l : list A) :
  (∀ x y, before x y = true → before' x y = true) →
  ordered before l = true → ordered before' l = true.
Proof.
  intros Hsub. induction l as [|x [|y l] IH]; try reflexivity.
  simpl. rewrite !andb_true_iff. intros [Hxy Hrest]. split; [auto|].
  apply IH. exact Hrest.
Qed.

(** The ordering of [evaluate] refines the one of [checkAccess]: rows that
    answer the first query answer the second. *)
Lemma evaluate_rows_checkAccess_rows (db : database) (rows : list policy) :
  evaluate_rows db rows → checkAccess_rows db rows.
Proof.
  intros [Hperm Hord]. split; [exact Hperm|].
  eapply ordered_weaken; [|exact Hord].
  intros p q. unfold priority_desc_created_asc, priority_desc.
  rewrite orb_true_iff, andb_true_iff, Z.ltb_lt, Z.eqb_eq, Z.leb_le. lia.
Qed.

End QueryFacts.

Section ListingClaims.

Import PolicyEngine Data.

(** C4 ([evaluate] and [checkAccess] return the same flag and cite the
    same policy over the same stored data).  The code at the failing
    input: [T1] and [T2] are active allow policies of equal priority that
    both match; [T1] was created first, [T2] is stored first.  The query of
    [evaluate] can only return [T1] before [T2], and [evaluate] cites
    [T1]; the query of [checkAccess], which orders by priority alone, may
    return the rows as they are stored, and [checkAccess] then cites
    [T2]. *)
Theorem evaluate_checkAccess_cite_differently :
  (∀ rows, Query.evaluate_rows db_T rows → rows = [T1; T2])
  ∧ Query.evaluate_rows db_T [T1; T2]
  ∧ Query.checkAccess_rows db_T [T2; T1]
  ∧ (@evaluate Sample.runtime db_T clock [T1; T2] "u1" "r1" "read").2
    = Returns {| allowed := true; reason := "Allowed by policy: First";
                 policyId := Some "T1" |}
  ∧ @checkAccess Sample.runtime db_T clock [T2; T1] "u1" "r1" "read"
    = Returns {| access_allowed := true; access_reason := "Allowed by policy: Second";
                 access_policy := Some T2 |}.
Proof.
  split; [|repeat split; try (vm_compute; reflexivity)].
  - intros rows [Hperm Hord].
    assert (Hact : Query.active_policies db_T = [T2; T1]) by (vm_compute; reflexivity).
    rewrite Hact in Hperm. symmetry in Hperm.
    apply Permutation_length_2_inv in Hperm as [-> | ->]; [|reflexivity].
    vm_compute in Hord. discriminate Hord.
  - apply perm_swap.
Qed.

(** C7 (every listing path orders equal priorities by creation, so two
    evaluations over the same stored data cite the same policy).  The code
    at the failing input: the query of [checkAccess] orders by priority
    alone, so on the store holding [T2] and [T1] both orders of the two
    rows answer it, and [checkAccess] cites [T1] on one and [T2] on the
    other. *)
Theorem checkAccess_rows_leave_ties_open :
  Query.checkAccess_rows db_T [T1; T2]
  ∧ Query.checkAccess_rows db_T [T2; T1]
  ∧ @checkAccess Sample.runtime db_T clock [T1; T2] "u1" "r1" "read"
    = Returns {| access_allowed := true; access_reason := "Allowed by policy: First";
                 access_policy := Some T1 |}
  ∧ @checkAccess Sample.runtime db_T clock [T2; T1] "u1" "r1" "read"
    = Returns {| access_allowed := true; access_reason := "Allowed by policy: Second";
                 access_policy := Some T2 |}.
Proof.
  repeat split; try (vm_compute; reflexivity).
  apply perm_swap.
Qed.

End ListingClaims.

(** * Properties of the field-level engine *)

Module FieldScanFacts.
Import CellPolicyEngine Spec.

Section Facts.

Context {rt : JsRuntime}.
Variable ctx : context.

Ltac effect_cases p :=
  let Ed := fresh "Ed" in let Er := fresh "Er" in
  let Em := fresh "Em" in let Ea := fresh "Ea" in
  destruct (String.eqb (fp_effect (row p)) DENY) eqn:Ed;
  [apply String.eqb_eq in Ed|apply String.eqb_neq in Ed;
   destruct (String.eqb (fp_effect (row p)) REDACT) eqn:Er;
   [apply String.eqb_eq in Er|apply String.eqb_neq in Er;
    destruct (String.eqb (fp_effect (row p)) MASK) eqn:Em;
    [apply String.eqb_eq in Em|apply String.eqb_neq in Em;
     destruct (String.eqb (fp_effect (row p)) ALLOW) eqn:Ea;
     [apply String.eqb_eq in Ea|apply String.eqb_neq in Ea]]]].

(** One turn of the loop on a matching mask policy: the accumulator is
    replaced, whatever it holds. *)
Lemma field_scan_mask_step (acc : field_access) (p : field_policy) (ps : list field_policy) :
  matching ctx MASK p →
  field_scan ctx acc (p :: ps) = field_scan ctx (masked_by p) ps.
Proof.
  intros [Hm He]. simpl. rewrite Hm, He. reflexivity.
Qed.

(** Once the accumulator holds a mask, the result is never an allow. *)
Lemma field_scan_from_mask (acc : field_access) (ps : list field_policy) :
  effect acc = MASK → effect (field_scan ctx acc ps) ≠ ALLOW.
Proof.
  revert acc. induction ps as [|p ps IH]; intros acc Hacc; simpl.
  - rewrite Hacc. discriminate.
  - destruct (evaluatePolicyConditions p ctx); [|auto].
    effect_cases p; simpl; try discriminate.
    + rewrite andb_false_r. apply IH. reflexivity.
    + rewrite Hacc. simpl. apply IH. exact Hacc.
    + apply IH. exact Hacc.
Qed.

(** A matching mask policy anywhere in the list excludes the result
    allow. *)
Lemma field_scan_mask_sticks (acc : field_access) (ps1 ps2 : list field_policy)
    (m : field_policy) :
  matching ctx MASK m → effect (field_scan ctx acc (ps1 ++ m :: ps2)) ≠ ALLOW.
Proof.
  intros Hm. revert acc. induction ps1 as [|p ps1 IH]; intros acc.
  - rewrite app_nil_l, field_scan_mask_step by exact Hm.
    apply field_scan_from_mask. reflexivity.
  - rewrite <- app_comm_cons. simpl.
    destruct (evaluatePolicyConditions p ctx); [|apply IH].
    effect_cases p; simpl; try discriminate; apply IH.
Qed.

(** With a mask in the accumulator and neither a terminal nor a mask
    policy matching, the loop returns the accumulator. *)
Lemma field_scan_mask_kept (acc : field_access) (ps : list field_policy) :
  effect acc = MASK →
  Forall (fun p => ¬ terminal ctx p) ps →
  filter (matching ctx MASK) ps = [] →
  field_scan ctx acc ps = acc.
Proof.
  intros Hacc. induction ps as [|p ps IH]; intros Hterm Hmask; [reflexivity|].
  apply Forall_cons in Hterm as [Hp Hterm]. simpl.
  destruct (evaluatePolicyConditions p ctx) eqn:Hm.
  - rewrite filter_cons in Hmask. unfold terminal in Hp.
    effect_cases p; simpl.
    + exfalso. apply Hp. auto.
    + exfalso. apply Hp. auto.
    + rewrite decide_True in Hmask by (split; assumption). discriminate.
    + rewrite Hacc. simpl. rewrite decide_False in Hmask by (intros [_ H]; auto). auto.
    + rewrite decide_False in Hmask by (intros [_ H]; auto). auto.
  - rewrite filter_cons, decide_False in Hmask by (intros [H _]; congruence). auto.
Qed.

(** When no matching policy ends the loop, the last matching mask policy
    of the list is the one returned. *)
Lemma field_scan_last_mask (acc : field_access) (ps : list field_policy) (m : field_policy) :
  Forall (fun p => ¬ terminal ctx p) ps →
  last (filter (matching ctx MASK) ps) = Some m →
  field_scan ctx acc ps = masked_by m.
Proof.
  revert acc. induction ps as [|p ps IH]; intros acc Hterm Hlast; [discriminate|].
  apply Forall_cons in Hterm as [Hp Hterm].
  rewrite filter_cons in Hlast.
  destruct (decide (matching ctx MASK p)) as [Hm|Hm].
  - rewrite field_scan_mask_step by exact Hm.
    destruct (filter (matching ctx MASK) ps) as [|q qs] eqn:Hrest.
    + injection Hlast as <-. apply field_scan_mask_kept; auto.
    + rewrite last_cons_cons in Hlast. apply IH; assumption.
  - simpl. destruct (evaluatePolicyConditions p ctx) eqn:Hc; [|auto].
    unfold terminal in Hp. unfold matching in Hm.
    effect_cases p; simpl.
    + exfalso. apply Hp. auto.
    + exfalso. apply Hp. auto.
    + exfalso. apply Hm. auto.
    + destruct (negb _); auto.
    + auto.
Qed.

End Facts.
End FieldScanFacts.

Section FieldClaims.

Import CellPolicyEngine Spec FieldScanFacts CellData.

(** C5, as stated (of several matching mask policies the one of highest
    priority gives the mask value and is cited), fails: [M1] (priority 30,
    mask text "AAA") and [M2] (priority 20, mask text "BBB") both match,
    they are scanned in this order, and the result carries neither the
    text of [M1] nor [M1]. *)
Lemma lower_mask_replaces_higher :
  let db := store [M1; M2] in
  let r := @evaluateFieldAccess Sample.runtime db [M1; M2] "u1" "r2" "f1" "read" ∅ in
  Query.getFieldPolicies_rows db (Some "employee_records") [M1; M2]
  ∧ Forall (@matching Sample.runtime (ssn_context db) MASK)
           (getFieldPolicies db [M1; M2])
  ∧ fp_priority M2 < fp_priority M1
  ∧ ¬ (maskValue r = fp_mask_value M1 ∨ row <$> policy_of r = Some M1).
Proof.
  repeat split; try (vm_compute; reflexivity).
  - repeat constructor.
  - vm_compute. intros [H|H]; discriminate H.
Qed.

(** C5, amended: in the scan of [evaluateFieldAccess] a matching mask
    policy replaces the accumulator whatever it holds, a recorded mask
    included ([field_scan_mask_step]); consequently, when several mask
    policies match and no matching deny or redact policy ends the scan,
    the returned mask value and the cited policy are those of the matching
    mask policy scanned last, the one of lowest priority. *)
Theorem last_matching_mask_wins {rt : JsRuntime} (ctx : context) (acc : field_access)
    (ps : list field_policy) (m : field_policy) :
  Forall (fun p => ¬ terminal ctx p) ps →
  last (filter (matching ctx MASK) ps) = Some m →
  effect (field_scan ctx acc ps) = MASK
  ∧ policy_of (field_scan ctx acc ps) = Some m
  ∧ maskValue (field_scan ctx acc ps) = fp_mask_value (row m).
Proof.
  intros Hterm Hlast.
  rewrite (field_scan_last_mask ctx acc ps m Hterm Hlast). repeat split.
Qed.

Lemma last_matching_mask_wins_witness :
  let ps := getFieldPolicies (store [M1; M2]) [M1; M2] in
  let r := @field_scan Sample.runtime (ssn_context (store [M1; M2])) no_match ps in
  effect r = MASK ∧ row <$> policy_of r = Some M2 ∧ maskValue r = Some "BBB".
Proof.
  intros ps r.
  destruct (@last_matching_mask_wins Sample.runtime (ssn_context (store [M1; M2]))
              no_match ps
              {| row := M2; conditions := [fpc_condition (not_hr "M2")] |})
    as (He & Hp & Hv).
  - repeat constructor; intros [_ [H|H]]; discriminate H.
  - vm_compute. reflexivity.
  - subst r. rewrite He, Hp, Hv. repeat split.
Defined.

(** C6: a recorded mask is never downgraded by a later allow.  When, in
    the list [evaluateFieldAccess] scans, a matching mask policy stands
    before a matching allow policy, the effect returned is not allow. *)
Theorem mask_not_downgraded_by_allow {rt : JsRuntime} (db : database)
    (rows : list field_policy_row) (userId resourceId fieldId action : string)
    (environment : gmap string string) (res : resource) (fld : resource_field)
    (ps1 ps2 : list field_policy) (m a : field_policy) :
  find (fun r => String.eqb (r_id r) resourceId) (resources db) = Some res →
  find (fun f => String.eqb (f_id f) fieldId) (resource_fields db) = Some fld →
  let ctx := field_context db userId resourceId fieldId res fld action environment in
  getFieldPolicies db rows = (ps1 ++ m :: ps2)%list →
  matching ctx MASK m →
  a ∈ ps2 → matching ctx ALLOW a →
  effect (evaluateFieldAccess db rows userId resourceId fieldId action environment) ≠ ALLOW.
Proof.
  intros Hres Hfld ctx Hps Hm _ _.
  unfold evaluateFieldAccess. rewrite Hres, Hfld, Hps.
  apply field_scan_mask_sticks. exact Hm.
Qed.

Lemma mask_not_downgraded_by_allow_witness :
  effect (@evaluateFieldAccess Sample.runtime (store [M; A]) [M; A] "u1" "r2" "f1" "read" ∅)
  ≠ ALLOW.
Proof.
  apply (@mask_not_downgraded_by_allow Sample.runtime (store [M; A]) [M; A]
           "u1" "r2" "f1" "read" ∅ employees ssn_field []
           [{| row := A; conditions := [fpc_condition (not_hr "A")] |}]
           {| row := M; conditions := [fpc_condition (not_hr "M")] |}
           {| row := A; conditions := [fpc_condition (not_hr "A")] |}).
  - reflexivity.
  - reflexivity.
  - reflexivity.
  - split; reflexivity.
  - apply list_elem_of_here.
  - split; reflexivity.
Defined.

(** C9: the two engines disagree on an empty condition list.  A
    resource-level policy without conditions never matches; a field-level
    policy without conditions and without field pattern matches every
    context. *)
Theorem empty_conditions_disagree {rt : JsRuntime} (db : database) (p : policy)
    (userAttrs resourceAttrs envAttrs : gmap string string) (action : string)
    (fp : field_policy) (ctx : context) :
  PolicyEngine.conditions_of db (p_id p) = [] →
  conditions fp = [] → fp_field_pattern (row fp) = None →
  PolicyEngine.evaluateConditions (PolicyEngine.conditions_of db (p_id p))
    userAttrs resourceAttrs envAttrs action = Returns false
  ∧ evaluatePolicyConditions fp ctx = true.
Proof.
  intros Hp Hfp _. split.
  - rewrite Hp. reflexivity.
  - unfold evaluatePolicyConditions. rewrite Hfp. reflexivity.
Qed.

Lemma empty_conditions_disagree_witness :
  @PolicyEngine.evaluateConditions Sample.runtime
    (PolicyEngine.conditions_of Data.db_0 (p_id Data.P1))
    ∅ ∅ ∅ "read" = Returns false
  ∧ @evaluatePolicyConditions Sample.runtime {| row := A; conditions := [] |}
      (ssn_context (store [])) = true.
Proof.
  apply (@empty_conditions_disagree Sample.runtime Data.db_0 Data.P1 ∅ ∅ ∅ "read"
           {| row := A; conditions := [] |} (ssn_context (store []))); reflexivity.
Defined.

(** The field pattern of a policy without conditions is not consulted. *)
Lemma empty_conditions_skip_pattern {rt : JsRuntime} (fp : field_policy) (ctx : context) :
  conditions fp = [] → evaluatePolicyConditions fp ctx = true.
Proof.
  intros Hfp. unfold evaluatePolicyConditions. rewrite Hfp. reflexivity.
Qed.

(** The query of [getFieldPolicies] orders by priority alone as well: on
    two mask policies of equal priority both orders answer it, and the
    mask text returned follows the order. *)
Lemma getFieldPolicies_rows_leave_ties_open :
  let db := store [E1; E2] in
  Query.getFieldPolicies_rows db (Some "employee_records") [E1; E2]
  ∧ Query.getFieldPolicies_rows db (Some "employee_records") [E2; E1]
  ∧ maskValue (@evaluateFieldAccess Sample.runtime db [E1; E2] "u1" "r2" "f1" "read" ∅)
    = Some "BBB"
  ∧ maskValue (@evaluateFieldAccess Sample.runtime db [E2; E1] "u1" "r2" "f1" "read" ∅)
    = Some "AAA".
Proof.
  repeat split; try (vm_compute; reflexivity).
  apply perm_swap.
Qed.

End FieldClaims.

(** * Masking and row filtering *)

Module JsFacts.

Lemma drop_length (n : nat) (s : string) :
  String.length (Js.drop n s) = (String.length s - n)%nat.
Proof.
  revert s. induction n as [|n IH]; intros s; simpl.
  - lia.
  - destruct s as [|c s]; simpl; [reflexivity|apply IH].
Qed.

Lemma drop_suffix (n : nat) (s : string) : ∃ pre, s = pre ++ Js.drop n s.
Proof.
  revert s. induction n as [|n IH]; intros s; simpl.
  - exists "". reflexivity.
  - destruct s as [|c s]; [exists ""; reflexivity|].
    destruct (IH s) as [pre Hpre]. exists (String c pre).
    rewrite Hpre at 1. reflexivity.
Qed.

(** [s.slice(-k)] is the suffix of [k] characters of a string that has
    them. *)
Lemma slice_last (k : nat) (s : string) :
  (0 < k)%nat → (k ≤ String.length s)%nat →
  ∃ pre, s = pre ++ Js.slice s (- Z.of_nat k)
         ∧ String.length (Js.slice s (- Z.of_nat k)) = k.
Proof.
  intros Hk Hlen. unfold Js.slice, Js.length.
  replace (- Z.of_nat k <? 0) with true by (symmetry; apply Z.ltb_lt; lia).
  rewrite Z.max_l by lia.
  replace (Z.to_nat (Z.of_nat (String.length s) + - Z.of_nat k))
    with (String.length s - k)%nat by lia.
  destruct (drop_suffix (String.length s - k) s) as [pre Hpre].
  exists pre. split; [exact Hpre|]. rewrite drop_length. lia.
Qed.

End JsFacts.

Section MaskClaims.

Import Mask.

(** C8, as stated (every value of field type [ssn] is masked to
    ["***-**-"] and its last 4 characters, or to ["***-**-****"]), fails on
    the value [null]: the guard at the head of [applyMask] returns it as
    it is, and no string at all. *)
Lemma applyMask_null_not_masked :
  ¬ (∃ masked, @applyMask Sample.runtime JNull (Some "ssn") None = JString masked).
Proof.
  intros [masked H]. discriminate H.
Qed.

(** C8, amended: SSN masking.  Without a mask text from the policy, a
    string value of field type [ssn] that has at least 4 characters becomes
    ["***-**-"] followed by its last 4 characters, and a shorter one
    becomes ["***-**-****"]; in particular ["123-45-6789"] becomes
    ["***-**-6789"].  A [null] or [undefined] value is returned
    unchanged. *)
Theorem applyMask_ssn {rt : JsRuntime} (s : string) (maskPattern : option string) :
  Js.truthy maskPattern = false →
  ((4 ≤ String.length s)%nat →
   ∃ pre last4, s = pre ++ last4 ∧ String.length last4 = 4%nat
     ∧ applyMask (JString s) (Some "ssn") maskPattern = JString ("***-**-" ++ last4))
  ∧ ((String.length s < 4)%nat →
     applyMask (JString s) (Some "ssn") maskPattern = JString "***-**-****")
  ∧ applyMask (JString "123-45-6789") (Some "ssn") maskPattern = JString "***-**-6789"
  ∧ applyMask JNull (Some "ssn") maskPattern = JNull
  ∧ applyMask JUndefined (Some "ssn") maskPattern = JUndefined.
Proof.
  intros Hmask. unfold applyMask. rewrite Hmask. repeat split.
  - intros Hlen.
    destruct (JsFacts.slice_last 4 s) as (pre & Hpre & Hlast); [lia|exact Hlen|].
    exists pre, (Js.slice s (-4)). repeat split; [exact Hpre|exact Hlast|].
    replace (Js.length s >=? 4) with true; [reflexivity|].
    symmetry. apply Z.geb_le. unfold Js.length. lia.
  - intros Hlen.
    replace (Js.length s >=? 4) with false; [reflexivity|].
    symmetry. rewrite Z.geb_leb. apply Z.leb_gt. unfold Js.length. lia.
Qed.

Lemma applyMask_ssn_witness :
  @applyMask Sample.runtime (JString "123-45-6789") (Some "ssn") None
  = JString "***-**-6789"
  ∧ @applyMask Sample.runtime (JString "12") (Some "ssn") (Some "") = JString "***-**-****".
Proof.
  split.
  - apply (@applyMask_ssn Sample.runtime "123-45-6789" None). reflexivity.
  - apply (@applyMask_ssn Sample.runtime "12" (Some "")); [reflexivity|]. simpl. lia.
Defined.

End MaskClaims.

Module ObjectFacts.

Section Facts.

Context {V : Type}.

Lemma lookup_assign_ne (k k' : string) (v : V) (obj : gmap string V) :
  k ≠ k' → Js.assign k v obj !! k' = obj !! k'.
Proof.
  intros Hne. unfold Js.assign. destruct (String.eqb k "__proto__"); [reflexivity|].
  apply lookup_insert_ne. exact Hne.
Qed.

Lemma lookup_assign_eq (k : string) (v : V) (obj : gmap string V) :
  k ≠ "__proto__" → Js.assign k v obj !! k = Some v.
Proof.
  intros Hne. unfold Js.assign. apply String.eqb_neq in Hne. rewrite Hne.
  apply lookup_insert_eq.
Qed.

Lemma assign_proto (v : V) (obj : gmap string V) : Js.assign "__proto__" v obj = obj.
Proof. reflexivity. Qed.

(** An assignment changes the property of its key at most. *)
Lemma lookup_assign_same (k : string) (v : V) (obj obj' : gmap string V) (k' : string) :
  obj !! k' = obj' !! k' → Js.assign k v obj !! k' = Js.assign k v obj' !! k'.
Proof.
  intros Hobj. unfold Js.assign. destruct (String.eqb k "__proto__"); [exact Hobj|].
  destruct (decide (k = k')) as [->|Hne].
  - rewrite !lookup_insert_eq. reflexivity.
  - rewrite !lookup_insert_ne by exact Hne. exact Hobj.
Qed.

Lemma assign_commute (k1 k2 : string) (v1 v2 : V) (obj : gmap string V) :
  k1 ≠ k2 → Js.assign k1 v1 (Js.assign k2 v2 obj) = Js.assign k2 v2 (Js.assign k1 v1 obj).
Proof.
  intros Hne. unfold Js.assign.
  destruct (String.eqb k1 "__proto__"), (String.eqb k2 "__proto__"); try reflexivity.
  apply insert_insert_ne. congruence.
Qed.

End Facts.

(** The name [__proto__] always finds something in a plain object. *)
Lemma inherited_proto : Js.inherited "__proto__" = Some "[object Object]".
Proof. reflexivity. Qed.

Lemma get_own (obj : gmap string string) (k v : string) :
  obj !! k = Some v → Js.get obj k = Some v.
Proof. intros H. unfold Js.get. rewrite H. reflexivity. Qed.

Lemma get_inherited (obj : gmap string string) (k : string) :
  obj !! k = None → Js.get obj k = Js.inherited k.
Proof. intros H. unfold Js.get. rewrite H. reflexivity. Qed.

End ObjectFacts.

Module RowFilterFacts.
Import CellPolicyEngine RowFilter ObjectFacts.

Section Facts.

Context {rt : JsRuntime}.
Variables (db : database) (rows : list field_policy_row)
          (userId resourceId action : string) (environment : gmap string string)
          (fieldMap : field_map).

Let step := filter_entry db rows userId resourceId action environment fieldMap.

(** What the loop stores under the key of a value found in the field
    map, given the access decision. *)
Definition filtered_cell (fieldType : option string) (value : js_value)
    (access : field_access) : option property :=
  if String.eqb (effect access) ALLOW then Some (Cell value)
  else if String.eqb (effect access) MASK then
    Some (Cell (Mask.applyMask value fieldType (maskValue access)))
  else if String.eqb (effect access) REDACT then
    Some (Cell (JString (if Js.truthy (maskValue access)
                         then default "" (maskValue access) else "***REDACTED***")))
  else None.

(** A turn of the loop in two parts.  What is found and decided for the
    key, which does not depend on the state and may throw: nothing found
    ([None]), or the value found with the decision on it. *)
Definition turn (k : string) : outcome (option (member * field_access)) :=
  match lookup_field fieldMap k with
  | Falsy => Returns None
  | found =>
      access <- evaluateFieldAccess_of db rows userId resourceId (member_id found)
                  action environment ;;
      Returns (Some (found, access))
  end.

(** And the assignments that follow. *)
Definition update (d : option (member * field_access)) (k : string) (v : js_value)
    (st : gmap string property * gmap string string)
    : gmap string property * gmap string string :=
  match d with
  | None => (Js.assign k (Cell v) st.1, st.2)
  | Some (found, access) =>
      (match filtered_cell (member_type found) v access with
       | Some cell => Js.assign k cell st.1
       | None => st.1
       end,
       Js.assign k (effect access) st.2)
  end.

Lemma filter_entry_turn (st : gmap string property * gmap string string)
    (k : string) (v : js_value) :
  step st (k, v) = (d <- turn k ;; Returns (update d k v st)).
Proof.
  destruct st as [filtered accessLog]. unfold step, filter_entry, turn.
  destruct (lookup_field fieldMap k) as [|field|]; [reflexivity| |];
    (destruct (evaluateFieldAccess_of _ _ _ _ _ _ _) as [access|e]; [|reflexivity]);
    simpl; unfold filtered_cell;
    repeat (match goal with |- context [if String.eqb ?a ?b then _ else _] =>
              destruct (String.eqb a b) end); reflexivity.
Qed.

(** The one exception of a turn: a key that finds, in the field map of a
    known resource, a value that is no field. *)
Lemma turn_throws (k : string) (e : string) :
  turn k = Throws e →
  e = unbound_parameter ∧ lookup_field fieldMap k = Foreign
  ∧ find (fun r => String.eqb (r_id r) resourceId) (resources db) ≠ None.
Proof.
  unfold turn, evaluateFieldAccess_of.
  destruct (lookup_field fieldMap k) as [|field|]; simpl; try discriminate.
  destruct (find _ (resources db)); simpl; [|discriminate].
  intros [= <-]. auto.
Qed.

Lemma turn_returns (k : string) :
  lookup_field fieldMap k ≠ Foreign → ∃ d, turn k = Returns d.
Proof.
  unfold turn. destruct (lookup_field fieldMap k) as [|field|]; intros Hk; simpl; eauto.
  contradiction.
Qed.

Lemma turn_falsy (k : string) : lookup_field fieldMap k = Falsy → turn k = Returns None.
Proof. intros Hk. unfold turn. rewrite Hk. reflexivity. Qed.

Lemma turn_field (k : string) (field : resource_field) :
  lookup_field fieldMap k = Field field →
  turn k = Returns (Some (Field field,
                          evaluateFieldAccess db rows userId resourceId (f_id field)
                            action environment)).
Proof. intros Hk. unfold turn. rewrite Hk. reflexivity. Qed.

(** The assignments of a turn touch the properties of its key only, and
    what they leave there depends on what was there only. *)
Lemma update_other (d : option (member * field_access)) (k : string) (v : js_value)
    (st : gmap string property * gmap string string) (k' : string) :
  k ≠ k' → (update d k v st).1 !! k' = st.1 !! k' ∧ (update d k v st).2 !! k' = st.2 !! k'.
Proof.
  intros Hne. destruct d as [[found access]|]; simpl.
  - split; [|apply lookup_assign_ne; exact Hne].
    destruct (filtered_cell _ _ _); [apply lookup_assign_ne; exact Hne|reflexivity].
  - split; [apply lookup_assign_ne; exact Hne|reflexivity].
Qed.

Lemma update_same (d : option (member * field_access)) (k : string) (v : js_value)
    (st st' : gmap string property * gmap string string) (k' : string) :
  st.1 !! k' = st'.1 !! k' → st.2 !! k' = st'.2 !! k' →
  (update d k v st).1 !! k' = (update d k v st').1 !! k'
  ∧ (update d k v st).2 !! k' = (update d k v st').2 !! k'.
Proof.
  intros H1 H2. destruct d as [[found access]|]; simpl.
  - split; [|apply lookup_assign_same; exact H2].
    destruct (filtered_cell _ _ _); [apply lookup_assign_same; exact H1|exact H1].
  - split; [apply lookup_assign_same; exact H1|exact H2].
Qed.

Lemma update_commute (d1 d2 : option (member * field_access)) (k1 k2 : string)
    (v1 v2 : js_value) (st : gmap string property * gmap string string) :
  k1 ≠ k2 → update d1 k1 v1 (update d2 k2 v2 st) = update d2 k2 v2 (update d1 k1 v1 st).
Proof.
  intros Hne. destruct st as [filtered accessLog].
  destruct d1 as [[found1 access1]|], d2 as [[found2 access2]|]; simpl;
    repeat (match goal with |- context [filtered_cell ?t ?v ?a] =>
              destruct (filtered_cell t v a) end);
    f_equal; try reflexivity; apply assign_commute; exact Hne.
Qed.

(** The loop up to an entry, the turn on it, and the rest. *)
Lemma for_each_app (l1 l2 : list (string * js_value))
    (st : gmap string property * gmap string string) :
  for_each step st (l1 ++ l2) = (st' <- for_each step st l1 ;; for_each step st' l2).
Proof.
  revert st. induction l1 as [|e l1 IH]; intros st; [reflexivity|].
  simpl. destruct (step st e) as [st1|err]; simpl; [apply IH|reflexivity].
Qed.

Lemma for_each_other (row : list (string * js_value))
    (st st' : gmap string property * gmap string string) (k : string) :
  for_each step st row = Returns st' → k ∉ row.*1 →
  st'.1 !! k = st.1 !! k ∧ st'.2 !! k = st.2 !! k.
Proof.
  revert st. induction row as [|[k0 v0] row IH]; intros st Hrun Hk.
  - injection Hrun as <-. auto.
  - apply not_elem_of_cons in Hk as [Hne Hk]. simpl in Hrun, Hne.
    fold step in Hrun. rewrite filter_entry_turn in Hrun.
    destruct (turn k0) as [d|err]; [|discriminate]. simpl in Hrun.
    destruct (IH _ Hrun Hk) as [-> ->]. apply update_other. congruence.
Qed.

(** The loop returns when no key of the row finds a value that is no
    field. *)
Lemma for_each_returns (row : list (string * js_value))
    (st : gmap string property * gmap string string) :
  Forall (fun e => lookup_field fieldMap e.1 ≠ Foreign) row →
  ∃ st', for_each step st row = Returns st'.
Proof.
  intros Hrow. revert st. induction Hrow as [|[k v] row Hk Hrow IH]; intros st.
  - exists st. reflexivity.
  - simpl. fold step. rewrite filter_entry_turn.
    destruct (turn_returns k Hk) as [d ->]. simpl. apply IH.
Qed.

(** The properties the loop leaves under a key of a row with distinct
    keys are those its own turn assigns. *)
Lemma for_each_key (row : list (string * js_value))
    (st st' : gmap string property * gmap string string) (k : string) (v : js_value) :
  NoDup row.*1 → (k, v) ∈ row → for_each step st row = Returns st' →
  ∃ d, turn k = Returns d
       ∧ st'.1 !! k = (update d k v st).1 !! k ∧ st'.2 !! k = (update d k v st).2 !! k.
Proof.
  intros Hnodup Hin Hrun.
  apply list_elem_of_split in Hin as (l1 & l2 & ->).
  rewrite fmap_app, fmap_cons in Hnodup.
  apply NoDup_app in Hnodup as (_ & Hdisj & Hnodup).
  apply NoDup_cons in Hnodup as [Hfresh _].
  assert (Hl1 : k ∉ l1.*1) by (intros Hk; apply (Hdisj k Hk); apply list_elem_of_here).
  rewrite for_each_app in Hrun.
  destruct (for_each step st l1) as [st1|err] eqn:Hrun1; [|discriminate].
  simpl in Hrun. fold step in Hrun. rewrite filter_entry_turn in Hrun.
  destruct (turn k) as [d|err]; [|discriminate]. simpl in Hrun.
  exists d. split; [reflexivity|].
  destruct (for_each_other _ _ _ k Hrun Hfresh) as [-> ->].
  destruct (for_each_other _ _ _ k Hrun1 Hl1) as [H1 H2].
  apply update_same; assumption.
Qed.

(** [__proto__] always finds something in the field map. *)
Lemma lookup_field_proto : lookup_field fieldMap "__proto__" ≠ Falsy.
Proof.
  unfold lookup_field. destruct (fields_of fieldMap !! "__proto__"); [discriminate|].
  destruct (prototype_of fieldMap); discriminate.
Qed.

(** The property the loop leaves under a key that finds nothing in the
    field map, and the absence of this key from the access log. *)
Lemma for_each_unknown_key (row : list (string * js_value))
    (st' : gmap string property * gmap string string) (k : string) (v : js_value) :
  NoDup row.*1 → (k, v) ∈ row → lookup_field fieldMap k = Falsy →
  for_each step (∅, ∅) row = Returns st' →
  st'.1 !! k = Some (Cell v) ∧ st'.2 !! k = None.
Proof.
  intros Hnodup Hin Hk Hrun.
  destruct (for_each_key row _ _ k v Hnodup Hin Hrun) as (d & Hd & -> & ->).
  rewrite turn_falsy in Hd by exact Hk. injection Hd as <-. simpl. split.
  - apply lookup_assign_eq. intros ->. apply lookup_field_proto. exact Hk.
  - apply lookup_empty.
Qed.

End Facts.
End RowFilterFacts.

Section RowClaims.

Import CellPolicyEngine RowFilter RowFilterFacts.

(** C10 fails on a key that is no field of the schema but names a member
    every object inherits, such as [constructor]: the field map, a plain
    object, finds the inherited value under it, and the filter asks for a
    decision on a field without id.  With a known resource the call
    throws, so that nothing of the row is returned; with an unknown
    resource the key is left out and logged as denied.  In neither case is
    the value copied. *)
Lemma inherited_key_not_passed_through :
  let db := CellData.store [CellData.M] in
  Forall (fun f => f_field_name f ≠ "constructor") (resource_fields db)
  ∧ @filterSingleRow Sample.runtime db [CellData.M] "u1" "r2"
      [("ssn", JString "123-45-6789"); ("constructor", JString "x")]
      (fieldMap_of db "r2") "read" ∅
    = Throws unbound_parameter
  ∧ ∃ filtered accessLog,
      @filterSingleRow Sample.runtime db [CellData.M] "u1" "r9"
        [("constructor", JString "x")] (fieldMap_of db "r9") "read" ∅
      = Returns filtered
      ∧ filtered !! "constructor" = None
      ∧ filtered !! "_accessControl" = Some (AccessControl accessLog)
      ∧ accessLog !! "constructor" = Some "deny".
Proof.
  intros db. split; [|split].
  - repeat constructor. discriminate.
  - vm_compute. reflexivity.
  - eexists. eexists. split; [vm_compute; reflexivity|].
    repeat split; vm_compute; reflexivity.
Qed.

(** The key [_accessControl] is not copied either: the row value stored
    under it is replaced by the access-control map, which is written
    last. *)
Lemma accessControl_key_overwritten :
  lookup_field no_fields "_accessControl" = Falsy
  ∧ ∃ filtered,
      @filterSingleRow Sample.runtime (CellData.store []) [] "u1" "r2"
        [("_accessControl", JString "x")] no_fields "read" ∅ = Returns filtered
      ∧ filtered !! "_accessControl" ≠ Some (Cell (JString "x")).
Proof.
  split; [reflexivity|]. eexists. split; [vm_compute; reflexivity|].
  vm_compute. discriminate.
Qed.

(** What holds of the passthrough: in a row with distinct keys, a key
    other than [_accessControl] that finds nothing in the field map,
    neither a field nor an inherited member, is copied unchanged and has
    no entry in the access-control map, whenever the filter returns. *)
Lemma unknown_field_passthrough {rt : JsRuntime} (db : database)
    (rows : list field_policy_row) (userId resourceId action : string)
    (environment : gmap string string) (fieldMap : field_map)
    (row : list (string * js_value)) (k : string) (v : js_value)
    (filtered : gmap string property) :
  NoDup row.*1 → (k, v) ∈ row →
  lookup_field fieldMap k = Falsy → k ≠ "_accessControl" →
  filterSingleRow db rows userId resourceId row fieldMap action environment
  = Returns filtered →
  filtered !! k = Some (Cell v)
  ∧ ∃ accessLog, filtered !! "_accessControl" = Some (AccessControl accessLog)
                 ∧ accessLog !! k = None.
Proof.
  intros Hnodup Hin Hk Hne. unfold filterSingleRow.
  destruct (for_each _ _ row) as [st|e] eqn:Hrun; [|discriminate].
  simpl. intros [= <-].
  destruct (for_each_unknown_key db rows userId resourceId action environment fieldMap
              row st k v Hnodup Hin Hk Hrun) as [Hcell Hlog].
  split.
  - rewrite lookup_insert_ne by congruence. exact Hcell.
  - exists st.2. split; [apply lookup_insert_eq|exact Hlog].
Qed.

End RowClaims.

(** * Further properties of the resource-level engine *)

Module VerdictFacts.
Import PolicyEngine Spec.

Section Facts.

Context {rt : JsRuntime}.
Variables (db : database) (userAttrs resourceAttrs envAttrs : gmap string string)
          (action : string).

Let m := matches db userAttrs resourceAttrs envAttrs action.

(** A policy the scan passes without ending: its conditions evaluate,
    and if they hold it is not a deny policy. *)
Definition passed (p : policy) : Prop :=
  m p = Returns false ∨ (m p = Returns true ∧ p_effect p ≠ "deny").

(** A verdict [inl d]: [d] is the first matching deny policy. *)
Lemma verdict_inl (rows : list policy) (allowing : option policy) (d : policy) :
  verdict db userAttrs resourceAttrs envAttrs action allowing rows = Returns (inl d) →
  ∃ l1 l2, rows = (l1 ++ d :: l2)%list ∧ Forall passed l1
           ∧ m d = Returns true ∧ p_effect d = "deny".
Proof.
  revert allowing. induction rows as [|p rows IH]; intros allowing; [discriminate|].
  cbn [verdict]. fold m.
  destruct (m p) as [[|]|e] eqn:E; simpl; try discriminate.
  - destruct (String.eqb (p_effect p) "deny") eqn:Ed.
    + intros [= <-]. apply String.eqb_eq in Ed. exists [], rows. auto.
    + apply String.eqb_neq in Ed. intros H.
      assert (∃ l1 l2, rows = (l1 ++ d :: l2)%list ∧ Forall passed l1
                       ∧ m d = Returns true ∧ p_effect d = "deny")
        as (l1 & l2 & -> & Hl1 & Hd) by (destruct allowing; eapply IH; exact H).
      exists (p :: l1), l2. split; [reflexivity|]. split; [|exact Hd].
      constructor; [right; auto|exact Hl1].
  - intros H. destruct (IH _ H) as (l1 & l2 & -> & Hl1 & Hd).
    exists (p :: l1), l2. split; [reflexivity|]. split; [|exact Hd].
    constructor; [left; exact E|exact Hl1].
Qed.

(** A verdict [inr]: every row was passed, and an allow policy recorded
    before the scan stays. *)
Lemma verdict_inr_passed (rows : list policy) (allowing r : option policy) :
  verdict db userAttrs resourceAttrs envAttrs action allowing rows = Returns (inr r) →
  Forall passed rows ∧ (is_Some allowing → r = allowing).
Proof.
  revert allowing. induction rows as [|p rows IH]; intros allowing.
  - intros [= <-]. split; [constructor|reflexivity].
  - cbn [verdict]. fold m.
    destruct (m p) as [[|]|e] eqn:E; simpl; try discriminate.
    + destruct (String.eqb (p_effect p) "deny") eqn:Ed; [discriminate|].
      apply String.eqb_neq in Ed. intros H. destruct allowing as [a|].
      * destruct (IH _ H) as [Hrows Hr]. split; [|exact Hr].
        constructor; [right; auto|exact Hrows].
      * destruct (IH _ H) as [Hrows _]. split; [|intros [? [=]]].
        constructor; [right; auto|exact Hrows].
    + intros H. destruct (IH _ H) as [Hrows Hr]. split; [|exact Hr].
      constructor; [left; exact E|exact Hrows].
Qed.

(** A verdict [inr (Some p)] of a scan started without allow policy: [p]
    is the first matching policy. *)
Lemma verdict_inr_first (rows : list policy) (p : policy) :
  verdict db userAttrs resourceAttrs envAttrs action None rows = Returns (inr (Some p)) →
  ∃ l1 l2, rows = (l1 ++ p :: l2)%list ∧ Forall (fun q => m q = Returns false) l1
           ∧ m p = Returns true ∧ p_effect p ≠ "deny" ∧ Forall passed l2.
Proof.
  induction rows as [|q rows IH]; [discriminate|].
  cbn [verdict]. fold m.
  destruct (m q) as [[|]|e] eqn:E; simpl; try discriminate.
  - destruct (String.eqb (p_effect q) "deny") eqn:Ed; [discriminate|].
    apply String.eqb_neq in Ed. intros H.
    destruct (verdict_inr_passed _ _ _ H) as [Hrows Hr].
    assert (p = q) as -> by (specialize (Hr (mk_is_Some _ _ eq_refl)); congruence).
    exists [], rows. auto.
  - intros H. destruct (IH H) as (l1 & l2 & -> & Hl1 & Hp).
    exists (q :: l1), l2. split; [reflexivity|]. split; [|exact Hp].
    constructor; [exact E|exact Hl1].
Qed.

(** The flag of the verdict, read off the rows as a set: allowed when
    some passed policy matches. *)
Lemma verdict_none_empty (rows : list policy) :
  verdict db userAttrs resourceAttrs envAttrs action None rows = Returns (inr None) →
  Forall (fun q => m q = Returns false) rows.
Proof.
  induction rows as [|q rows IH]; [constructor|].
  cbn [verdict]. fold m.
  destruct (m q) as [[|]|e] eqn:E; simpl; try discriminate.
  - destruct (String.eqb (p_effect q) "deny"); [discriminate|].
    intros H. destruct (verdict_inr_passed _ _ _ H) as [_ Hr].
    specialize (Hr (mk_is_Some _ _ eq_refl)). discriminate Hr.
  - intros H. constructor; [exact E|auto].
Qed.

End Facts.
End VerdictFacts.

Section ResourceExtras.

Import PolicyEngine Spec PolicyEngineFacts VerdictFacts Data.
Context {rt : JsRuntime}.

(** When no condition throws, the flag depends on the rows as a set:
    allowed exactly when some policy matches and no matching policy is a
    deny. *)
Lemma verdict_flag (db : database) (userAttrs resourceAttrs envAttrs : gmap string string)
    (action : string) (rows : list policy) :
  let m := matches db userAttrs resourceAttrs envAttrs action in
  Forall (fun p => ∃ b, m p = Returns b) rows →
  ∃ r, verdict db userAttrs resourceAttrs envAttrs action None rows = Returns r
       ∧ (access_allowed (access_of r) = true
          ↔ (∃ p, p ∈ rows ∧ m p = Returns true)
            ∧ ∀ p, p ∈ rows → m p = Returns true → p_effect p ≠ "deny").
Proof.
  intros m Hall.
  destruct (verdict_returns db userAttrs resourceAttrs envAttrs action rows None Hall)
    as [r Hr].
  exists r. split; [exact Hr|]. destruct r as [d|[p|]]; simpl.
  - apply verdict_inl in Hr as (l1 & l2 & -> & _ & Hm & Hd).
    split; [discriminate|]. intros [_ Hno]. exfalso.
    apply (Hno d); [set_solver|exact Hm|exact Hd].
  - pose proof (verdict_inr_passed _ _ _ _ _ _ _ _ Hr) as [Hpassed _].
    apply verdict_inr_first in Hr as (l1 & l2 & -> & _ & Hm & _).
    split; [intros _|reflexivity]. split; [exists p; split; [set_solver|exact Hm]|].
    intros q Hq Hmq. rewrite Forall_forall in Hpassed.
    destruct (Hpassed q Hq) as [Hf|[_ Hnd]]; [|exact Hnd].
    fold m in Hf. congruence.
  - apply verdict_none_empty in Hr. split; [discriminate|].
    intros [(p & Hp & Hm) _]. rewrite Forall_forall in Hr.
    specialize (Hr p Hp). fold m in Hr. congruence.
Qed.

(** A cited policy is one of the rows. *)
Lemma checkAccess_cites_row (db : database) (clock : gmap string string)
    (rows : list policy) (userId resourceId action : string) (a : access) (p : policy) :
  checkAccess db clock rows userId resourceId action = Returns a →
  access_policy a = Some p → p ∈ rows.
Proof.
  unfold checkAccess.
  destruct (getUserAttributes db userId) as [ua|]; [|intros [= <-]; discriminate].
  destruct (getResourceAttributes db resourceId) as [ra|]; [|intros [= <-]; discriminate].
  rewrite check_scan_verdict.
  destruct (verdict _ _ _ _ _ _ _) as [[d|[q|]]|e] eqn:Hv; simpl;
    try discriminate; intros [= <-]; simpl; try discriminate; intros [= <-].
  - apply verdict_inl in Hv as (l1 & l2 & -> & _). set_solver.
  - apply verdict_inr_first in Hv as (l1 & l2 & -> & _). set_solver.
Qed.

(** [evaluate] and [checkAccess] on an unknown user or resource: the
    answer is a denial that cites no policy, whatever the policy rows
    are, and [evaluate] logs it. *)
Theorem not_found_is_denied (db : database) (clock : gmap string string)
    (rows : list policy) (userId resourceId action : string) :
  getUserAttributes db userId = None ∨ getResourceAttributes db resourceId = None →
  ∃ why, (why = "User not found" ∨ why = "Resource not found")
    ∧ evaluate db clock rows userId resourceId action
      = ((logAndReturn db userId resourceId action false None why).1,
         Returns {| allowed := false; reason := why; policyId := None |})
    ∧ checkAccess db clock rows userId resourceId action
      = Returns {| access_allowed := false; access_reason := why; access_policy := None |}.
Proof.
  intros H. unfold evaluate, checkAccess.
  destruct (getUserAttributes db userId) as [ua|].
  - destruct H as [H|H]; [discriminate|]. rewrite H.
    exists "Resource not found". auto.
  - exists "User not found". auto.
Qed.

(** What [evaluate] leaves in the store: with a decision, one more audit
    row that repeats the request and the decision, and nothing else
    changed; with an exception, the store as it was. *)
Theorem evaluate_logs_its_decision (db : database) (clock : gmap string string)
    (rows : list policy) (userId resourceId action : string) :
  match evaluate db clock rows userId resourceId action with
  | (db', Returns d) =>
      db' = (logAndReturn db userId resourceId action (allowed d) (policyId d) (reason d)).1
      ∧ access_audit_log db'
        = (access_audit_log db
           ++ [ {| l_user_id := userId; l_resource_id := resourceId; l_action := action;
                   l_decision := if allowed d then "allow" else "deny";
                   l_policy_id := policyId d; l_reason := reason d |} ])%list
      ∧ policies db' = policies db ∧ policy_conditions db' = policy_conditions db
      ∧ users db' = users db ∧ user_attributes db' = user_attributes db
      ∧ resources db' = resources db ∧ resource_attributes db' = resource_attributes db
  | (db', Throws _) => db' = db
  end.
Proof.
  unfold evaluate.
  destruct (getUserAttributes db userId) as [ua|]; [|simpl; repeat split].
  destruct (getResourceAttributes db resourceId) as [ra|]; [|simpl; repeat split].
  rewrite evaluate_scan_verdict.
  destruct (verdict _ _ _ _ _ _ _) as [[p|[p|]]|e]; simpl; repeat split.
Qed.

End ResourceExtras.

Section ResourceExtrasWitnessed.

Import PolicyEngine Spec PolicyEngineFacts VerdictFacts Data.

Lemma not_found_is_denied_witness :
  ∃ why, (why = "User not found" ∨ why = "Resource not found")
    ∧ @evaluate Sample.runtime db_X clock [PX; P2; P1] "nobody" "r1" "read"
      = ((logAndReturn db_X "nobody" "r1" "read" false None why).1,
         Returns {| allowed := false; reason := why; policyId := None |})
    ∧ @checkAccess Sample.runtime db_X clock [PX; P2; P1] "nobody" "r1" "read"
      = Returns {| access_allowed := false; access_reason := why; access_policy := None |}.
Proof.
  apply (@not_found_is_denied Sample.runtime db_X clock [PX; P2; P1] "nobody" "r1" "read").
  left. reflexivity.
Defined.

(** An allowance cites the first matching policy of the rows: no row
    before it matches, it is not a deny policy, and no row after it is a
    matching deny policy or throws. *)
Theorem allowed_cites_first_match {rt : JsRuntime} (db : database)
    (clock : gmap string string) (rows : list policy) (userId resourceId action : string)
    (a : access) :
  checkAccess db clock rows userId resourceId action = Returns a →
  access_allowed a = true →
  ∃ userAttrs resourceAttrs p l1 l2,
    getUserAttributes db userId = Some userAttrs
    ∧ getResourceAttributes db resourceId = Some resourceAttrs
    ∧ access_policy a = Some p ∧ rows = (l1 ++ p :: l2)%list
    ∧ let m := matches db userAttrs resourceAttrs (getEnvironmentAttributes db clock) action in
      Forall (fun q => m q = Returns false) l1
      ∧ m p = Returns true ∧ p_effect p ≠ "deny"
      ∧ Forall (fun q => m q = Returns false ∨ (m q = Returns true ∧ p_effect q ≠ "deny")) l2.
Proof.
  unfold checkAccess.
  destruct (getUserAttributes db userId) as [ua|]; [|intros [= <-]; discriminate].
  destruct (getResourceAttributes db resourceId) as [ra|]; [|intros [= <-]; discriminate].
  rewrite check_scan_verdict.
  destruct (verdict _ _ _ _ _ _ _) as [[d|[p|]]|e] eqn:Hv; simpl;
    try discriminate; intros [= <-]; try discriminate. intros _.
  apply verdict_inr_first in Hv as (l1 & l2 & -> & Hl1 & Hm & Hd & Hl2).
  exists ua, ra, p, l1, l2. repeat split; assumption.
Qed.

Lemma allowed_cites_first_match_witness :
  ∃ p l1 l2, Some T2 = Some p ∧ [T2; T1] = (l1 ++ p :: l2)%list.
Proof.
  destruct (@allowed_cites_first_match Sample.runtime db_T clock [T2; T1] "u1" "r1" "read"
              {| access_allowed := true; access_reason := "Allowed by policy: Second";
                 access_policy := Some T2 |})
    as (_ & _ & p & l1 & l2 & _ & _ & Hp & Hrows & _).
  - vm_compute. reflexivity.
  - reflexivity.
  - exists p, l1, l2. split; assumption.
Defined.

(** A denial that cites a policy cites the first matching deny policy of
    the rows; the rows before it were passed without exception. *)
Theorem denied_cites_first_deny {rt : JsRuntime} (db : database)
    (clock : gmap string string) (rows : list policy) (userId resourceId action : string)
    (a : access) (d : policy) :
  checkAccess db clock rows userId resourceId action = Returns a →
  access_policy a = Some d → access_allowed a = false →
  ∃ userAttrs resourceAttrs l1 l2,
    getUserAttributes db userId = Some userAttrs
    ∧ getResourceAttributes db resourceId = Some resourceAttrs
    ∧ rows = (l1 ++ d :: l2)%list
    ∧ let m := matches db userAttrs resourceAttrs (getEnvironmentAttributes db clock) action in
      m d = Returns true ∧ p_effect d = "deny"
      ∧ Forall (fun q => m q = Returns false ∨ (m q = Returns true ∧ p_effect q ≠ "deny")) l1.
Proof.
  unfold checkAccess.
  destruct (getUserAttributes db userId) as [ua|]; [|intros [= <-]; discriminate].
  destruct (getResourceAttributes db resourceId) as [ra|]; [|intros [= <-]; discriminate].
  rewrite check_scan_verdict.
  destruct (verdict _ _ _ _ _ _ _) as [[d'|[p|]]|e] eqn:Hv; simpl;
    try discriminate; intros [= <-]; simpl; try discriminate.
  intros [= <-] _.
  apply verdict_inl in Hv as (l1 & l2 & -> & Hl1 & Hm & Hd).
  exists ua, ra, l1, l2. repeat split; assumption.
Qed.

Lemma denied_cites_first_deny_witness :
  ∃ l1 l2, [P2; P1] = (l1 ++ P2 :: l2)%list.
Proof.
  destruct (@denied_cites_first_deny Sample.runtime db_B clock [P2; P1] "u1" "r1" "read"
              {| access_allowed := false; access_reason := "Denied by policy: Restricted";
                 access_policy := Some P2 |} P2)
    as (_ & _ & l1 & l2 & _ & _ & Hrows & _).
  - vm_compute. reflexivity.
  - reflexivity.
  - reflexivity.
  - exists l1, l2. exact Hrows.
Defined.

(** The order of the rows does not change the flag: when no condition
    throws, two scans of the same policies in different orders both
    answer, with the same flag. *)
Theorem allowed_flag_ignores_order {rt : JsRuntime} (db : database)
    (clock : gmap string string) (rows1 rows2 : list policy)
    (userId resourceId action : string) (userAttrs resourceAttrs : gmap string string) :
  getUserAttributes db userId = Some userAttrs →
  getResourceAttributes db resourceId = Some resourceAttrs →
  rows1 ≡ₚ rows2 →
  Forall (fun p => ∃ b, matches db userAttrs resourceAttrs
                          (getEnvironmentAttributes db clock) action p = Returns b) rows1 →
  ∃ a1 a2, checkAccess db clock rows1 userId resourceId action = Returns a1
           ∧ checkAccess db clock rows2 userId resourceId action = Returns a2
           ∧ access_allowed a1 = access_allowed a2.
Proof.
  intros Hu Hr Hperm Hall1.
  assert (Hall2 := Hall1). rewrite Hperm in Hall2.
  destruct (verdict_flag db userAttrs resourceAttrs (getEnvironmentAttributes db clock)
              action rows1 Hall1) as (r1 & Hv1 & Hf1).
  destruct (verdict_flag db userAttrs resourceAttrs (getEnvironmentAttributes db clock)
              action rows2 Hall2) as (r2 & Hv2 & Hf2).
  unfold checkAccess. rewrite Hu, Hr, !check_scan_verdict, Hv1, Hv2. simpl.
  eexists _, _. split; [reflexivity|]. split; [reflexivity|].
  apply eq_true_iff_eq. rewrite Hf1, Hf2.
  setoid_rewrite Hperm. reflexivity.
Qed.

Lemma allowed_flag_ignores_order_witness :
  ∃ a1 a2, @checkAccess Sample.runtime db_B clock [P2; P1] "u1" "r1" "read" = Returns a1
           ∧ @checkAccess Sample.runtime db_B clock [P1; P2] "u1" "r1" "read" = Returns a2
           ∧ access_allowed a1 = access_allowed a2.
Proof.
  apply (@allowed_flag_ignores_order Sample.runtime db_B clock [P2; P1] [P1; P2]
           "u1" "r1" "read" alice_attrs report_attrs).
  - vm_compute. reflexivity.
  - vm_compute. reflexivity.
  - apply perm_swap.
  - repeat constructor; eexists; vm_compute; reflexivity.
Defined.

(** Only active policies are cited: on rows that answer the query of
    [checkAccess], a cited policy is a row of [policies] with
    [is_active = 1]. *)
Theorem cited_policy_is_active {rt : JsRuntime} (db : database)
    (clock : gmap string string) (rows : list policy) (userId resourceId action : string)
    (a : access) (p : policy) :
  Query.checkAccess_rows db rows →
  checkAccess db clock rows userId resourceId action = Returns a →
  access_policy a = Some p →
  p ∈ policies db ∧ p_is_active p = 1.
Proof.
  intros [Hperm _] Hcheck Hp.
  assert (Hin : p ∈ rows) by (eapply checkAccess_cites_row; eassumption).
  rewrite Hperm in Hin. unfold Query.active_policies in Hin.
  apply list_elem_of_filter in Hin as [Hact Hin]. auto.
Qed.

Lemma cited_policy_is_active_witness :
  P2 ∈ policies db_B ∧ p_is_active P2 = 1.
Proof.
  apply (@cited_policy_is_active Sample.runtime db_B clock [P2; P1] "u1" "r1" "read"
           {| access_allowed := false; access_reason := "Denied by policy: Restricted";
              access_policy := Some P2 |} P2).
  - split; [vm_compute; reflexivity|reflexivity].
  - vm_compute. reflexivity.
  - reflexivity.
Defined.

End ResourceExtrasWitnessed.

(** * Attribute bags and operators *)

Module BagFacts.
Import ObjectFacts.

(** A name no row carries reads from the object the rows are assigned
    to. *)
Lemma assign_rows_other (rows : list attribute) (base : gmap string string) (n : string) :
  n ∉ a_name <$> rows → assign_rows rows base !! n = base !! n.
Proof.
  unfold assign_rows. revert base.
  induction rows as [|a rows IH]; intros base Hn; [reflexivity|].
  rewrite fmap_cons, not_elem_of_cons in Hn. destruct Hn as [Hne Hn]. simpl.
  rewrite IH by exact Hn. apply lookup_assign_ne. congruence.
Qed.

(** Under distinct names every row is read back, but a row named
    [__proto__]. *)
Lemma assign_rows_row (rows : list attribute) (base : gmap string string) (a : attribute) :
  NoDup (a_name <$> rows) → a ∈ rows → a_name a ≠ "__proto__" →
  assign_rows rows base !! a_name a = Some (a_value a).
Proof.
  unfold assign_rows. revert base.
  induction rows as [|b rows IH]; intros base Hnodup Hin Hname; [inversion Hin|].
  rewrite fmap_cons in Hnodup. apply NoDup_cons in Hnodup as [Hfresh Hnodup].
  apply elem_of_cons in Hin as [->|Hin]; simpl.
  - fold (assign_rows rows (Js.assign (a_name b) (a_value b) base)).
    rewrite assign_rows_other by exact Hfresh. apply lookup_assign_eq. exact Hname.
  - apply IH; assumption.
Qed.

(** No row becomes an own property [__proto__]. *)
Lemma assign_rows_proto (rows : list attribute) (base : gmap string string) :
  assign_rows rows base !! "__proto__" = base !! "__proto__".
Proof.
  unfold assign_rows. revert base.
  induction rows as [|a rows IH]; intros base; [reflexivity|]. simpl. rewrite IH.
  destruct (decide (a_name a = "__proto__")) as [->|Hne]; [reflexivity|].
  apply lookup_assign_ne. exact Hne.
Qed.

Lemma rows_of_elem (owner : string) (rows : list attribute) (a : attribute) :
  a ∈ rows_of owner rows ↔ a_owner a = owner ∧ a ∈ rows.
Proof. unfold rows_of. rewrite list_elem_of_filter. reflexivity. Qed.

End BagFacts.

Module JsCaseFacts.

Lemma is_space_lower (c : ascii) : Js.is_space (Js.lower_char c) = Js.is_space c.
Proof. destruct c as [[] [] [] [] [] [] [] []]; reflexivity. Qed.

Lemma comma_lower (c : ascii) : Ascii.eqb (Js.lower_char c) "," = Ascii.eqb c ",".
Proof. destruct c as [[] [] [] [] [] [] [] []]; reflexivity. Qed.

Lemma trimStart_lower (s : string) :
  Js.trimStart (Js.toLowerCase s) = Js.toLowerCase (Js.trimStart s).
Proof.
  induction s as [|c s IH]; [reflexivity|]. simpl. rewrite is_space_lower.
  destruct (Js.is_space c); [exact IH|reflexivity].
Qed.

Lemma trimEnd_lower (s : string) :
  Js.trimEnd (Js.toLowerCase s) = Js.toLowerCase (Js.trimEnd s).
Proof.
  induction s as [|c s IH]; [reflexivity|]. simpl. rewrite IH, is_space_lower.
  destruct (Js.trimEnd s); simpl; [destruct (Js.is_space c)|]; reflexivity.
Qed.

Lemma trim_lower (s : string) : Js.trim (Js.toLowerCase s) = Js.toLowerCase (Js.trim s).
Proof. unfold Js.trim. rewrite trimStart_lower, trimEnd_lower. reflexivity. Qed.

Lemma split_lower (s : string) :
  Js.split "," (Js.toLowerCase s) = map Js.toLowerCase (Js.split "," s).
Proof.
  induction s as [|c s IH]; [reflexivity|]. simpl. rewrite comma_lower, IH.
  destruct (Ascii.eqb c ","); [reflexivity|].
  destruct (Js.split "," s); reflexivity.
Qed.

(** The list the [in] operator searches depends on the expected value
    up to case only. *)
Lemma in_list_lower (b : string) :
  map (fun s => Js.toLowerCase (Js.trim s)) (Js.split "," b)
  = map Js.trim (Js.split "," (Js.toLowerCase b)).
Proof.
  rewrite split_lower, map_map. apply map_ext. intros s. symmetry. apply trim_lower.
Qed.

End JsCaseFacts.

Section BagExtras.

Import PolicyEngine ObjectFacts BagFacts Data.

(** The bag of a user, as a condition reads it: under the uniqueness of
    [(user_id, attribute_name)], every attribute row of the user reads
    back with its stored value (also under the names [id], [username] and
    [email], which it then shadows), but a row named [__proto__], which is
    not stored: this name reads the prototype of the bag.  A name that is
    neither a built-in nor the name of a row of this user reads what
    [Object.prototype] has under it, whatever other users carry:
    [undefined], unless it is the name of a member ([constructor],
    [toString], ...). *)
Theorem user_bag (db : database) (userId : string) (bag : gmap string string) :
  getUserAttributes db userId = Some bag →
  NoDup (a_name <$> rows_of userId (user_attributes db)) →
  (∀ a, a ∈ user_attributes db → a_owner a = userId → a_name a ≠ "__proto__" →
        Js.get bag (a_name a) = Some (a_value a))
  ∧ Js.get bag "__proto__" = Some "[object Object]"
  ∧ (∀ n, n ∉ a_name <$> rows_of userId (user_attributes db) →
          n ≠ "id" → n ≠ "username" → n ≠ "email" → Js.get bag n = Js.inherited n)
  ∧ ("id" ∉ a_name <$> rows_of userId (user_attributes db) →
     Js.get bag "id" = Some userId).
Proof.
  unfold getUserAttributes.
  destruct (find _ (users db)) as [u|] eqn:Hfind; [|discriminate].
  apply find_some in Hfind as [_ Hid]. apply String.eqb_eq in Hid.
  intros [= <-] Hnodup. repeat split.
  - intros a Ha Howner Hname. apply get_own. apply assign_rows_row; [exact Hnodup| |exact Hname].
    apply rows_of_elem. auto.
  - rewrite get_inherited; [reflexivity|]. rewrite assign_rows_proto.
    destruct (u_email u); rewrite ?lookup_insert_ne by discriminate; apply lookup_empty.
  - intros n Hn H1 H2 H3. apply get_inherited. rewrite assign_rows_other by exact Hn.
    destruct (u_email u); rewrite ?lookup_insert_ne by congruence; apply lookup_empty.
  - intros Hn. apply get_own. rewrite assign_rows_other by exact Hn.
    destruct (u_email u); rewrite ?lookup_insert_ne by discriminate;
      rewrite lookup_insert_eq; congruence.
Qed.

Lemma user_bag_witness :
  Js.get alice_attrs "clearance" = Some "3" ∧ Js.get alice_attrs "manager" = None
  ∧ Js.get alice_attrs "constructor" = Some "function Object() { [native code] }"
  ∧ Js.get alice_attrs "id" = Some "u1".
Proof.
  destruct (user_bag db_B "u1" alice_attrs) as (Hrow & _ & Hnone & Hid).
  - vm_compute. reflexivity.
  - apply (bool_decide_unpack _). vm_compute. reflexivity.
  - split; [|split; [|split]].
    + apply (Hrow {| a_owner := "u1"; a_name := "clearance"; a_value := "3" |});
        [|reflexivity|discriminate].
      apply list_elem_of_further, list_elem_of_here.
    + rewrite Hnone; [reflexivity| |discriminate..].
      apply (bool_decide_unpack _). vm_compute. reflexivity.
    + rewrite Hnone; [reflexivity| |discriminate..].
      apply (bool_decide_unpack _). vm_compute. reflexivity.
    + apply Hid. apply (bool_decide_unpack _). vm_compute. reflexivity.
Defined.

(** The environment bag, as a condition reads it: under the uniqueness
    of the stored names, a stored environment attribute replaces the clock
    entry of the same name ([current_hour], say), but one named
    [__proto__], which is not stored; a name that is not stored reads as
    in the clock entries. *)
Theorem environment_bag (db : database) (clock : gmap string string) :
  NoDup (environment_attributes db).*1 →
  (∀ n v, (n, v) ∈ environment_attributes db → n ≠ "__proto__" →
          Js.get (getEnvironmentAttributes db clock) n = Some v)
  ∧ Js.get (getEnvironmentAttributes db clock) "__proto__" = Js.get clock "__proto__"
  ∧ (∀ n, n ∉ (environment_attributes db).*1 →
          Js.get (getEnvironmentAttributes db clock) n = Js.get clock n).
Proof.
  unfold getEnvironmentAttributes. generalize (environment_attributes db) as rows.
  intros rows. revert clock. induction rows as [|[k w] rows IH]; intros clock Hnodup.
  - repeat split. intros n v Hin. inversion Hin.
  - rewrite fmap_cons in Hnodup. apply NoDup_cons in Hnodup as [Hfresh Hnodup].
    destruct (IH (Js.assign k w clock) Hnodup) as (Hstored & Hproto & Hother).
    simpl. repeat split.
    + intros n v Hin Hn. apply elem_of_cons in Hin as [[= -> ->]|Hin]; [|auto].
      rewrite Hother by exact Hfresh. apply get_own. apply lookup_assign_eq. exact Hn.
    + rewrite Hproto. unfold Js.get.
      destruct (decide (k = "__proto__")) as [->|Hne]; [reflexivity|].
      rewrite lookup_assign_ne by exact Hne. reflexivity.
    + intros n Hn. apply not_elem_of_cons in Hn as [Hne Hn].
      rewrite Hother by exact Hn. unfold Js.get. rewrite lookup_assign_ne; [reflexivity|].
      simpl in Hne. congruence.
Qed.

Lemma environment_bag_witness :
  Js.get (getEnvironmentAttributes db_E clock) "current_hour" = Some "23"
  ∧ Js.get (getEnvironmentAttributes db_E clock) "current_day" = Some "monday".
Proof.
  destruct (environment_bag db_E clock) as (Hstored & _ & Hother).
  - apply NoDup_singleton.
  - split.
    + apply Hstored; [apply list_elem_of_here|discriminate].
    + rewrite Hother; [reflexivity|].
      change ("current_day" ∉ ["current_hour"]). rewrite list_elem_of_singleton.
      discriminate.
Defined.

End BagExtras.

Module EveryFacts.

(** [every] over callbacks that do not throw is the conjunction. *)
Lemma every_spec {A : Type} (f : A → outcome bool) (l : list A) :
  Forall (fun x => ∃ b, f x = Returns b) l →
  ∃ b, every f l = Returns b ∧ (b = true ↔ Forall (fun x => f x = Returns true) l).
Proof.
  induction l as [|x l IH]; intros Hall.
  - exists true. split; [reflexivity|]. split; [constructor|reflexivity].
  - apply Forall_cons in Hall as [[b Hb] Hall]. destruct (IH Hall) as (b' & Hb' & Hiff).
    simpl. rewrite Hb. simpl. destruct b.
    + exists b'. split; [exact Hb'|]. rewrite Hiff. split.
      * intros H. constructor; assumption.
      * intros H. apply Forall_cons in H as [_ H]. exact H.
    + exists false. split; [reflexivity|]. split; [discriminate|].
      intros H. apply Forall_cons in H as [H _]. congruence.
Qed.

(** [every] on one element is the callback. *)
Lemma every_one {A : Type} (f : A → outcome bool) (x : A) : every f [x] = f x.
Proof. simpl. destruct (f x) as [[|]|e]; reflexivity. Qed.

End EveryFacts.

Section OperatorExtras.

Import PolicyEngine EveryFacts JsCaseFacts.

(** The string operators of the resource-level engine ignore case on
    both sides: [equals], [not_equals], [contains] and [in] (each item of
    the comma-separated list included) give the same answer on values
    that differ in case only. *)
Theorem string_operators_ignore_case {rt : JsRuntime} (name : string)
    (operator : string → string → outcome bool) (a a' b b' : string) :
  name ∈ ["equals"; "not_equals"; "contains"; "in"] →
  operators name = Some operator →
  Js.toLowerCase a = Js.toLowerCase a' → Js.toLowerCase b = Js.toLowerCase b' →
  operator a b = operator a' b'.
Proof.
  intros Hname Hop Ha Hb.
  repeat (apply elem_of_cons in Hname as [->|Hname]);
    [| | | |inversion Hname];
    injection Hop as <-; rewrite ?in_list_lower, Ha, Hb; reflexivity.
Qed.

Lemma string_operators_ignore_case_witness :
  ∃ operator, @operators Sample.runtime "in" = Some operator
    ∧ operator "Engineering" "HR, engineering" = operator "ENGINEERING" "hr, Engineering".
Proof.
  eexists. split; [reflexivity|].
  apply (@string_operators_ignore_case Sample.runtime "in");
    [|reflexivity..].
  apply list_elem_of_further, list_elem_of_further, list_elem_of_further,
    list_elem_of_here.
Defined.

(** The conditions of a policy are conjoined: when no condition throws,
    a policy matches exactly when it has at least one condition and each
    of its conditions, taken alone, holds; the order of the conditions is
    then irrelevant. *)
Theorem conditions_are_conjoined {rt : JsRuntime} (conditions : list condition)
    (userAttrs resourceAttrs envAttrs : gmap string string) (action : string) :
  let alone c := evaluateConditions [c] userAttrs resourceAttrs envAttrs action in
  Forall (fun c => ∃ b, alone c = Returns b) conditions →
  ∃ b, evaluateConditions conditions userAttrs resourceAttrs envAttrs action = Returns b
       ∧ (b = true ↔ conditions ≠ [] ∧ Forall (fun c => alone c = Returns true) conditions).
Proof.
  intros alone Hall.
  destruct conditions as [|c0 cs]; [exists false; split; [reflexivity|]|].
  { split; [discriminate|]. intros [H _]. congruence. }
  subst alone. unfold evaluateConditions in *.
  change (Z.of_nat (length (c0 :: cs)) =? 0) with false.
  cbv beta iota in *.
  match goal with |- context [every ?g _] => set (f := g) in * end.
  assert (Hone : ∀ c, (if Z.of_nat (length [c]) =? 0 then Returns false else every f [c])
                      = f c) by (intros c; apply every_one).
  setoid_rewrite Hone in Hall. setoid_rewrite Hone.
  destruct (every_spec f (c0 :: cs) Hall) as (b & Hb & Hiff).
  exists b. split; [exact Hb|]. rewrite Hiff. split; [intros H; split; [discriminate|exact H]|].
  intros [_ H]. exact H.
Qed.

Lemma conditions_are_conjoined_witness :
  ∃ b, @evaluateConditions Sample.runtime (conditions_of Data.db_B "P2")
         Data.alice_attrs Data.report_attrs Data.clock "read" = Returns b.
Proof.
  destruct (@conditions_are_conjoined Sample.runtime (conditions_of Data.db_B "P2")
              Data.alice_attrs Data.report_attrs Data.clock "read") as (b & Hb & _).
  - repeat constructor; eexists; vm_compute; reflexivity.
  - exists b. exact Hb.
Defined.

End OperatorExtras.

(** * Further properties of the field-level engine *)

Module FieldScanMore.
Import CellPolicyEngine Spec FieldScanFacts.

Section Facts.

Context {rt : JsRuntime}.
Variable ctx : context.

Ltac by_effect p :=
  let Ed := fresh "Ed" in let Er := fresh "Er" in
  let Em := fresh "Em" in let Ea := fresh "Ea" in
  destruct (String.eqb (fp_effect (row p)) DENY) eqn:Ed;
  [apply String.eqb_eq in Ed|apply String.eqb_neq in Ed;
   destruct (String.eqb (fp_effect (row p)) REDACT) eqn:Er;
   [apply String.eqb_eq in Er|apply String.eqb_neq in Er;
    destruct (String.eqb (fp_effect (row p)) MASK) eqn:Em;
    [apply String.eqb_eq in Em|apply String.eqb_neq in Em;
     destruct (String.eqb (fp_effect (row p)) ALLOW) eqn:Ea;
     [apply String.eqb_eq in Ea|apply String.eqb_neq in Ea]]]].

(** What a matching deny or redact policy returns. *)
Definition ended_by (t : field_policy) : field_access :=
  if String.eqb (fp_effect (row t)) DENY then denied_by t else redacted_by t.

(** The first matching deny or redact policy decides, whatever was
    recorded before it and whatever follows. *)
Lemma field_scan_first_terminal (acc : field_access) (l1 l2 : list field_policy)
    (t : field_policy) :
  Forall (fun p => ¬ terminal ctx p) l1 → terminal ctx t →
  field_scan ctx acc (l1 ++ t :: l2) = ended_by t.
Proof.
  intros Hl1 [Hm Ht]. revert acc. induction l1 as [|p l1 IH]; intros acc.
  - simpl. rewrite Hm. unfold ended_by.
    destruct Ht as [-> | ->]; reflexivity.
  - apply Forall_cons in Hl1 as [Hp Hl1]. rewrite <- app_comm_cons. simpl.
    destruct (evaluatePolicyConditions p ctx) eqn:Hc; [|apply IH; exact Hl1].
    unfold terminal in Hp.
    by_effect p; try (exfalso; apply Hp; auto; fail); apply IH; exact Hl1.
Qed.

(** Policies that do not match leave the accumulator alone. *)
Lemma field_scan_no_match (acc : field_access) (ps : list field_policy) :
  Forall (fun p => evaluatePolicyConditions p ctx = false) ps →
  field_scan ctx acc ps = acc.
Proof.
  induction ps as [|p ps IH]; intros Hall; [reflexivity|].
  apply Forall_cons in Hall as [Hp Hall]. simpl. rewrite Hp. auto.
Qed.

(** The effect stays among the four of the [EFFECTS] table. *)
Definition known_effect (e : string) : Prop :=
  e = ALLOW ∨ e = DENY ∨ e = MASK ∨ e = REDACT.

Lemma field_scan_known_effect (acc : field_access) (ps : list field_policy) :
  known_effect (effect acc) → known_effect (effect (field_scan ctx acc ps)).
Proof.
  unfold known_effect.
  revert acc. induction ps as [|p ps IH]; intros acc Hacc; [exact Hacc|]. simpl.
  destruct (evaluatePolicyConditions p ctx); [|auto].
  by_effect p; simpl; auto.
  - rewrite andb_false_r. apply IH. simpl. auto.
  - destruct (negb _); apply IH; simpl; auto.
Qed.

(** A result without cited policy is the accumulator the scan started
    from. *)
Lemma field_scan_cites (acc : field_access) (ps : list field_policy) :
  field_scan ctx acc ps = acc
  ∨ ∃ p, p ∈ ps ∧ evaluatePolicyConditions p ctx = true
         ∧ policy_of (field_scan ctx acc ps) = Some p
         ∧ effect (field_scan ctx acc ps) = fp_effect (row p).
Proof.
  revert acc. induction ps as [|p ps IH]; intros acc; [left; reflexivity|]. simpl.
  destruct (evaluatePolicyConditions p ctx) eqn:Hc.
  - assert (Hnext : ∀ acc', acc' = acc
                      ∨ (policy_of acc' = Some p ∧ effect acc' = fp_effect (row p)) →
              field_scan ctx acc' ps = acc
              ∨ ∃ q, q ∈ p :: ps ∧ evaluatePolicyConditions q ctx = true
                     ∧ policy_of (field_scan ctx acc' ps) = Some q
                     ∧ effect (field_scan ctx acc' ps) = fp_effect (row q)).
    { intros acc' Hacc'. destruct (IH acc') as [Heq|(q & Hq & Hmq & Hpq)].
      - rewrite Heq. destruct Hacc' as [->|[H1 H2]]; [left; reflexivity|].
        right. exists p. split; [apply list_elem_of_here|]. auto.
      - right. exists q. split; [apply list_elem_of_further; exact Hq|]. auto. }
    by_effect p.
    + right. exists p. split; [apply list_elem_of_here|]. simpl. auto.
    + right. exists p. split; [apply list_elem_of_here|]. simpl. auto.
    + simpl. rewrite andb_false_r. apply Hnext. right. simpl. auto.
    + simpl. destruct (negb _); apply Hnext; [right; simpl; auto|left; reflexivity].
    + simpl. apply Hnext. left. reflexivity.
  - destruct (IH acc) as [Heq|(q & Hq & Hmq & Hpq)]; [left; exact Heq|].
    right. exists q. split; [apply list_elem_of_further; exact Hq|]. auto.
Qed.

(** The result allow, read backwards: no matching policy was a deny, a
    redact or a mask. *)
Lemma field_scan_allow_inv (acc : field_access) (ps : list field_policy) :
  effect (field_scan ctx acc ps) = ALLOW →
  Forall (fun p => ¬ terminal ctx p) ps ∧ filter (matching ctx MASK) ps = [].
Proof.
  revert acc. induction ps as [|p ps IH]; intros acc; [split; [constructor|reflexivity]|].
  simpl. rewrite filter_cons.
  destruct (evaluatePolicyConditions p ctx) eqn:Hc.
  - by_effect p; simpl; try discriminate.
    + rewrite andb_false_r. intros H. exfalso.
      revert H. apply field_scan_from_mask. reflexivity.
    + intros H. destruct (IH _ H) as [Hterm Hmask]. split.
      * constructor; [|exact Hterm]. intros [_ [Hd'|Hr']]; congruence.
      * rewrite decide_False by (intros [_ Hm']; congruence). exact Hmask.
    + intros H. destruct (IH _ H) as [Hterm Hmask]. split.
      * constructor; [|exact Hterm]. intros [_ [Hd'|Hr']]; congruence.
      * rewrite decide_False by (intros [_ Hm']; congruence). exact Hmask.
  - intros H. destruct (IH _ H) as [Hterm Hmask]. split.
    + constructor; [|exact Hterm]. intros [Hm' _]. congruence.
    + rewrite decide_False by (intros [Hm' _]; congruence). exact Hmask.
Qed.

(** With neither a deny, a redact nor a mask among the matching
    policies, the last matching allow policy is the one returned. *)
Lemma field_scan_last_allow (acc : field_access) (ps : list field_policy) :
  effect acc ≠ MASK →
  Forall (fun p => ¬ terminal ctx p) ps → filter (matching ctx MASK) ps = [] →
  field_scan ctx acc ps
  = match last (filter (matching ctx ALLOW) ps) with
    | Some a => allowed_by a
    | None => acc
    end.
Proof.
  revert acc. induction ps as [|p ps IH]; intros acc Hacc Hterm Hmask; [reflexivity|].
  apply Forall_cons in Hterm as [Hp Hterm]. rewrite filter_cons in Hmask.
  simpl. rewrite filter_cons. unfold terminal in Hp.
  destruct (evaluatePolicyConditions p ctx) eqn:Hc.
  - by_effect p; try (exfalso; apply Hp; auto; fail).
    + rewrite decide_True in Hmask by (split; assumption). discriminate.
    + rewrite decide_False in Hmask by (intros [_ H]; congruence).
      rewrite decide_True by (split; assumption). simpl.
      apply String.eqb_neq in Hacc. rewrite Hacc. simpl.
      rewrite IH by (simpl; try discriminate; assumption).
      rewrite last_cons. destruct (last (filter (matching ctx ALLOW) ps)); reflexivity.
    + rewrite decide_False in Hmask by (intros [_ H]; congruence).
      rewrite decide_False by (intros [_ H]; congruence). simpl.
      apply IH; assumption.
  - rewrite decide_False in Hmask by (intros [H _]; congruence).
    rewrite decide_False by (intros [H _]; congruence). apply IH; assumption.
Qed.

End Facts.
End FieldScanMore.

Section FieldExtras.

Import CellPolicyEngine Spec FieldScanFacts FieldScanMore CellData.

(** The first matching deny or redact policy of the scanned list decides:
    what matched before it is discarded and nothing after it is looked at.
    A redact scanned before a deny wins over it. *)
Theorem first_deny_or_redact_decides {rt : JsRuntime} (db : database)
    (rows : list field_policy_row) (userId resourceId fieldId action : string)
    (environment : gmap string string) (res : resource) (fld : resource_field)
    (l1 l2 : list field_policy) (t : field_policy) :
  find (fun r => String.eqb (r_id r) resourceId) (resources db) = Some res →
  find (fun f => String.eqb (f_id f) fieldId) (resource_fields db) = Some fld →
  let ctx := field_context db userId resourceId fieldId res fld action environment in
  getFieldPolicies db rows = (l1 ++ t :: l2)%list →
  Forall (fun p => ¬ terminal ctx p) l1 → terminal ctx t →
  evaluateFieldAccess db rows userId resourceId fieldId action environment = ended_by t.
Proof.
  intros Hres Hfld ctx Hps Hl1 Ht.
  unfold evaluateFieldAccess. rewrite Hres, Hfld, Hps.
  apply field_scan_first_terminal; assumption.
Qed.

Lemma first_deny_or_redact_decides_witness :
  let db := store_with [M; R] [not_hr "M"; low_clearance "R"] in
  @evaluateFieldAccess Sample.runtime db [M; R] "u2" "r2" "f1" "read" ∅
  = redacted_by {| row := R; conditions := [fpc_condition (low_clearance "R")] |}.
Proof.
  intros db.
  apply (@first_deny_or_redact_decides Sample.runtime db [M; R] "u2" "r2" "f1" "read" ∅
           employees ssn_field
           [{| row := M; conditions := [fpc_condition (not_hr "M")] |}] []
           {| row := R; conditions := [fpc_condition (low_clearance "R")] |}).
  - reflexivity.
  - reflexivity.
  - reflexivity.
  - repeat constructor. intros [_ [H|H]]; discriminate H.
  - split; [vm_compute; reflexivity|right; reflexivity].
Defined.

(** Default deny of the field engine: when the resource or the field is
    unknown, or when no listed policy matches, the field is denied and no
    policy is cited. *)
Theorem field_default_deny {rt : JsRuntime} (db : database)
    (rows : list field_policy_row) (userId resourceId fieldId action : string)
    (environment : gmap string string) :
  (∀ res fld,
     find (fun r => String.eqb (r_id r) resourceId) (resources db) = Some res →
     find (fun f => String.eqb (f_id f) fieldId) (resource_fields db) = Some fld →
     Forall (fun p => evaluatePolicyConditions p
                        (field_context db userId resourceId fieldId res fld action environment)
                      = false)
            (getFieldPolicies db rows)) →
  let r := evaluateFieldAccess db rows userId resourceId fieldId action environment in
  effect r = DENY ∧ policy_of r = None ∧ maskValue r = None
  ∧ (reason_of r = "Resource not found" ∨ reason_of r = "Field not found"
     ∨ reason_of r = "No matching allow policy").
Proof.
  intros Hnone. unfold evaluateFieldAccess.
  destruct (find _ (resources db)) as [res|]; [|simpl; repeat split; auto].
  destruct (find _ (resource_fields db)) as [fld|]; [|simpl; repeat split; auto].
  rewrite field_scan_no_match by (apply Hnone; reflexivity). simpl. repeat split; auto.
Qed.

Lemma field_default_deny_witness :
  effect (@evaluateFieldAccess Sample.runtime (store [A]) [A] "u1" "r2" "nofield" "read" ∅)
  = DENY.
Proof.
  apply (@field_default_deny Sample.runtime (store [A]) [A] "u1" "r2" "nofield" "read" ∅).
  intros res fld _ Hfld. discriminate Hfld.
Defined.

(** The result allow means that no matching policy denies, redacts or
    masks, and it cites the matching allow policy scanned last (the
    resource-level engine cites the first). *)
Theorem field_allow_is_last_allow {rt : JsRuntime} (db : database)
    (rows : list field_policy_row) (userId resourceId fieldId action : string)
    (environment : gmap string string) :
  effect (evaluateFieldAccess db rows userId resourceId fieldId action environment) = ALLOW →
  ∃ res fld a,
    find (fun r => String.eqb (r_id r) resourceId) (resources db) = Some res
    ∧ find (fun f => String.eqb (f_id f) fieldId) (resource_fields db) = Some fld
    ∧ let ctx := field_context db userId resourceId fieldId res fld action environment in
      Forall (fun p => ¬ terminal ctx p) (getFieldPolicies db rows)
      ∧ filter (matching ctx MASK) (getFieldPolicies db rows) = []
      ∧ last (filter (matching ctx ALLOW) (getFieldPolicies db rows)) = Some a
      ∧ evaluateFieldAccess db rows userId resourceId fieldId action environment
        = allowed_by a.
Proof.
  unfold evaluateFieldAccess.
  destruct (find _ (resources db)) as [res|]; [|discriminate].
  destruct (find _ (resource_fields db)) as [fld|]; [|discriminate].
  intros Hallow. destruct (field_scan_allow_inv _ _ _ Hallow) as [Hterm Hmask].
  rewrite field_scan_last_allow in Hallow |- * by (try discriminate; assumption).
  destruct (last _) as [a|] eqn:Hlast; [|discriminate Hallow].
  exists res, fld, a. repeat split; assumption.
Qed.

Lemma field_allow_is_last_allow_witness :
  ∃ a, @evaluateFieldAccess Sample.runtime (store [A]) [A] "u1" "r2" "f1" "read" ∅
       = allowed_by a.
Proof.
  destruct (@field_allow_is_last_allow Sample.runtime (store [A]) [A] "u1" "r2" "f1"
              "read" ∅) as (_ & _ & a & _ & _ & _ & _ & _ & H).
  - vm_compute. reflexivity.
  - exists a. exact H.
Defined.

(** The effect returned is one of the four of the [EFFECTS] table,
    whatever the stored policies carry; a result that cites a policy has
    the effect of this policy, which is one of the listed policies, and a
    result that cites none is a denial. *)
Theorem field_effect_is_known {rt : JsRuntime} (db : database)
    (rows : list field_policy_row) (userId resourceId fieldId action : string)
    (environment : gmap string string) :
  let r := evaluateFieldAccess db rows userId resourceId fieldId action environment in
  known_effect (effect r)
  ∧ match policy_of r with
    | Some p => p ∈ getFieldPolicies db rows ∧ effect r = fp_effect (row p)
    | None => effect r = DENY
    end.
Proof.
  unfold evaluateFieldAccess, known_effect.
  destruct (find _ (resources db)) as [res|]; [|simpl; auto].
  destruct (find _ (resource_fields db)) as [fld|]; [|simpl; auto].
  set (ctx := field_context _ _ _ _ _ _ _ _). split.
  - apply field_scan_known_effect. unfold known_effect. simpl. auto.
  - destruct (field_scan_cites ctx no_match (getFieldPolicies db rows))
      as [->|(p & Hp & _ & -> & He)]; [reflexivity|auto].
Qed.

(** A cited policy is one of the listed policies. *)
Lemma evaluateFieldAccess_cites {rt : JsRuntime} (db : database)
    (rows : list field_policy_row) (userId resourceId fieldId action : string)
    (environment : gmap string string) (p : field_policy) :
  policy_of (evaluateFieldAccess db rows userId resourceId fieldId action environment)
  = Some p →
  p ∈ getFieldPolicies db rows.
Proof.
  unfold evaluateFieldAccess.
  destruct (find _ (resources db)) as [res|]; [|discriminate].
  destruct (find _ (resource_fields db)) as [fld|]; [|discriminate].
  set (ctx := field_context _ _ _ _ _ _ _ _).
  destruct (field_scan_cites ctx no_match (getFieldPolicies db rows))
    as [->|(q & Hq & _ & -> & _)]; [discriminate|].
  intros [= <-]. exact Hq.
Qed.

(** Only candidates are cited: on rows that answer the query of
    [getFieldPolicies], the cited policy is a stored, active field policy,
    it is unscoped or scoped to the resource type asked for (when one is
    asked for), and it carries its own stored conditions. *)
Theorem cited_field_policy_is_candidate {rt : JsRuntime} (db : database)
    (resourceType : option string) (rows : list field_policy_row)
    (userId resourceId fieldId action : string) (environment : gmap string string)
    (p : field_policy) :
  Query.getFieldPolicies_rows db resourceType rows →
  policy_of (evaluateFieldAccess db rows userId resourceId fieldId action environment)
  = Some p →
  row p ∈ field_policies db ∧ fp_is_active (row p) = 1
  ∧ (Js.truthy resourceType = true →
     fp_resource_type (row p) = None ∨ fp_resource_type (row p) = resourceType)
  ∧ conditions p
    = map fpc_condition
        (filter (fun c => fpc_policy_id c = fp_id (row p)) (field_policy_conditions db)).
Proof.
  intros [Hperm _] Hcited.
  apply evaluateFieldAccess_cites in Hcited as Haux. unfold getFieldPolicies in Haux.
  apply list_elem_of_fmap in Haux as (r & -> & Hr). simpl.
  rewrite Hperm in Hr. unfold field_policy_candidates in Hr.
  apply list_elem_of_filter in Hr as [[Hact Htype] Hr]. auto.
Qed.

End FieldExtras.

Section FieldExtrasMore.

Import CellPolicyEngine Spec FieldScanFacts FieldScanMore CellData.

Lemma cited_field_policy_is_candidate_witness :
  M ∈ field_policies (store [M]) ∧ fp_is_active M = 1.
Proof.
  destruct (@cited_field_policy_is_candidate Sample.runtime (store [M])
              (Some "employee_records") [M] "u1" "r2" "f1" "read" ∅
              {| row := M; conditions := [fpc_condition (not_hr "M")] |})
    as (Hin & Hact & _).
  - split; [vm_compute; reflexivity|reflexivity].
  - vm_compute. reflexivity.
  - split; assumption.
Defined.

(** A user without attribute rows (an unknown user among them: the field
    engine does not look the user up) is evaluated with an empty bag, and
    no policy matches that has a condition on a user attribute, unless the
    attribute has the name of a member of [Object.prototype], which the
    empty bag inherits. *)
Theorem user_without_attributes {rt : JsRuntime} (db : database)
    (userId resourceId fieldId action : string) (environment : gmap string string)
    (res : resource) (fld : resource_field) (p : field_policy) (c : field_condition) :
  rows_of userId (user_attributes db) = [] →
  c ∈ conditions p → fc_subject_type c = "user" →
  Js.inherited (fc_attribute_name c) = None →
  evaluatePolicyConditions p
    (field_context db userId resourceId fieldId res fld action environment) = false.
Proof.
  intros Hrows Hc Hsubject Hname. unfold evaluatePolicyConditions.
  destruct (conditions p) as [|c0 cs] eqn:Hcs; [inversion Hc|].
  change (Z.of_nat (length (c0 :: cs)) =? 0) with false. cbv iota.
  match goal with |- (if ?b then _ else _) = _ => destruct b end; [|reflexivity].
  apply not_true_is_false. intros Hall. rewrite forallb_forall in Hall.
  apply list_elem_of_In in Hc. specialize (Hall c Hc).
  unfold evaluateCondition, actualValue, field_context in Hall. simpl in Hall.
  rewrite Hsubject, Hrows in Hall. simpl in Hall.
  unfold assign_rows, Js.get in Hall. simpl in Hall.
  rewrite lookup_empty, Hname in Hall. discriminate Hall.
Qed.

Lemma user_without_attributes_witness :
  @evaluatePolicyConditions Sample.runtime
    {| row := M; conditions := [fpc_condition (not_hr "M")] |}
    (field_context (store [M]) "stranger" "r2" "f1" employees ssn_field "read" ∅) = false.
Proof.
  apply (@user_without_attributes Sample.runtime (store [M]) "stranger" "r2" "f1" "read" ∅
           employees ssn_field _ (fpc_condition (not_hr "M"))).
  - reflexivity.
  - apply list_elem_of_here.
  - reflexivity.
  - reflexivity.
Defined.

End FieldExtrasMore.

(** * Further properties of row filtering *)

Section RowExtras.

Import CellPolicyEngine RowFilter ObjectFacts RowFilterFacts CellData.

(** A schema field of the row follows the effect of its own access
    decision: allow copies the value, mask stores the masked value, redact
    stores the redaction text, deny leaves the key out; the effect is
    recorded under the field name in the access-control map.  This holds
    for a row with distinct keys, none of which finds in the field map a
    value that is no field (a member of [Object.prototype]: the filter
    then throws on a known resource), and for a field name other than
    [_accessControl] and [__proto__]. *)
Theorem schema_field_follows_effect {rt : JsRuntime} (db : database)
    (rows : list field_policy_row) (userId resourceId action : string)
    (environment : gmap string string) (fieldMap : field_map)
    (row : list (string * js_value)) (k : string) (v : js_value) (field : resource_field) :
  NoDup row.*1 → (k, v) ∈ row →
  Forall (fun e => lookup_field fieldMap e.1 ≠ Foreign) row →
  lookup_field fieldMap k = Field field → k ≠ "_accessControl" → k ≠ "__proto__" →
  let access := evaluateFieldAccess db rows userId resourceId (f_id field)
                  action environment in
  ∃ filtered,
    filterSingleRow db rows userId resourceId row fieldMap action environment
    = Returns filtered
    ∧ (effect access = ALLOW → filtered !! k = Some (Cell v))
    ∧ (effect access = MASK →
       filtered !! k
       = Some (Cell (Mask.applyMask v (f_field_type field) (maskValue access))))
    ∧ (effect access = REDACT →
       filtered !! k
       = Some (Cell (JString (if Js.truthy (maskValue access)
                              then default "" (maskValue access)
                              else "***REDACTED***"))))
    ∧ (effect access = DENY → filtered !! k = None)
    ∧ ∃ accessLog, filtered !! "_accessControl" = Some (AccessControl accessLog)
                   ∧ accessLog !! k = Some (effect access).
Proof.
  intros Hnodup Hin Hrow Hf Hne Hproto access. unfold filterSingleRow.
  destruct (for_each_returns db rows userId resourceId action environment fieldMap
              row (∅, ∅) Hrow) as [st Hrun].
  rewrite Hrun. simpl. eexists. split; [reflexivity|].
  destruct (for_each_key db rows userId resourceId action environment fieldMap
              row _ _ k v Hnodup Hin Hrun) as (d & Hd & Hcell & Hlog).
  rewrite (turn_field _ _ _ _ _ _ _ _ _ Hf) in Hd. injection Hd as <-.
  fold access in Hcell, Hlog. simpl in Hcell, Hlog.
  rewrite lookup_assign_eq in Hlog by exact Hproto.
  rewrite !lookup_insert_ne by congruence. rewrite Hcell.
  unfold filtered_cell. repeat split.
  - intros ->. simpl. apply lookup_assign_eq. exact Hproto.
  - intros ->. simpl. apply lookup_assign_eq. exact Hproto.
  - intros ->. simpl. apply lookup_assign_eq. exact Hproto.
  - intros ->. simpl. apply lookup_empty.
  - exists st.2. split; [apply lookup_insert_eq|exact Hlog].
Qed.

Lemma schema_field_follows_effect_witness :
  let db := store [M] in
  ∃ filtered,
    @filterSingleRow Sample.runtime db [M] "u1" "r2"
      [("ssn", JString "123-45-6789"); ("note", JString "hello")]
      (fieldMap_of db "r2") "read" ∅ = Returns filtered
    ∧ filtered !! "ssn" = Some (Cell (JString "***-**-6789")).
Proof.
  intros db.
  destruct (@schema_field_follows_effect Sample.runtime db [M] "u1" "r2" "read" ∅
              (fieldMap_of db "r2")
              [("ssn", JString "123-45-6789"); ("note", JString "hello")]
              "ssn" (JString "123-45-6789") ssn_field)
    as (filtered & Hrun & _ & Hmask & _).
  - apply NoDup_cons. split; [|apply NoDup_singleton].
    rewrite list_elem_of_singleton. discriminate.
  - apply list_elem_of_here.
  - repeat constructor; discriminate.
  - reflexivity.
  - discriminate.
  - discriminate.
  - exists filtered. split; [exact Hrun|].
    rewrite Hmask by (vm_compute; reflexivity). vm_compute. reflexivity.
Defined.

(** The filter adds no field: whenever it returns, besides
    [_accessControl], a key that the input row lacks is absent from the
    output, and from the access-control map. *)
Theorem no_field_added {rt : JsRuntime} (db : database)
    (rows : list field_policy_row) (userId resourceId action : string)
    (environment : gmap string string) (fieldMap : field_map)
    (row : list (string * js_value)) (k : string) (filtered : gmap string property) :
  k ∉ row.*1 → k ≠ "_accessControl" →
  filterSingleRow db rows userId resourceId row fieldMap action environment
  = Returns filtered →
  filtered !! k = None
  ∧ ∃ accessLog, filtered !! "_accessControl" = Some (AccessControl accessLog)
                 ∧ accessLog !! k = None.
Proof.
  intros Hk Hne. unfold filterSingleRow.
  destruct (for_each _ _ row) as [st|e] eqn:Hrun; [|discriminate].
  simpl. intros [= <-].
  destruct (for_each_other db rows userId resourceId action environment fieldMap
              row _ _ k Hrun Hk) as [Hcell Hlog].
  split.
  - rewrite lookup_insert_ne by congruence. rewrite Hcell. apply lookup_empty.
  - exists st.2. split; [apply lookup_insert_eq|]. rewrite Hlog. apply lookup_empty.
Qed.

Lemma no_field_added_witness :
  let db := store [M] in
  ∃ filtered,
    @filterSingleRow Sample.runtime db [M] "u1" "r2" [("ssn", JString "123-45-6789")]
      (fieldMap_of db "r2") "read" ∅ = Returns filtered
    ∧ filtered !! "salary" = None.
Proof.
  intros db. eexists. split; [vm_compute; reflexivity|].
  eapply (@no_field_added Sample.runtime db [M] "u1" "r2" "read" ∅ (fieldMap_of db "r2")
            [("ssn", JString "123-45-6789")] "salary").
  - change ("salary" ∉ ["ssn"]). rewrite list_elem_of_singleton. discriminate.
  - discriminate.
  - vm_compute. reflexivity.
Defined.

End RowExtras.

(** * Further properties of masking *)

Module MaskFacts.
Import Mask.

(** The field types that have a masking strategy of their own. *)
Definition named_types : list (option string) :=
  [Some "ssn"; Some "credit_card"; Some "phone"; Some "email"; Some "salary";
   Some "currency"].

(** The [default] branch of the [switch] of [applyMask]. *)
Definition generic_mask (strValue : string) : string :=
  if Js.length strValue <=? 2 then "***"
  else default "" (Js.at_ strValue 0)
       ++ Js.repeat "*" (Z.to_nat (Z.min (Js.length strValue - 2) 5))
       ++ default "" (Js.at_ strValue (Js.length strValue - 1)).

Ltac walk_switch :=
  cbv beta iota;
  first
    [ reflexivity
    | congruence
    | match goal with
      | |- context [match ?b with true => _ | false => _ end] =>
          is_var b; destruct b; walk_switch
      | |- context [match ?c with Ascii _ _ _ _ _ _ _ _ => _ end] =>
          is_var c; destruct c; walk_switch
      | |- context [match ?s with EmptyString => _ | String _ _ => _ end] =>
          is_var s; destruct s; walk_switch
      end ].

(** Any other field type, or none, falls to the [default] branch. *)
Lemma applyMask_default {rt : JsRuntime} (s : string) (fieldType maskPattern : option string) :
  Js.truthy maskPattern = false → fieldType ∉ named_types →
  applyMask (JString s) fieldType maskPattern = JString (generic_mask s).
Proof.
  intros Hmask Hnot. unfold named_types in Hnot.
  rewrite !not_elem_of_cons in Hnot.
  destruct Hnot as (H1 & H2 & H3 & H4 & H5 & H6 & _).
  unfold applyMask. rewrite Hmask. unfold generic_mask.
  destruct (Js.length s <=? 2);
    (destruct fieldType as [t|]; [|reflexivity]; revert H1 H2 H3 H4 H5 H6;
     generalize t; clear; intros t; walk_switch).
Qed.

End MaskFacts.

Module StringFacts.

Lemma append_cons (c : ascii) (s t : string) : String c s ++ t = String c (s ++ t).
Proof. reflexivity. Qed.

Lemma append_nil (t : string) : "" ++ t = t.
Proof. reflexivity. Qed.

Lemma length_app (s t : string) :
  String.length (s ++ t) = (String.length s + String.length t)%nat.
Proof.
  induction s as [|c s IH]; [reflexivity|].
  rewrite append_cons. simpl. rewrite IH. reflexivity.
Qed.

Lemma length_repeat (c : ascii) (n : nat) : String.length (Js.repeat c n) = n.
Proof. induction n as [|n IH]; simpl; congruence. Qed.

(** A string that is not empty ends with a character. *)
Lemma snoc (s : string) :
  s ≠ "" → ∃ init last, s = init ++ String last "".
Proof.
  induction s as [|c s IH]; [congruence|]. intros _.
  destruct s as [|d s].
  - exists "", c. reflexivity.
  - destruct IH as (init & last & Heq); [discriminate|].
    exists (String c init), last. rewrite append_cons, <- Heq. reflexivity.
Qed.

Lemma get_app_length (s : string) (c : ascii) (t : string) :
  String.get (String.length s) (s ++ String c t) = Some c.
Proof.
  induction s as [|d s IH]; [reflexivity|]. rewrite append_cons. simpl. exact IH.
Qed.

Lemma drop_app_length (s t : string) : Js.drop (String.length s) (s ++ t) = t.
Proof.
  induction s as [|d s IH]; [destruct t; reflexivity|]. rewrite append_cons. simpl. exact IH.
Qed.

(** The index of the first ["@"] of a string whose part before it has
    none. *)
Lemma indexOf_app (s t : string) (c : ascii) :
  Js.indexOf s c = -1 →
  Js.indexOf (s ++ String c t) c = Z.of_nat (String.length s).
Proof.
  induction s as [|d s IH]; intros Hnone.
  - rewrite append_nil. simpl. rewrite Ascii.eqb_refl. reflexivity.
  - rewrite append_cons. simpl in *.
    destruct (Ascii.eqb d c); [discriminate|].
    destruct (Js.indexOf s c <? 0) eqn:Hneg.
    + assert (Hs : Js.indexOf s c = -1).
      { clear -Hneg. induction s as [|e s IHs]; [reflexivity|]. simpl in *.
        destruct (Ascii.eqb e c); [discriminate|].
        destruct (Js.indexOf s c <? 0); [reflexivity|]. apply Z.ltb_lt in Hneg.
        exfalso. clear -Hneg. assert (0 ≤ Js.indexOf s c ∨ Js.indexOf s c = -1) by
          (induction s as [|e s IHs]; simpl; [lia|];
           destruct (Ascii.eqb e c); [lia|]; destruct (Js.indexOf s c <? 0); lia).
        lia. }
      rewrite (IH Hs). replace (Z.of_nat (String.length s) <? 0) with false by lia. lia.
    + apply Z.ltb_ge in Hneg. lia.
Qed.

Lemma indexOf_range (s : string) (c : ascii) :
  Js.indexOf s c = -1 ∨ 0 ≤ Js.indexOf s c.
Proof.
  induction s as [|e s IH]; simpl; [lia|].
  destruct (Ascii.eqb e c); [lia|]. destruct (Js.indexOf s c <? 0); lia.
Qed.

End StringFacts.

Section MaskExtras.

Import Mask MaskFacts StringFacts.

(** Card numbers and phone numbers are masked as social security numbers
    are: with no mask text from the policy, a string of at least 4
    characters becomes the fixed prefix of its type followed by its last 4
    characters, and a shorter one the fixed constant of its type. *)
Theorem applyMask_last4 {rt : JsRuntime} (s type prefix constant : string) (maskPattern : option string) :
  (type, prefix, constant)
  ∈ [("credit_card", "****-****-****-", "****-****-****-****");
     ("phone", "(***) ***-", "(***) ***-****")] →
  Js.truthy maskPattern = false →
  ((4 ≤ String.length s)%nat →
   ∃ pre last4, s = pre ++ last4 ∧ String.length last4 = 4%nat
     ∧ applyMask (JString s) (Some type) maskPattern = JString (prefix ++ last4))
  ∧ ((String.length s < 4)%nat →
     applyMask (JString s) (Some type) maskPattern = JString constant).
Proof.
  intros Htype Hmask.
  assert (Hcase : applyMask (JString s) (Some type) maskPattern
                  = if Js.length s >=? 4 then JString (prefix ++ Js.slice s (-4))
                    else JString constant).
  { unfold applyMask. rewrite Hmask.
    repeat (apply elem_of_cons in Htype as [[= -> -> ->]|Htype]); [reflexivity..|].
    inversion Htype. }
  rewrite Hcase. split.
  - intros Hlen.
    destruct (JsFacts.slice_last 4 s) as (pre & Hpre & Hlast); [lia|exact Hlen|].
    exists pre, (Js.slice s (-4)). repeat split; [exact Hpre|exact Hlast|].
    replace (Js.length s >=? 4) with true; [reflexivity|].
    symmetry. apply Z.geb_le. unfold Js.length. lia.
  - intros Hlen.
    replace (Js.length s >=? 4) with false; [reflexivity|].
    symmetry. rewrite Z.geb_leb. apply Z.leb_gt. unfold Js.length. lia.
Qed.

Lemma applyMask_last4_witness :
  @applyMask Sample.runtime (JString "12") (Some "phone") None = JString "(***) ***-****".
Proof.
  apply (@applyMask_last4 Sample.runtime "12" "phone" "(***) ***-" "(***) ***-****" None).
  - apply list_elem_of_further, list_elem_of_here.
  - reflexivity.
  - simpl. lia.
Defined.

(** E-mail addresses keep their domain and lose their local part: with
    no mask text from the policy, [local@rest] (a local part that is not
    empty, cut at its first ["@"]) becomes [****@rest]; a string without
    ["@"], or one that starts with it, becomes the constant
    ["****@****.***"]. *)
Theorem applyMask_email {rt : JsRuntime} (s : string) (maskPattern : option string) :
  Js.truthy maskPattern = false →
  (∀ local rest, s = local ++ String "@" rest → local ≠ "" → Js.indexOf local "@" = -1 →
     applyMask (JString s) (Some "email") maskPattern = JString ("****@" ++ rest))
  ∧ (Js.indexOf s "@" ≤ 0 →
     applyMask (JString s) (Some "email") maskPattern = JString "****@****.***").
Proof.
  intros Hmask. unfold applyMask. rewrite Hmask. split.
  - intros local rest -> Hlocal Hnone.
    rewrite (indexOf_app local rest "@" Hnone).
    assert (0 < String.length local)%nat by (destruct local; [congruence|simpl; lia]).
    replace (Z.of_nat (String.length local) >? 0) with true by lia.
    unfold Js.slice, Js.length.
    replace (Z.of_nat (String.length local) <? 0) with false by lia.
    rewrite length_app. rewrite Z.min_l by lia. rewrite Nat2Z.id.
    rewrite drop_app_length. reflexivity.
  - intros Hle. replace (Js.indexOf s "@" >? 0) with false by lia. reflexivity.
Qed.

Lemma applyMask_email_witness :
  @applyMask Sample.runtime (JString "john.smith@company.com") (Some "email") None
  = JString "****@company.com".
Proof.
  destruct (@applyMask_email Sample.runtime "john.smith@company.com" None) as [Hkeep _]; [reflexivity|].
  apply (Hkeep "john.smith" "company.com"); [reflexivity|discriminate|reflexivity].
Defined.

(** A masked salary or amount is one of four fixed texts: no digit of the
    value is ever shown, only its bracket. *)
Theorem applyMask_salary {rt : JsRuntime} (s type : string) (maskPattern : option string) :
  type ∈ ["salary"; "currency"] → Js.truthy maskPattern = false →
  applyMask (JString s) (Some type) maskPattern
  ∈ [JString "$***,***"; JString "$***,*** (<50k)"; JString "$***,*** (50k-100k)";
     JString "$***,*** (>100k)"].
Proof.
  intros Htype Hmask.
  assert (Hcase : applyMask (JString s) (Some type) maskPattern
                  = match parseFloat_text (keep_numeric s) with
                    | None => JString "$***,***"
                    | Some num =>
                        JString ("$***,*** ("
                                 ++ (if Number_lt num "50000" then "<50k"
                                     else if Number_lt num "100000" then "50k-100k"
                                          else ">100k")
                                 ++ ")")
                    end).
  { unfold applyMask. rewrite Hmask.
    repeat (apply elem_of_cons in Htype as [->|Htype]); [reflexivity..|].
    inversion Htype. }
  rewrite Hcase. destruct (parseFloat_text _) as [num|]; [|apply list_elem_of_here].
  destruct (Number_lt num "50000"); [apply list_elem_of_further, list_elem_of_here|].
  destruct (Number_lt num "100000").
  - apply list_elem_of_further, list_elem_of_further, list_elem_of_here.
  - apply list_elem_of_further, list_elem_of_further, list_elem_of_further,
      list_elem_of_here.
Qed.

Lemma applyMask_salary_witness :
  @applyMask Sample.runtime (JString "$85,000") (Some "salary") None
  ∈ [JString "$***,***"; JString "$***,*** (<50k)"; JString "$***,*** (50k-100k)";
     JString "$***,*** (>100k)"].
Proof.
  apply (@applyMask_salary Sample.runtime "$85,000" "salary" None); [apply list_elem_of_here|reflexivity].
Defined.

(** A field type without strategy of its own (or no type) gets the
    generic mask: ["***"] for a string of at most 2 characters, otherwise
    the first character, one star for each inner character up to 5, and the
    last character; the result never has more than 7 characters. *)
Theorem applyMask_generic {rt : JsRuntime} (s : string) (fieldType maskPattern : option string) :
  Js.truthy maskPattern = false → fieldType ∉ named_types →
  ∃ out, applyMask (JString s) fieldType maskPattern = JString out
    ∧ (String.length out ≤ 7)%nat
    ∧ ((String.length s ≤ 2)%nat → out = "***")
    ∧ ∀ first mid last, s = String first (mid ++ String last "") → mid ≠ "" →
        out = String first (Js.repeat "*" (Nat.min (String.length mid) 5) ++ String last "").
Proof.
  intros Hmask Htype. rewrite (applyMask_default s fieldType maskPattern Hmask Htype).
  exists (generic_mask s). split; [reflexivity|]. unfold generic_mask, Js.length.
  destruct (Z.of_nat (String.length s) <=? 2) eqn:Hshort.
  - apply Z.leb_le in Hshort. repeat split; [simpl; lia|].
    intros first mid last -> Hmid. exfalso.
    simpl in Hshort. rewrite length_app in Hshort. simpl in Hshort.
    destruct mid; [congruence|simpl in Hshort; lia].
  - apply Z.leb_gt in Hshort.
    assert (Hs : s ≠ "") by (intros ->; simpl in Hshort; lia).
    destruct s as [|first s']; [congruence|].
    assert (Hs' : s' ≠ "") by (intros ->; simpl in Hshort; lia).
    destruct (snoc s' Hs') as (mid & last & ->).
    assert (Hlen : String.length (String first (mid ++ String last ""))
                   = S (S (String.length mid))).
    { simpl. rewrite length_app. simpl. lia. }
    assert (Hout : default "" (Js.at_ (String first (mid ++ String last "")) 0)
                   ++ Js.repeat "*"
                        (Z.to_nat (Z.min (Z.of_nat (String.length
                           (String first (mid ++ String last ""))) - 2) 5))
                   ++ default "" (Js.at_ (String first (mid ++ String last ""))
                        (Z.of_nat (String.length (String first (mid ++ String last ""))) - 1))
                   = String first (Js.repeat "*" (Nat.min (String.length mid) 5)
                                   ++ String last "")).
    { rewrite Hlen. unfold Js.at_.
      replace (Z.of_nat (S (S (String.length mid))) - 1 <? 0) with false
        by (symmetry; apply Z.ltb_ge; lia).
      replace (Z.to_nat (Z.of_nat (S (S (String.length mid))) - 1))
        with (S (String.length mid)) by lia.
      replace (Z.to_nat (Z.min (Z.of_nat (S (S (String.length mid))) - 2) 5))
        with (Nat.min (String.length mid) 5) by lia.
      simpl String.get. rewrite get_app_length. reflexivity. }
    rewrite Hout. repeat split.
    + simpl. rewrite length_app, length_repeat. simpl. lia.
    + intros Hle. rewrite Hlen in Hle. lia.
    + intros first' mid' last' Heq _. injection Heq as -> Heq.
      assert (Hlens : String.length (mid ++ String last "")
                      = String.length (mid' ++ String last' "")) by congruence.
      rewrite !length_app in Hlens. simpl in Hlens.
      assert (Hmid : String.length mid = String.length mid') by lia.
      assert (Hlast : last = last').
      { pose proof (get_app_length mid last "") as H1.
        pose proof (get_app_length mid' last' "") as H2.
        rewrite Heq, Hmid in H1. congruence. }
      rewrite Hmid, Hlast. reflexivity.
Qed.

Lemma applyMask_generic_witness :
  ∃ out, @applyMask Sample.runtime (JString "Engineering") (Some "string") None = JString out
         ∧ (String.length out ≤ 7)%nat.
Proof.
  destruct (@applyMask_generic Sample.runtime "Engineering" (Some "string") None) as (out & H1 & H2 & _).
  - reflexivity.
  - unfold named_types. rewrite !not_elem_of_cons. repeat split; try discriminate.
    apply not_elem_of_nil.
  - exists out. split; assumption.
Defined.

End MaskExtras.

(** * Further properties of the data functions of the field engine *)

Module OutcomeFacts.

Lemma bind_assoc {A B C : Type} (m : outcome A) (f : A → outcome B) (g : B → outcome C) :
  bind (bind m f) g = bind m (fun a => bind (f a) g).
Proof. destruct m; reflexivity. Qed.

End OutcomeFacts.

Module RowOrderFacts.
Import CellPolicyEngine RowFilter ObjectFacts RowFilterFacts OutcomeFacts.

Section Facts.

Context {rt : JsRuntime}.
Variables (db : database) (rows : list field_policy_row)
          (userId resourceId action : string) (environment : gmap string string)
          (fieldMap : field_map).

Let step := filter_entry db rows userId resourceId action environment fieldMap.

(** Two turns of the loop on entries with different keys commute: the
    assignments do, and either turn throws in both orders or in none. *)
Lemma filter_entry_comm (st : gmap string property * gmap string string)
    (e1 e2 : string * js_value) :
  e1.1 ≠ e2.1 →
  (st' <- step st e1 ;; step st' e2) = (st' <- step st e2 ;; step st' e1).
Proof.
  destruct e1 as [k1 v1], e2 as [k2 v2]. simpl. intros Hne. unfold step.
  rewrite (filter_entry_turn _ _ _ _ _ _ _ st k1 v1).
  rewrite (filter_entry_turn _ _ _ _ _ _ _ st k2 v2).
  destruct (turn db rows userId resourceId action environment fieldMap k1)
    as [d1|err1] eqn:E1;
    destruct (turn db rows userId resourceId action environment fieldMap k2)
      as [d2|err2] eqn:E2;
    simpl; rewrite ?filter_entry_turn, ?E1, ?E2; simpl.
  - f_equal. apply update_commute. congruence.
  - reflexivity.
  - reflexivity.
  - apply turn_throws in E1 as [-> _]. apply turn_throws in E2 as [-> _]. reflexivity.
Qed.

Lemma for_each_permutation (l l' : list (string * js_value)) :
  l ≡ₚ l' → NoDup l.*1 →
  ∀ st, for_each step st l = for_each step st l'.
Proof.
  induction 1 as [|e l l' Hperm IH|e1 e2 l|l l' l'' H1 IH1 H2 IH2]; intros Hnodup st.
  - reflexivity.
  - rewrite fmap_cons in Hnodup. apply NoDup_cons in Hnodup as [_ Hnodup].
    simpl. destruct (step st e); simpl; [apply IH; exact Hnodup|reflexivity].
  - rewrite !fmap_cons in Hnodup. apply NoDup_cons in Hnodup as [Hne _].
    apply not_elem_of_cons in Hne as [Hne _].
    cbn [for_each]. rewrite <- !bind_assoc.
    rewrite (filter_entry_comm st e2 e1) by congruence. reflexivity.
  - rewrite IH1 by exact Hnodup. apply IH2. rewrite <- H1. exact Hnodup.
Qed.

End Facts.
End RowOrderFacts.

Module FieldMapFacts.
Import RowFilter ObjectFacts.

Section Facts.

Context {V : Type} (key : resource_field → string) (val : resource_field → V).

Let put (obj : gmap string V) (f : resource_field) : gmap string V :=
  Js.assign (key f) (val f) obj.

(** A loop of assignments leaves the keys it does not assign. *)
Lemma foldl_assign_other (l : list resource_field) (obj : gmap string V) (k : string) :
  k ∉ key <$> l → foldl put obj l !! k = obj !! k.
Proof.
  revert obj. induction l as [|a l IH]; intros obj Hk; [reflexivity|].
  apply not_elem_of_cons in Hk as [Hne Hk]. simpl. rewrite IH by exact Hk.
  apply lookup_assign_ne. congruence.
Qed.

(** With distinct keys, every assignment of the loop is read back, but
    one to [__proto__]. *)
Lemma foldl_assign_elem (l : list resource_field) (obj : gmap string V)
    (a : resource_field) :
  NoDup (key <$> l) → a ∈ l → key a ≠ "__proto__" →
  foldl put obj l !! key a = Some (val a).
Proof.
  revert obj. induction l as [|b l IH]; intros obj Hnodup Ha Hkey; [inversion Ha|].
  rewrite fmap_cons in Hnodup. apply NoDup_cons in Hnodup as [Hfresh Hnodup].
  apply elem_of_cons in Ha as [->|Ha]; simpl.
  - rewrite foldl_assign_other by exact Hfresh. apply lookup_assign_eq. exact Hkey.
  - apply IH; assumption.
Qed.

End Facts.

(** The own properties of the field map are assigned as those of any
    object; the prototype changes with a field named [__proto__] only. *)
Lemma fields_of_foldl (l : list resource_field) (fieldMap : field_map) :
  fields_of (foldl add_field fieldMap l)
  = foldl (fun obj f => Js.assign (f_field_name f) f obj) (fields_of fieldMap) l.
Proof.
  revert fieldMap. induction l as [|f l IH]; intros fieldMap; [reflexivity|].
  simpl. rewrite IH. f_equal. unfold add_field, Js.assign.
  destruct (String.eqb (f_field_name f) "__proto__"); reflexivity.
Qed.

Lemma prototype_of_foldl (l : list resource_field) (fieldMap : field_map) :
  "__proto__" ∉ f_field_name <$> l →
  prototype_of (foldl add_field fieldMap l) = prototype_of fieldMap.
Proof.
  revert fieldMap. induction l as [|f l IH]; intros fieldMap Hl; [reflexivity|].
  apply not_elem_of_cons in Hl as [Hne Hl]. simpl. rewrite IH by exact Hl.
  unfold add_field. replace (String.eqb (f_field_name f) "__proto__") with false;
    [reflexivity|]. symmetry. apply String.eqb_neq. congruence.
Qed.

(** A field found in the field map is one of the fields it was built
    from, under its own name. *)
Lemma lookup_field_foldl (l : list resource_field) (fieldMap : field_map)
    (k : string) (field : resource_field) :
  lookup_field (foldl add_field fieldMap l) k = Field field →
  lookup_field fieldMap k = Field field ∨ (field ∈ l ∧ f_field_name field = k).
Proof.
  revert fieldMap. induction l as [|f l IH]; intros fieldMap Hk; [left; exact Hk|].
  simpl in Hk. destruct (IH _ Hk) as [Hadd|[Hin Hname]].
  - unfold add_field, lookup_field in Hadd.
    destruct (String.eqb (f_field_name f) "__proto__") eqn:Hproto; simpl in Hadd.
    + apply String.eqb_eq in Hproto.
      destruct (fields_of fieldMap !! k) as [own|] eqn:Hown.
      * left. unfold lookup_field. rewrite Hown. exact Hadd.
      * destruct (String.eqb k "__proto__") eqn:Hkp.
        -- apply String.eqb_eq in Hkp. injection Hadd as <-. right.
           split; [apply list_elem_of_here|congruence].
        -- exfalso. unfold string_member in Hadd.
           repeat (match type of Hadd with
                   | (if ?b then _ else _) = _ => destruct b
                   end); discriminate.
    + destruct (decide (f_field_name f = k)) as [Hfk|Hfk].
      * rewrite Hfk, lookup_insert_eq in Hadd. injection Hadd as <-. right.
        split; [apply list_elem_of_here|exact Hfk].
      * rewrite lookup_insert_ne in Hadd by exact Hfk. left. exact Hadd.
  - right. split; [apply list_elem_of_further; exact Hin|exact Hname].
Qed.

Lemma lookup_field_no_fields (k : string) (field : resource_field) :
  lookup_field no_fields k ≠ Field field.
Proof.
  unfold lookup_field, no_fields, string_member. simpl. rewrite lookup_empty.
  destruct (Js.truthy _); discriminate.
Qed.

Lemma lookup_field_own (fieldMap : field_map) (k : string) (field : resource_field) :
  fields_of fieldMap !! k = Some field → lookup_field fieldMap k = Field field.
Proof. intros H. unfold lookup_field. rewrite H. reflexivity. Qed.

Lemma lookup_field_none (fieldMap : field_map) (k : string) :
  fields_of fieldMap !! k = None → prototype_of fieldMap = None →
  Js.inherited k = None → lookup_field fieldMap k = Falsy.
Proof. intros H1 H2 H3. unfold lookup_field. rewrite H1, H2, H3. reflexivity. Qed.

End FieldMapFacts.

Module FilterRowsFacts.
Import CellPolicyEngine RowFilter ResourceData.

Section Facts.

Context {rt : JsRuntime}.
Variables (db : database) (rows : list field_policy_row)
          (userId resourceId action : string) (environment : gmap string string)
          (fieldMap : field_map).

Let one (row : list (string * js_value)) : outcome (gmap string property) :=
  filterSingleRow db rows userId resourceId row fieldMap action environment.

(** When every row is filtered without exception, the rows are returned
    one for one, in order. *)
Lemma filter_rows_returns (l : list (list (string * js_value))) :
  Forall (fun row => ∃ filtered, one row = Returns filtered) l →
  ∃ filteredRows,
    filter_rows db rows userId resourceId fieldMap action environment l
    = Returns filteredRows
    ∧ Forall2 (fun row filtered => one row = Returns filtered) l filteredRows.
Proof.
  unfold filter_rows.
  assert (Hgen : ∀ acc,
            Forall (fun row => ∃ filtered, one row = Returns filtered) l →
            ∃ filteredRows,
              for_each (fun filteredRows row =>
                          filteredRow <- one row ;;
                          Returns (filteredRows ++ [filteredRow])%list) acc l
              = Returns (acc ++ filteredRows)%list
              ∧ Forall2 (fun row filtered => one row = Returns filtered) l filteredRows).
  { induction l as [|row l IH]; intros acc Hl.
    - exists []. rewrite app_nil_r. split; [reflexivity|constructor].
    - apply Forall_cons in Hl as [[filtered Hrow] Hl]. simpl. rewrite Hrow. simpl.
      destruct (IH (acc ++ [filtered])%list Hl) as (rest & Hrun & Hall).
      exists (filtered :: rest). rewrite Hrun, <- app_assoc. split; [reflexivity|].
      constructor; assumption. }
  intros Hl. destruct (Hgen [] Hl) as (filteredRows & Hrun & Hall).
  exists filteredRows. split; [exact Hrun|exact Hall].
Qed.

End Facts.
End FilterRowsFacts.

Section DataExtras.

Import CellPolicyEngine RowFilter ObjectFacts RowFilterFacts RowOrderFacts.
Import FieldMapFacts FilterRowsFacts ResourceData CellData.

(** The filtered row does not depend on the order in which the entries of
    the input row are visited, as long as its keys are distinct (the keys
    of an object are): the same row is returned, or the same exception
    thrown. *)
Theorem row_order_is_irrelevant {rt : JsRuntime} (db : database)
    (rows : list field_policy_row) (userId resourceId action : string)
    (environment : gmap string string) (fieldMap : field_map)
    (row row' : list (string * js_value)) :
  row ≡ₚ row' → NoDup row.*1 →
  filterSingleRow db rows userId resourceId row fieldMap action environment
  = filterSingleRow db rows userId resourceId row' fieldMap action environment.
Proof.
  intros Hperm Hnodup. unfold filterSingleRow.
  rewrite (for_each_permutation db rows userId resourceId action environment fieldMap
             row row' Hperm Hnodup).
  reflexivity.
Qed.

Lemma row_order_is_irrelevant_witness :
  let db := store [M] in
  @filterSingleRow Sample.runtime db [M] "u1" "r2"
    [("ssn", JString "123-45-6789"); ("note", JString "hello")]
    (fieldMap_of db "r2") "read" ∅
  = @filterSingleRow Sample.runtime db [M] "u1" "r2"
      [("note", JString "hello"); ("ssn", JString "123-45-6789")]
      (fieldMap_of db "r2") "read" ∅.
Proof.
  intros db.
  apply (@row_order_is_irrelevant Sample.runtime db [M] "u1" "r2" "read" ∅
           (fieldMap_of db "r2")).
  - apply perm_swap.
  - apply NoDup_cons. split; [|apply NoDup_singleton].
    rewrite list_elem_of_singleton. discriminate.
Defined.

(** What [getFilteredResourceData] returns for a resource whose field
    names are distinct (the schema makes them so) and are none of
    [_row_id], [_accessControl] and [__proto__]: it returns, with one row
    for each row id, in order; the row carries its row id, and under each
    field name the stored cell ([null] when there is none) as the decision
    on this field lets it through: copied, masked, replaced by the
    redaction text, or left out. *)
Theorem stored_cell_follows_effect {rt : JsRuntime} (db : database)
    (cells : list resource_datum) (rows : list field_policy_row) (rowIds : list string)
    (userId resourceId action : string) (environment : gmap string string) :
  let fields := filter (fun f => f_resource_id f = resourceId) (resource_fields db) in
  fields ≠ [] → NoDup (f_field_name <$> fields) →
  "_row_id" ∉ f_field_name <$> fields → "_accessControl" ∉ f_field_name <$> fields →
  "__proto__" ∉ f_field_name <$> fields →
  ∃ result,
    getFilteredResourceData db cells rows rowIds userId resourceId action environment
    = Returns result
    ∧ fr_totalRows result = Some (List.length rowIds)
    ∧ List.length (fr_rows result) = List.length rowIds
    ∧ ∀ i row_id, rowIds !! i = Some row_id →
        ∃ row, fr_rows result !! i = Some row
               ∧ row !! "_row_id" = Some (Cell (JString row_id))
               ∧ ∀ field, field ∈ fields →
                   row !! f_field_name field
                   = filtered_cell (f_field_type field)
                       (cell_of cells resourceId (f_id field) row_id)
                       (evaluateFieldAccess db rows userId resourceId (f_id field)
                          action environment).
Proof.
  intros fields Hsome Hnodup Hrow_id Hlog Hproto.
  unfold getFilteredResourceData. cbv zeta. fold fields.
  destruct fields as [|f0 fs] eqn:Hfields; [congruence|]. rewrite <- Hfields in *.
  replace (Z.of_nat (List.length fields) =? 0) with false
    by (rewrite Hfields; reflexivity).
  set (fieldMap := foldl add_field no_fields fields).
  set (built := build_row cells resourceId fields).
  assert (Hproto_of : prototype_of fieldMap = None).
  { unfold fieldMap. rewrite prototype_of_foldl by exact Hproto. reflexivity. }
  assert (Hown : ∀ field, field ∈ fields →
                   lookup_field fieldMap (f_field_name field) = Field field).
  { intros field Hfield. apply lookup_field_own. unfold fieldMap.
    rewrite fields_of_foldl.
    apply (foldl_assign_elem f_field_name (fun f => f)); [exact Hnodup|exact Hfield|].
    intros Hname. apply Hproto. rewrite <- Hname. apply list_elem_of_fmap.
    exists field. auto. }
  assert (Hid : lookup_field fieldMap "_row_id" = Falsy).
  { apply lookup_field_none; [|exact Hproto_of|reflexivity]. unfold fieldMap.
    rewrite fields_of_foldl.
    rewrite (foldl_assign_other f_field_name (fun f => f)) by exact Hrow_id.
    apply lookup_empty. }
  assert (Hkeys : ∀ row_id k v, (k, v) ∈ map_to_list (built row_id) →
                    k = "_row_id" ∨ k ∈ f_field_name <$> fields).
  { intros row_id k v Hin. apply elem_of_map_to_list in Hin.
    destruct (decide (k ∈ f_field_name <$> fields)) as [Hk|Hk]; [right; exact Hk|].
    left. unfold built, build_row in Hin.
    rewrite (foldl_assign_other f_field_name
               (fun f => cell_of cells resourceId (f_id f) row_id)) in Hin by exact Hk.
    apply lookup_singleton_Some in Hin as [Hin _]. congruence. }
  assert (Hplain : ∀ row_id,
            Forall (fun e => lookup_field fieldMap e.1 ≠ Foreign)
                   (map_to_list (built row_id))).
  { intros row_id. apply Forall_forall. intros [k v] Hin. simpl.
    destruct (Hkeys row_id k v Hin) as [->|Hk]; [rewrite Hid; discriminate|].
    apply list_elem_of_fmap in Hk as (field & -> & Hfield).
    rewrite (Hown field Hfield). discriminate. }
  destruct (filter_rows_returns db rows userId resourceId action environment fieldMap
              (map map_to_list (map built rowIds)))
    as (filteredRows & Hrun & Hall).
  { apply Forall_forall. intros row Hrow.
    apply list_elem_of_fmap in Hrow as (obj & -> & Hobj).
    apply list_elem_of_fmap in Hobj as (row_id & -> & _).
    unfold filterSingleRow.
    destruct (for_each_returns db rows userId resourceId action environment fieldMap
                _ (∅, ∅) (Hplain row_id)) as [st Hst].
    rewrite Hst. simpl. eauto. }
  rewrite Hrun. simpl. eexists. split; [reflexivity|].
  cbn [fr_totalRows fr_rows]. rewrite length_map.
  assert (Hlen : List.length filteredRows = List.length rowIds).
  { apply Forall2_length in Hall. rewrite !length_map in Hall. congruence. }
  split; [reflexivity|]. split; [exact Hlen|]. intros i row_id Hi.
  assert (Hith : map map_to_list (map built rowIds) !! i
                 = Some (map_to_list (built row_id))).
  { change (map map_to_list (map built rowIds)) with (map_to_list <$> (built <$> rowIds)).
    rewrite !list_lookup_fmap, Hi. reflexivity. }
  destruct (Forall2_lookup_l _ _ _ _ _ Hall Hith) as (row & Hrow & Hfiltered).
  exists row. split; [exact Hrow|].
  assert (Hdistinct : NoDup (map_to_list (built row_id)).*1)
    by apply NoDup_fst_map_to_list.
  unfold filterSingleRow in Hfiltered.
  destruct (for_each _ _ (map_to_list (built row_id))) as [st|e] eqn:Hst;
    [|discriminate].
  simpl in Hfiltered. injection Hfiltered as <-. split.
  - assert (Hin : ("_row_id", JString row_id) ∈ map_to_list (built row_id)).
    { apply elem_of_map_to_list. unfold built, build_row.
      rewrite (foldl_assign_other f_field_name
                 (fun f => cell_of cells resourceId (f_id f) row_id)) by exact Hrow_id.
      apply lookup_insert_eq. }
    destruct (for_each_unknown_key db rows userId resourceId action environment fieldMap
                _ st "_row_id" (JString row_id) Hdistinct Hin Hid Hst) as [Hcell _].
    rewrite lookup_insert_ne by discriminate. exact Hcell.
  - intros field Hfield.
    assert (Hname : f_field_name field ≠ "__proto__").
    { intros Hname. apply Hproto. rewrite <- Hname. apply list_elem_of_fmap.
      exists field. auto. }
    assert (Hin : (f_field_name field, cell_of cells resourceId (f_id field) row_id)
                  ∈ map_to_list (built row_id)).
    { apply elem_of_map_to_list. unfold built, build_row.
      apply (foldl_assign_elem f_field_name
               (fun f => cell_of cells resourceId (f_id f) row_id)); assumption. }
    destruct (for_each_key db rows userId resourceId action environment fieldMap
                _ _ st _ _ Hdistinct Hin Hst) as (d & Hd & Hcell & _).
    rewrite (turn_field _ _ _ _ _ _ _ _ _ (Hown field Hfield)) in Hd.
    injection Hd as <-. simpl in Hcell.
    rewrite lookup_insert_ne.
    + rewrite Hcell. destruct (filtered_cell _ _ _) as [cell|];
        [apply lookup_assign_eq; exact Hname|apply lookup_empty].
    + intros Heq. apply Hlog. rewrite Heq. apply list_elem_of_fmap. exists field. auto.
Qed.

Lemma stored_cell_follows_effect_witness :
  let cells := [ {| d_resource_id := "r2"; d_field_id := "f1"; d_row_id := "row1";
                    d_cell_value := Some "123-45-6789" |} ] in
  ∃ result row,
    @getFilteredResourceData Sample.runtime (store [M]) cells [M] ["row1"]
      "u1" "r2" "read" ∅ = Returns result
    ∧ fr_rows result !! 0%nat = Some row
    ∧ row !! "_row_id" = Some (Cell (JString "row1"))
    ∧ row !! "ssn" = Some (Cell (JString "***-**-6789")).
Proof.
  intros cells.
  destruct (@stored_cell_follows_effect Sample.runtime (store [M]) cells [M] ["row1"]
              "u1" "r2" "read" ∅) as (result & Hrun & _ & _ & H).
  - discriminate.
  - apply NoDup_singleton.
  - change ("_row_id" ∉ ["ssn"]). rewrite list_elem_of_singleton. discriminate.
  - change ("_accessControl" ∉ ["ssn"]). rewrite list_elem_of_singleton. discriminate.
  - change ("__proto__" ∉ ["ssn"]). rewrite list_elem_of_singleton. discriminate.
  - destruct (H 0%nat "row1" eq_refl) as (row & Hrow & Hid & Hcell).
    exists result, row. split; [exact Hrun|]. split; [exact Hrow|]. split; [exact Hid|].
    etransitivity; [exact (Hcell ssn_field (list_elem_of_here _ _))|].
    vm_compute. reflexivity.
Defined.

End DataExtras.

(** * Further properties of the routes that maintain the field tables *)

Module AttributeFacts.
Import ObjectFacts.

(** The value read under a name depends only on the rows of this name. *)
Lemma assign_rows_filter (P : attribute → Prop) `{!∀ a, Decision (P a)}
    (rows : list attribute) (m m' : gmap string string) (k : string) :
  (∀ a, a_name a = k → P a) → m !! k = m' !! k →
  assign_rows (filter P rows) m !! k = assign_rows rows m' !! k.
Proof.
  intros HP. revert m m'. induction rows as [|a rows IH]; intros m m' Hm; [exact Hm|].
  rewrite filter_cons. unfold assign_rows in *. destruct (decide (P a)) as [Ha|Ha]; simpl.
  - apply IH. apply lookup_assign_same. exact Hm.
  - apply IH. rewrite lookup_assign_ne; [exact Hm|]. intros Hk. apply Ha, HP, Hk.
Qed.

Lemma assign_rows_snoc (rows : list attribute) (a : attribute) (m : gmap string string) :
  assign_rows (rows ++ [a]) m = Js.assign (a_name a) (a_value a) (assign_rows rows m).
Proof. unfold assign_rows. rewrite foldl_app. reflexivity. Qed.

End AttributeFacts.

Section RouteExtras.

Import CellPolicyEngine RowFilter ObjectFacts BagFacts RowFilterFacts FieldMapFacts.
Import AttributeFacts.
Import ResourceData CellRoutes CellData.

(** Setting a field attribute and reading the attributes back: the
    attributes of the field are the former ones with the name bound to
    [String(value)] (a new name is added, a stored one replaced), but for
    the name [__proto__], which is stored in the table and never read
    back: the object read is as before.  The attributes of every other
    field are unchanged, and the table keeps its uniqueness of
    [(field_id, attribute_name)]. *)
Theorem attribute_put_then_get (db : database) (fieldId attrName : string)
    (value : js_value) (other : string) :
  let db' := put_field_attribute db fieldId attrName value in
  (attrName ≠ "__proto__" →
   getFieldAttributes db' fieldId
   = <[attrName := js_String value]> (getFieldAttributes db fieldId))
  ∧ (attrName = "__proto__" → getFieldAttributes db' fieldId = getFieldAttributes db fieldId)
  ∧ (other ≠ fieldId → getFieldAttributes db' other = getFieldAttributes db other)
  ∧ (NoDup ((fun a => (a_owner a, a_name a)) <$> field_attributes db) →
     NoDup ((fun a => (a_owner a, a_name a)) <$> field_attributes db')).
Proof.
  assert (Hget : getFieldAttributes (put_field_attribute db fieldId attrName value) fieldId
                 = Js.assign attrName (js_String value) (getFieldAttributes db fieldId)).
  { unfold getFieldAttributes, put_field_attribute, rows_of. simpl.
    rewrite filter_app, filter_cons, decide_True by reflexivity.
    rewrite filter_nil, assign_rows_snoc. simpl.
    apply map_eq. intros k. destruct (decide (attrName = k)) as [<-|Hne].
    - destruct (decide (attrName = "__proto__")) as [->|Hname].
      + rewrite !assign_proto, !assign_rows_proto. reflexivity.
      + rewrite !lookup_assign_eq by exact Hname. reflexivity.
    - rewrite !lookup_assign_ne by exact Hne.
      rewrite list_filter_filter.
      rewrite <- (assign_rows_filter
                    (fun a => ¬ (a_owner a = fieldId ∧ a_name a = attrName))
                    (filter (fun a => a_owner a = fieldId) (field_attributes db)) ∅ ∅ k)
        by (intros a Ha [_ Hn]; congruence) || reflexivity.
      rewrite list_filter_filter. do 2 f_equal. apply list_filter_iff. tauto. }
  simpl. split; [|split; [|split]].
  - intros Hname. rewrite Hget. unfold Js.assign.
    apply String.eqb_neq in Hname. rewrite Hname. reflexivity.
  - intros ->. rewrite Hget. reflexivity.
  - intros Hother. unfold getFieldAttributes, put_field_attribute, rows_of. simpl.
    rewrite filter_app, filter_cons, decide_False by (simpl; congruence).
    rewrite filter_nil, app_nil_r, list_filter_filter. f_equal.
    apply list_filter_iff. intros a. split; [tauto|].
    intros Ha. split; [exact Ha|]. intros [Ho _]. congruence.
  - intros Hnodup. unfold put_field_attribute. simpl.
    rewrite fmap_app. apply NoDup_app. split; [|split].
    + eapply sublist_NoDup; [exact Hnodup|]. apply fmap_sublist, sublist_filter.
    + intros pair Hpair Hnew. apply list_elem_of_singleton in Hnew as ->.
      apply list_elem_of_fmap in Hpair as (a & Heq & Ha).
      apply list_elem_of_filter in Ha as [Ha _]. simpl in Heq.
      apply Ha. split; congruence.
    + apply NoDup_singleton.
Qed.

Lemma attribute_put_then_get_witness :
  let db := put_field_attribute (store [M]) "f1" "sensitivity" (JString "low") in
  getFieldAttributes db "f1" !! "sensitivity" = Some "low"
  ∧ getFieldAttributes db "f2" = ∅
  ∧ NoDup ((fun a => (a_owner a, a_name a)) <$> field_attributes db).
Proof.
  intros db.
  destruct (attribute_put_then_get (store [M]) "f1" "sensitivity" (JString "low") "f2")
    as (Hget & _ & Hother & Hunique).
  split; [|split].
  - unfold db. rewrite Hget by discriminate. apply lookup_insert_eq.
  - unfold db. rewrite Hother by discriminate. reflexivity.
  - apply Hunique. apply NoDup_singleton.
Defined.

(** Toggling an active field policy switches it off for the engine: on
    rows that answer the query of [getFieldPolicies] after the toggle, no
    decision cites a policy of this id. *)
Theorem toggled_off_policy_is_not_cited {rt : JsRuntime} (db db' : database)
    (policyId : string) (stored : field_policy_row) (resourceType : option string)
    (rows : list field_policy_row) (userId resourceId fieldId action : string)
    (environment : gmap string string) (p : field_policy) :
  find (fun p => String.eqb (fp_id p) policyId) (field_policies db) = Some stored →
  fp_is_active stored ≠ 0 →
  toggle_field_policy db policyId = Some db' →
  Query.getFieldPolicies_rows db' resourceType rows →
  policy_of (evaluateFieldAccess db' rows userId resourceId fieldId action environment)
  = Some p →
  fp_id (row p) ≠ policyId.
Proof.
  intros Hfind Hactive Htoggle [Hperm _] Hcited Hid.
  unfold toggle_field_policy in Htoggle. rewrite Hfind in Htoggle.
  apply Z.eqb_neq in Hactive. rewrite Hactive in Htoggle. injection Htoggle as <-.
  apply evaluateFieldAccess_cites in Hcited. unfold getFieldPolicies in Hcited.
  apply list_elem_of_fmap in Hcited as (r & -> & Hr). simpl in Hid.
  rewrite Hperm in Hr. unfold field_policy_candidates in Hr.
  apply list_elem_of_filter in Hr as [[Hon _] Hr]. simpl in Hr.
  apply list_elem_of_fmap in Hr as (q & -> & _).
  destruct (String.eqb (fp_id q) policyId) eqn:Hq.
  - discriminate Hon.
  - apply String.eqb_neq in Hq. contradiction.
Qed.

Lemma toggled_off_policy_is_not_cited_witness :
  ∃ db', toggle_field_policy (store [M; A]) "M" = Some db'
         ∧ ∀ p, policy_of (@evaluateFieldAccess Sample.runtime db' [A] "u1" "r2" "f1"
                             "read" ∅) = Some p →
                fp_id (row p) ≠ "M".
Proof.
  eexists. split; [reflexivity|]. intros p.
  apply (@toggled_off_policy_is_not_cited Sample.runtime (store [M; A]) _ "M" M
           (Some "employee_records") [A] "u1" "r2" "f1" "read" ∅ p).
  - reflexivity.
  - discriminate.
  - reflexivity.
  - split; [vm_compute; reflexivity|reflexivity].
Defined.

(** Deleting the definition of a field takes its column out of the
    protection of [filterResourceData]: under the uniqueness of
    [(resource_id, field_name)], a value that a row carries under the name
    of the deleted field is returned as it is, whatever the field
    policies say.  This holds for a row with distinct keys, none of which
    finds in the field map a value that is no field (a member of
    [Object.prototype]: the filter then throws on a known resource). *)
Theorem deleted_field_passes_through {rt : JsRuntime} (db : database)
    (cells : list resource_datum) (rows : list field_policy_row)
    (userId action : string) (environment : gmap string string)
    (field : resource_field) (row : list (string * js_value)) (v : js_value) :
  field ∈ resource_fields db →
  (∀ g, g ∈ resource_fields db → f_resource_id g = f_resource_id field →
        f_field_name g = f_field_name field → f_id g = f_id field) →
  NoDup row.*1 → (f_field_name field, v) ∈ row → f_field_name field ≠ "_accessControl" →
  let after := delete_field db cells (f_id field) in
  Forall (fun e => lookup_field (fieldMap_of after.1.1 (f_resource_id field)) e.1 ≠ Foreign)
         row →
  after.2 = true
  ∧ ∃ filtered,
      filterResourceData after.1.1 rows userId (f_resource_id field) (Row row)
        action environment = Returns (FilteredRow filtered)
      ∧ filtered !! f_field_name field = Some (Cell v).
Proof.
  intros Hfield Hunique Hnodup Hin Hne after. subst after. unfold delete_field. simpl.
  set (db' := with_fields db _ _). intros Hrow. split.
  - apply bool_decide_eq_true. apply Exists_exists. exists field. auto.
  - assert (Hf : lookup_field (fieldMap_of db' (f_resource_id field)) (f_field_name field)
                 = Falsy).
    { destruct (lookup_field _ (f_field_name field)) as [|g|] eqn:Hlook; [reflexivity| |].
      - exfalso. unfold fieldMap_of in Hlook.
        apply lookup_field_foldl in Hlook as [Hlook|[Hg Hname]];
          [exact (lookup_field_no_fields _ _ Hlook)|].
        simpl in Hg. apply list_elem_of_filter in Hg as [Hres Hg].
        apply list_elem_of_filter in Hg as [Hid Hg]. apply Hid. apply Hunique; auto.
      - exfalso. rewrite Forall_forall in Hrow. apply (Hrow _ Hin). exact Hlook. }
    unfold filterSingleRow.
    destruct (for_each_returns db' rows userId (f_resource_id field) action environment
                _ row (∅, ∅) Hrow) as [st Hrun].
    rewrite Hrun. simpl. eexists. split; [reflexivity|].
    destruct (for_each_unknown_key db' rows userId (f_resource_id field) action
                environment _ row st _ v Hnodup Hin Hf Hrun) as [Hcell _].
    rewrite lookup_insert_ne by congruence. exact Hcell.
Qed.

Lemma deleted_field_passes_through_witness :
  let after := delete_field (store [M]) [] "f1" in
  ∃ filtered,
    @filterResourceData Sample.runtime after.1.1 [M] "u1" "r2"
      (Row [("ssn", JString "123-45-6789")]) "read" ∅ = Returns (FilteredRow filtered)
    ∧ filtered !! "ssn" = Some (Cell (JString "123-45-6789")).
Proof.
  intros after.
  destruct (@deleted_field_passes_through Sample.runtime (store [M]) [] [M] "u1" "read" ∅
              ssn_field [("ssn", JString "123-45-6789")] (JString "123-45-6789"))
    as (_ & H).
  - apply list_elem_of_here.
  - intros g Hg _ _. apply list_elem_of_singleton in Hg as ->. reflexivity.
  - apply NoDup_singleton.
  - apply list_elem_of_here.
  - discriminate.
  - repeat constructor. discriminate.
  - exact H.
Defined.

End RouteExtras.

(** * Properties of the search service *)

Module SearchFacts.
Import CellPolicyEngine.

Section Facts.

Context {rt : JsRuntime}.

(** The two condition callbacks differ on the operator [matches] only. *)
Lemma evaluateCondition_agree (c : field_condition) (ctx : context) :
  fc_operator c ≠ "matches" →
  SearchService.evaluateCondition c ctx = evaluateCondition c ctx.
Proof.
  intros Hop. apply String.eqb_neq in Hop.
  unfold SearchService.evaluateCondition, evaluateCondition.
  rewrite Hop. reflexivity.
Qed.

Lemma evaluateCondition_matches (c : field_condition) (ctx : context) :
  fc_operator c = "matches" → SearchService.evaluateCondition c ctx = false.
Proof.
  intros Hop. unfold SearchService.evaluateCondition. rewrite Hop.
  destruct (actualValue c ctx) as [[a|]|]; reflexivity.
Qed.

(** On a context whose field has a name, the two copies of
    [evaluatePolicyConditions] agree on every policy that has no condition
    with the operator [matches]. *)
Lemma evaluatePolicyConditions_agree (policy : field_policy) (ctx : context) :
  Js.truthy (ctx_field ctx !! "name") = true →
  Forall (fun c => fc_operator c ≠ "matches") (conditions policy) →
  SearchService.evaluatePolicyConditions policy ctx = evaluatePolicyConditions policy ctx.
Proof.
  intros Hname Hops.
  unfold SearchService.evaluatePolicyConditions, evaluatePolicyConditions, field_name_of.
  rewrite Hname. destruct (ctx_field ctx !! "name") as [name|]; [|discriminate Hname].
  simpl. destruct (Z.of_nat _ =? 0); [reflexivity|].
  match goal with |- (if ?b then _ else _) = _ => destruct b end; [|reflexivity].
  induction Hops as [|c cs Hc Hcs IH]; [reflexivity|]. simpl.
  rewrite evaluateCondition_agree by exact Hc. rewrite IH. reflexivity.
Qed.

(** The relation the two loops keep between their states. *)
Definition scan_states (st : string * option string) (result : field_access) : Prop :=
  st.1 = effect result ∧ st.2 = maskValue result ∧ (st.1 ≠ MASK → st.2 = None).

Lemma scan_agree (ctx : context) (policies : list field_policy) :
  Forall (fun p => SearchService.evaluatePolicyConditions p ctx
                   = evaluatePolicyConditions p ctx) policies →
  ∀ st result, scan_states st result →
    (SearchService.document_scan ctx st policies).1
    = effect (field_scan ctx result policies)
    ∧ (effect (field_scan ctx result policies) ≠ DENY →
       (SearchService.document_scan ctx st policies).2
       = maskValue (field_scan ctx result policies)).
Proof.
  induction 1 as [|p ps Hp Hps IH]; intros st result (He & Hm & Hnone).
  - simpl. auto.
  - simpl. rewrite Hp. destruct (evaluatePolicyConditions p ctx); [|apply IH; repeat split; auto].
    destruct (String.eqb (fp_effect (row p)) DENY) eqn:Hdeny.
    { simpl. split; [reflexivity|]. intros Hcontra. contradiction Hcontra. reflexivity. }
    destruct (String.eqb (fp_effect (row p)) REDACT) eqn:Hredact.
    { simpl. auto. }
    apply IH.
    destruct (String.eqb (fp_effect (row p)) MASK) eqn:Hmask.
    + apply String.eqb_eq in Hmask. rewrite Hmask. simpl.
      repeat split. intros Hcontra. contradiction Hcontra. reflexivity.
    + destruct (String.eqb (fp_effect (row p)) ALLOW); simpl; [|repeat split; auto].
      rewrite <- He. destruct (String.eqb st.1 MASK) eqn:Hst; simpl; [repeat split; auto|].
      apply String.eqb_neq in Hst. repeat split; auto.
Qed.

End Facts.
End SearchFacts.

Section SearchExtras.

Import CellPolicyEngine SearchFacts CellData.

(** The search service does not know the operator [matches]: a policy
    that has a condition with this operator matches no field of any
    document there. *)
Theorem search_ignores_matches_operator {rt : JsRuntime} (policy : field_policy)
    (ctx : context) (c : field_condition) :
  c ∈ conditions policy → fc_operator c = "matches" →
  SearchService.evaluatePolicyConditions policy ctx = false.
Proof.
  intros Hc Hop. unfold SearchService.evaluatePolicyConditions.
  destruct (conditions policy) as [|c0 cs] eqn:Hcs; [inversion Hc|].
  change (Z.of_nat (List.length (c0 :: cs)) =? 0) with false. cbv iota.
  match goal with |- (if ?b then _ else _) = _ => destruct b end; [|reflexivity].
  apply not_true_is_false. intros Hall. rewrite forallb_forall in Hall.
  apply list_elem_of_In in Hc. specialize (Hall c Hc).
  rewrite evaluateCondition_matches in Hall by exact Hop. discriminate Hall.
Qed.

Lemma search_ignores_matches_operator_witness :
  let policy :=
    {| row := A;
       conditions := [ {| fc_subject_type := "action"; fc_attribute_name := "";
                          fc_operator := "matches"; fc_value := "read" |} ] |} in
  @SearchService.evaluatePolicyConditions Sample.runtime policy
     (ssn_context (store [A])) = false
  ∧ @evaluatePolicyConditions Sample.runtime policy (ssn_context (store [A])) = true.
Proof.
  intros policy. split; [|vm_compute; reflexivity].
  apply (@search_ignores_matches_operator Sample.runtime policy _
           {| fc_subject_type := "action"; fc_attribute_name := "";
              fc_operator := "matches"; fc_value := "read" |}).
  - apply list_elem_of_here.
  - reflexivity.
Defined.

(** The loop of [filterDocumentFields] decides as the loop of
    [evaluateFieldAccess] does: on a context whose field has a name and on
    policies without a [matches] condition, the effect is the same, and so
    is the mask or redaction text whenever the effect is not deny. *)
Theorem document_scan_follows_field_scan {rt : JsRuntime} (ctx : context)
    (policies : list field_policy) :
  Js.truthy (ctx_field ctx !! "name") = true →
  Forall (fun p => Forall (fun c => fc_operator c ≠ "matches") (conditions p)) policies →
  let state := SearchService.document_scan ctx (DENY, None) policies in
  let result := field_scan ctx no_match policies in
  state.1 = effect result ∧ (effect result ≠ DENY → state.2 = maskValue result).
Proof.
  intros Hname Hops. apply scan_agree.
  - eapply Forall_impl; [exact Hops|]. intros p Hp.
    apply evaluatePolicyConditions_agree; assumption.
  - repeat split.
Qed.

Lemma document_scan_follows_field_scan_witness :
  let policies := @getFieldPolicies (store [M; A]) [M; A] in
  @SearchService.document_scan Sample.runtime (ssn_context (store [M; A])) (DENY, None)
     policies
  = (MASK, None).
Proof.
  intros policies.
  destruct (@document_scan_follows_field_scan Sample.runtime (ssn_context (store [M; A]))
              policies) as [Heffect Hmask].
  - vm_compute. reflexivity.
  - repeat constructor; discriminate.
  - apply injective_projections.
    + rewrite Heffect. vm_compute. reflexivity.
    + rewrite Hmask; [vm_compute; reflexivity|]. vm_compute. discriminate.
Defined.

End SearchExtras.

Module DocumentFacts.
Import CellPolicyEngine RowFilter SearchService ObjectFacts.

Section Facts.

Context {rt : JsRuntime}.
Variables (userAttrs : gmap string string) (policies : list field_policy)
          (doc : document) (action : string).

Let step := filter_document_entry userAttrs policies doc action.









End Facts.
End DocumentFacts.

Section DocumentExtras.

Import CellPolicyEngine RowFilter SearchService DocumentFacts CellData.



End DocumentExtras.
